(** * script.js: functions, scope and animation triggers

    A shallow embedding of [script.js] and the properties of its utility
    functions, of the closure counter, of the class toggler and of the modal
    open/close sequence.

    JavaScript numbers are IEEE 754 binary64 values; they are modelled with
    the standard library's [spec_float] at precision 53 and maximal exponent
    1024, so that [*], [+], [Math.round], [Math.min] and [Math.max] round and
    compare as the engine does.  JavaScript strings are sequences of UTF-16
    code units. *)

From Stdlib Require Import ZArith NArith List Bool Lia String Ascii.
From Stdlib Require Import Floats.SpecFloat.
From stdpp Require Import base list gmap.
Import ListNotations.
Open Scope Z_scope.

(** ** Numbers *)

Definition prec : Z := 53.
Definition emax : Z := 1024.

Definition Number : Type := spec_float.

Definition NaN : Number := S754_nan.

(** A [spec_float] is a binary64 value when its mantissa and exponent are in
    canonical form. *)
Definition valid_number (x : Number) : bool := valid_binary prec emax x.

(** The Number value of a mathematical integer (round to nearest, ties to
    even). *)
Definition Z2F (z : Z) : Number := binary_normalize prec emax z 0 false.

(** The Number value of the fraction [num / den], correctly rounded. *)
Definition ratio2F (s : bool) (num den : positive) : Number :=
  SFdiv prec emax (S754_finite s num 0) (S754_finite false den 0).

(** The Number value of the decimal [(-1)^s * digits * 10^E]: the value of a
    numeric literal and of a numeric string. *)
Definition decimal2F (s : bool) (digits : N) (E : Z) : Number :=
  match digits with
  | N0 => S754_zero s
  | Npos p =>
      if 0 <=? E
      then binary_normalize prec emax (cond_Zopp s (Zpos p * 10 ^ E)) 0 s
      else ratio2F s p (Z.to_pos (10 ^ (- E)))
  end.

Definition num_mul : Number -> Number -> Number := SFmul prec emax.
Definition num_add : Number -> Number -> Number := SFadd prec emax.
Definition num_lt : Number -> Number -> bool := SFltb.

Definition isNaN (x : Number) : bool :=
  match x with S754_nan => true | _ => false end.

Definition is_pos_zero (x : Number) : bool :=
  match x with S754_zero false => true | _ => false end.

Definition is_neg_zero (x : Number) : bool :=
  match x with S754_zero true => true | _ => false end.

(** [Math.min(...args)]: NaN if any argument is NaN; otherwise the running
    minimum starting from +Infinity, with -0 below +0. *)
Definition min_step (lowest number : Number) : Number :=
  if is_neg_zero number && is_pos_zero lowest then number
  else if num_lt number lowest then number else lowest.

Definition Math_min (args : list Number) : Number :=
  if existsb isNaN args then NaN
  else fold_left min_step args (S754_infinity false).

(** [Math.max(...args)]: NaN if any argument is NaN; otherwise the running
    maximum starting from -Infinity, with +0 above -0. *)
Definition max_step (highest number : Number) : Number :=
  if is_pos_zero number && is_neg_zero highest then number
  else if num_lt highest number then number else highest.

Definition Math_max (args : list Number) : Number :=
  if existsb isNaN args then NaN
  else fold_left max_step args (S754_infinity true).

(** [Math.round(x)]: the integral Number closest to [x], ties towards
    +Infinity; NaN, the infinities and the zeros are returned unchanged, and a
    result of zero keeps the sign of [x].  For a finite [x = (-1)^s m 2^e]
    with [e < 0] the integer is [floor (x + 1/2)], computed exactly. *)
Definition Math_round (x : Number) : Number :=
  match x with
  | S754_finite s m e =>
      if 0 <=? e then x
      else
        let n := (2 * cond_Zopp s (Zpos m) + 2 ^ (- e)) / 2 ^ (1 - e) in
        if n =? 0 then S754_zero s else Z2F n
  | _ => x
  end.

(** ** Strings and values *)

Definition code_unit : Type := N.
Definition jsstring : Type := list code_unit.

(** The code units of an ASCII literal. *)
Definition str (s : string) : jsstring :=
  map N_of_ascii (list_ascii_of_string s).

Inductive JSValue : Type :=
  | JUndefined
  | JNull
  | JBool (b : bool)
  | JNum (x : Number)
  | JStr (s : jsstring).

(** [ToBoolean] on Numbers: false for +0, -0 and NaN. *)
Definition num_truthy (x : Number) : bool :=
  match x with
  | S754_zero _ | S754_nan => false
  | _ => true
  end.

(** [x || y] on Numbers. *)
Definition num_or (x y : Number) : Number :=
  if num_truthy x then x else y.

(** *** StringToNumber *)

Open Scope N_scope.

(** WhiteSpace and LineTerminator code points. *)
Definition is_str_whitespace (c : code_unit) : bool :=
  ((9 <=? c) && (c <=? 13)) || (c =? 32) || (c =? 160) || (c =? 5760)
  || ((8192 <=? c) && (c <=? 8202)) || (c =? 8232) || (c =? 8233)
  || (c =? 8239) || (c =? 8287) || (c =? 12288) || (c =? 65279).

Definition digit_of (base : N) (c : code_unit) : option N :=
  let v :=
    if (48 <=? c) && (c <=? 57) then Some (c - 48)
    else if (97 <=? c) && (c <=? 102) then Some (c - 87)
    else if (65 <=? c) && (c <=? 70) then Some (c - 55)
    else None in
  match v with
  | Some d => if d <? base then Some d else None
  | None => None
  end.

(** Reads the longest prefix of digits in [base]; returns the accumulated
    value, the number of digits read and the rest of the string. *)
Fixpoint read_digits (base : N) (l : jsstring) (acc : N) (cnt : nat)
  : N * nat * jsstring :=
  match l with
  | c :: l' =>
      match digit_of base c with
      | Some d => read_digits base l' (acc * base + d) (S cnt)
      | None => (acc, cnt, l)
      end
  | [] => (acc, cnt, [])
  end.

Fixpoint drop_whitespace (l : jsstring) : jsstring :=
  match l with
  | c :: l' => if is_str_whitespace c then drop_whitespace l' else l
  | [] => []
  end.

Definition trim (l : jsstring) : jsstring :=
  rev (drop_whitespace (rev (drop_whitespace l))).

Definition jsstring_eqb (a b : jsstring) : bool :=
  bool_decide (a = b).

(** An optional sign: whether it is [-], and the rest of the string. *)
Definition read_sign (l : jsstring) : bool * jsstring :=
  match l with
  | c :: r => if c =? 43 then (false, r) else if c =? 45 then (true, r)
              else (false, l)
  | [] => (false, [])
  end.

(** ExponentPart_opt followed by the end of the string. *)
Definition parse_exponent (l : jsstring) : option Z :=
  match l with
  | [] => Some 0%Z
  | c :: l1 =>
      if (c =? 101) || (c =? 69) then
        let '(sgn, l2) := read_sign l1 in
        match read_digits 10 l2 0 0 with
        | (v, S _, []) => Some (cond_Zopp sgn (Z.of_N v))
        | _ => None
        end
      else None
  end.

(** StrUnsignedDecimalLiteral with the sign [s] read before it. *)
Definition parse_unsigned_decimal (s : bool) (l : jsstring) : Number :=
  if jsstring_eqb l (str "Infinity") then S754_infinity s
  else
    let '(ip, ni, l1) := read_digits 10 l 0 0 in
    let '(mant, nf, has_digits, l2) :=
      match l1 with
      | c :: r =>
          if c =? 46 then
            let '(m, n, r') := read_digits 10 r ip 0 in
            (m, n, negb (Nat.eqb (ni + n) 0), r')
          else (ip, 0%nat, negb (Nat.eqb ni 0), l1)
      | [] => (ip, 0%nat, negb (Nat.eqb ni 0), l1)
      end in
    if has_digits then
      match parse_exponent l2 with
      | Some E => decimal2F s mant (E - Z.of_nat nf)
      | None => NaN
      end
    else NaN.

(** NonDecimalIntegerLiteral: the digits after the [0x], [0o] or [0b]
    prefix. *)
Definition parse_non_decimal (base : N) (l : jsstring) : Number :=
  match read_digits base l 0 0 with
  | (v, S _, []) => Z2F (Z.of_N v)
  | _ => NaN
  end.

(** The base announced by the letter after a leading [0]. *)
Definition non_decimal_base (c : code_unit) : option N :=
  if (c =? 120) || (c =? 88) then Some 16
  else if (c =? 111) || (c =? 79) then Some 8
  else if (c =? 98) || (c =? 66) then Some 2
  else None.

Definition non_decimal_prefix (l : jsstring) : option (N * jsstring) :=
  match l with
  | c1 :: c2 :: r =>
      if c1 =? 48 then
        match non_decimal_base c2 with
        | Some b => Some (b, r)
        | None => None
        end
      else None
  | _ => None
  end.

(** StringToNumber: white space is trimmed; the empty string is +0; a
    string that is not a StringNumericLiteral is NaN. *)
Definition StringToNumber (s : jsstring) : Number :=
  match trim s with
  | [] => S754_zero false
  | l =>
      match non_decimal_prefix l with
      | Some (b, digits) => parse_non_decimal b digits
      | None => let '(sgn, r) := read_sign l in parse_unsigned_decimal sgn r
      end
  end.

Close Scope N_scope.

(** [Number(v)] on the primitive values. *)
Definition ToNumber (v : JSValue) : Number :=
  match v with
  | JUndefined => NaN
  | JNull => S754_zero false
  | JBool true => Z2F 1
  | JBool false => S754_zero false
  | JNum x => x
  | JStr s => StringToNumber s
  end.

(** ** Utility functions of the script *)

(** [function clamp(value, min, max)] *)
Definition clamp (value min max : Number) : Number :=
  Math_max [min; Math_min [max; value]].

(** [function computeDurationMs(multiplier)] *)
Definition computeDurationMs (multiplier : JSValue) : Number :=
  let base := decimal2F false 900 0 in
  let m := clamp (num_or (ToNumber multiplier) (decimal2F false 1 0))
                 (decimal2F false 25 (-2)) (decimal2F false 4 0) in
  Math_round (num_mul base m).

(** *** Formatting a duration *)

Definition num_div : Number -> Number -> Number := SFdiv prec emax.

(** The decimal digits of a natural number, most significant first; [fuel]
    bounds their number. *)
Fixpoint digits_from (fuel : nat) (n : N) (acc : jsstring) : jsstring :=
  match fuel with
  | O => acc
  | S fuel' =>
      if (n <? 10)%N then (48 + n)%N :: acc
      else digits_from fuel' (n / 10)%N ((48 + n mod 10)%N :: acc)
  end.

Definition decimal_digits (n : N) : jsstring :=
  digits_from (S (N.to_nat (N.log2 n))) n [].

(** [Number::toString] looks for the least number [k] of digits such that
    some [k]-digit integer [s], scaled by a power of ten, rounds to [x].
    [X] is the integer [x] stands for and [d] the number of its digits; the
    candidates with [k] digits are the first [k] digits of [X] and their
    successor, and of two that round to [x] the one closer to [X] is taken
    (as engines do where the standard leaves the choice open).  The result is
    the scaled integer. *)
Fixpoint shortest_digits (fuel k : nat) (d : N) (X : Z) (x : Number) : Z :=
  match fuel with
  | O => X
  | S fuel' =>
      let p := 10 ^ (Z.of_N d - Z.of_nat k) in
      let lo := X / p in
      let ok s :=
        (10 ^ (Z.of_nat k - 1) <=? s) && (s <=? 10 ^ Z.of_nat k)
        && SFeqb (Z2F (s * p)) x in
      match ok lo, ok (lo + 1) with
      | true, true =>
          let dlo := X - lo * p in
          let dhi := (lo + 1) * p - X in
          if dlo <? dhi then lo * p
          else if dhi <? dlo then (lo + 1) * p
          else if Z.even lo then lo * p else (lo + 1) * p
      | true, false => lo * p
      | false, true => (lo + 1) * p
      | false, false => shortest_digits fuel' (S k) d X x
      end
  end.

Fixpoint strip_trailing_zeros (l : jsstring) : jsstring :=
  match l with
  | [] => []
  | c :: l' =>
      match strip_trailing_zeros l' with
      | [] => if (c =? 48)%N then [] else [c]
      | r => c :: r
      end
  end.

(** [Number::toString(x)] for a finite [x >= 10^21] standing for the
    integer [X]: exponential notation. *)
Definition toString_large (x : Number) (X : Z) : jsstring :=
  let d := N.of_nat (length (decimal_digits (Z.to_N X))) in
  let V := shortest_digits 21 1 d X x in
  let all := decimal_digits (Z.to_N V) in
  let n := length all in
  match strip_trailing_zeros all with
  | [] => all
  | [c] => c :: str "e+" ++ decimal_digits (N.of_nat (n - 1))
  | c :: rest => c :: 46%N :: rest ++ str "e+" ++ decimal_digits (N.of_nat (n - 1))
  end.

(** [x.toFixed(f)] for [0 <= f <= 100] (beyond, the method throws a
    RangeError): a value that is not finite or is at least [10^21] is
    printed as by [String(x)]; otherwise the integer [n] nearest to
    [x * 10^f] (the larger of two) is printed with a point before its last
    [f] digits. *)
Definition toFixed (x : Number) (f : nat) : jsstring :=
  match x with
  | S754_nan => str "NaN"
  | S754_infinity false => str "Infinity"
  | S754_infinity true => str "-Infinity"
  | S754_zero _ =>
      if Nat.eqb f 0 then str "0" else str "0." ++ repeat 48%N f
  | S754_finite s m e =>
      let sign := if s then str "-" else [] in
      let large :=
        if 0 <=? e then 10 ^ 21 <=? Zpos m * 2 ^ e
        else 10 ^ 21 * 2 ^ (- e) <=? Zpos m in
      if large then sign ++ toString_large (S754_finite false m e) (Zpos m * 2 ^ e)
      else
        let n :=
          if 0 <=? e then Zpos m * 2 ^ e * 10 ^ Z.of_nat f
          else (2 * Zpos m * 10 ^ Z.of_nat f + 2 ^ (- e)) / 2 ^ (1 - e) in
        let m0 := decimal_digits (Z.to_N n) in
        if Nat.eqb f 0 then sign ++ m0
        else
          let m1 := repeat 48%N (S f - length m0) ++ m0 in
          let k := length m1 in
          sign ++ take (k - f) m1 ++ 46%N :: drop (k - f) m1
  end.

(** [function msToSecondsString(ms)] *)
Definition msToSecondsString (ms : JSValue) : jsstring :=
  toFixed (num_div (ToNumber ms) (decimal2F false 1000 0)) 2 ++ str "s".

(** ** The closure counter *)

(** The variables captured by closures live in a store: one cell per call of
    [makeCounter], holding that call's [count].  The function [inc] returned
    by [makeCounter] is identified by the cell it closes over. *)

(** [function makeCounter(start = 0)]: [None] stands for an omitted (or
    undefined) argument.  Returns the closure and the extended store. *)
Definition makeCounter (start : option Number) (store : list Number)
  : nat * list Number :=
  let count := default (decimal2F false 0 0) start in
  (length store, store ++ [count]).

(** [function inc()]: [count += 1; return count;] on the captured cell. *)
Definition inc (cell : nat) (store : list Number)
  : option (Number * list Number) :=
  match store !! cell with
  | Some count =>
      let count' := num_add count (decimal2F false 1 0) in
      Some (count', <[cell := count']> store)
  | None => None
  end.

(** The value returned by the [n]-th of [n] successive calls ([n >= 1]),
    and the store after them. *)
Fixpoint calls (n : nat) (cell : nat) (store : list Number)
  : option (Number * list Number) :=
  match n with
  | O => None
  | S O => inc cell store
  | S n' =>
      match calls n' cell store with
      | Some (_, store') => inc cell store'
      | None => None
      end
  end.

(** What a program does with counters: it makes one, or calls one. *)
Inductive CounterOp : Type :=
  | Make (start : option Number)
  | Call (cell : nat).

Definition counter_step (store : list Number) (op : CounterOp) : list Number :=
  match op with
  | Make start => snd (makeCounter start store)
  | Call cell =>
      match inc cell store with
      | Some (_, store') => store'
      | None => store
      end
  end.

(** The store after a sequence of operations. *)
Definition counter_run (ops : list CounterOp) (store : list Number)
  : list Number :=
  foldl counter_step store ops.

(** The number of calls of the counter of a cell among the operations. *)
Fixpoint calls_of (cell : nat) (ops : list CounterOp) : nat :=
  match ops with
  | [] => 0
  | Call c :: ops' => (if Nat.eqb c cell then 1 else 0) + calls_of cell ops'
  | Make _ :: ops' => calls_of cell ops'
  end.

(** ** Elements and class lists *)

Inductive Exn : Type := TypeError | SyntaxError | InvalidCharacterError.

Inductive Completion (A : Type) : Type :=
  | Normal (a : A)
  | Throw (e : Exn).
Arguments Normal {A} a.
Arguments Throw {A} e.

#[export] Instance Completion_ret : MRet Completion := fun A a => Normal a.
#[export] Instance Completion_bind : MBind Completion :=
  fun A B k c => match c with Normal a => k a | Throw e => Throw e end.

(** An element: its class token set (an ordered set) and its other content
    attributes. *)
Record Element : Type := {
  classList : list jsstring;
  attributes : gmap jsstring jsstring
}.

Definition is_ascii_whitespace (c : code_unit) : bool :=
  ((c =? 9) || (c =? 10) || (c =? 12) || (c =? 13) || (c =? 32))%N.

(** The checks every [DOMTokenList] method applies to a token argument. *)
Definition validate_token (t : jsstring) : Completion unit :=
  match t with
  | [] => Throw SyntaxError
  | _ => if existsb is_ascii_whitespace t then Throw InvalidCharacterError
         else Normal ()
  end.

Fixpoint validate_tokens (ts : list jsstring) : Completion unit :=
  match ts with
  | [] => Normal ()
  | t :: ts' => _ ← validate_token t; validate_tokens ts'
  end.

Definition token_append (l : list jsstring) (t : jsstring) : list jsstring :=
  if bool_decide (t ∈ l) then l else l ++ [t].

Definition token_remove (l : list jsstring) (t : jsstring) : list jsstring :=
  filter (fun x => x ≠ t) l.

Definition with_classList (el : Element) (l : list jsstring) : Element :=
  {| classList := l; attributes := attributes el |}.

(** [el.classList.contains(token)] *)
Definition classList_contains (token : jsstring) (el : Element) : bool :=
  bool_decide (token ∈ classList el).

(** [el.classList.add(...tokens)] *)
Definition classList_add (tokens : list jsstring) (el : Element)
  : Completion Element :=
  _ ← validate_tokens tokens;
  Normal (with_classList el (foldl token_append (classList el) tokens)).

(** [el.classList.remove(...tokens)] *)
Definition classList_remove (tokens : list jsstring) (el : Element)
  : Completion Element :=
  _ ← validate_tokens tokens;
  Normal (with_classList el (foldl token_remove (classList el) tokens)).

(** [el.classList.toggle(token, force)]; [force = None] when the second
    argument is not given. *)
Definition classList_toggle (token : jsstring) (force : option bool)
  (el : Element) : Completion (bool * Element) :=
  _ ← validate_token token;
  if classList_contains token el then
    match force with
    | None | Some false =>
        Normal (false, with_classList el (token_remove (classList el) token))
    | Some true => Normal (true, el)
    end
  else
    match force with
    | None | Some true =>
        Normal (true, with_classList el (token_append (classList el) token))
    | Some false => Normal (false, el)
    end.

(** [el.setAttribute(name, value)] for a content attribute other than
    [class]. *)
Definition setAttribute (name value : jsstring) (el : Element) : Element :=
  {| classList := classList el;
     attributes := <[name := value]> (attributes el) |}.

(** [function toggleClass(el, className, force)].  [el = None] is a null
    (or undefined) reference; the result carries the element after the
    call. *)
Definition toggleClass (el : option Element) (className : jsstring)
  (force : JSValue) : Completion (bool * option Element) :=
  match el with
  | None => Normal (false, None)
  | Some e =>
      match force with
      | JBool b =>
          '(_, e') ← classList_toggle className (Some b) e;
          Normal (b, Some e')
      | _ =>
          '(_, e') ← classList_toggle className None e;
          Normal (classList_contains className e', Some e')
      end
  end.

(** ** The page *)

(** [const AppState = { animationRuns: 0, lastDurationMs: 900 }] *)
Record AppStateObj : Type := {
  animationRuns : Number;
  lastDurationMs : Number
}.

(** The document the script runs in: for each element the script looks up,
    whether it exists ([false] or [None]: the lookup returns null) and the
    part of its state the script reads or writes.  [flipBtnText] is the text
    content of [#flipBtn] (it means something only if the button exists).
    The text the listeners write into [#calcResult] and [#scopeOut] is not
    part of the model. *)
Record Document : Type := {
  calcBtn : bool;
  durationInput : option jsstring;
  scopeBtn : bool;
  animateBtn : bool;
  box : option Element;
  flipBtn : bool;
  flipBtnText : jsstring;
  jsFlipCard : option Element;
  startLoader : bool;
  stopLoader : bool;
  loader : option Element;
  modal : option Element;
  openModalBtn : bool;
  closeModalBtn : bool;
  backdrop : bool
}.

Definition with_durationInput (d : Document) (v : option jsstring) :=
  {| calcBtn := calcBtn d; durationInput := v; scopeBtn := scopeBtn d;
     animateBtn := animateBtn d; box := box d; flipBtn := flipBtn d;
     flipBtnText := flipBtnText d;
     jsFlipCard := jsFlipCard d; startLoader := startLoader d;
     stopLoader := stopLoader d; loader := loader d; modal := modal d;
     openModalBtn := openModalBtn d; closeModalBtn := closeModalBtn d;
     backdrop := backdrop d |}.

Definition with_box (d : Document) (e : option Element) :=
  {| calcBtn := calcBtn d; durationInput := durationInput d;
     scopeBtn := scopeBtn d; animateBtn := animateBtn d; box := e;
     flipBtn := flipBtn d; flipBtnText := flipBtnText d;
     jsFlipCard := jsFlipCard d;
     startLoader := startLoader d; stopLoader := stopLoader d;
     loader := loader d; modal := modal d; openModalBtn := openModalBtn d;
     closeModalBtn := closeModalBtn d; backdrop := backdrop d |}.

Definition with_jsFlipCard (d : Document) (e : option Element) :=
  {| calcBtn := calcBtn d; durationInput := durationInput d;
     scopeBtn := scopeBtn d; animateBtn := animateBtn d; box := box d;
     flipBtn := flipBtn d; flipBtnText := flipBtnText d; jsFlipCard := e;
     startLoader := startLoader d; stopLoader := stopLoader d;
     loader := loader d; modal := modal d; openModalBtn := openModalBtn d;
     closeModalBtn := closeModalBtn d; backdrop := backdrop d |}.

Definition with_flipBtnText (d : Document) (s : jsstring) :=
  {| calcBtn := calcBtn d; durationInput := durationInput d;
     scopeBtn := scopeBtn d; animateBtn := animateBtn d; box := box d;
     flipBtn := flipBtn d; flipBtnText := s; jsFlipCard := jsFlipCard d;
     startLoader := startLoader d; stopLoader := stopLoader d;
     loader := loader d; modal := modal d; openModalBtn := openModalBtn d;
     closeModalBtn := closeModalBtn d; backdrop := backdrop d |}.

Definition with_loader (d : Document) (e : option Element) :=
  {| calcBtn := calcBtn d; durationInput := durationInput d;
     scopeBtn := scopeBtn d; animateBtn := animateBtn d; box := box d;
     flipBtn := flipBtn d; flipBtnText := flipBtnText d;
     jsFlipCard := jsFlipCard d;
     startLoader := startLoader d; stopLoader := stopLoader d;
     loader := e; modal := modal d; openModalBtn := openModalBtn d;
     closeModalBtn := closeModalBtn d; backdrop := backdrop d |}.

Definition with_modal (d : Document) (e : option Element) :=
  {| calcBtn := calcBtn d; durationInput := durationInput d;
     scopeBtn := scopeBtn d; animateBtn := animateBtn d; box := box d;
     flipBtn := flipBtn d; flipBtnText := flipBtnText d;
     jsFlipCard := jsFlipCard d;
     startLoader := startLoader d; stopLoader := stopLoader d;
     loader := loader d; modal := e; openModalBtn := openModalBtn d;
     closeModalBtn := closeModalBtn d; backdrop := backdrop d |}.

(** The state of the running page: the module-scope object [AppState], the
    closure cells and the closure [incrementRuns], the document, the clock
    (in ms) and the pending [setTimeout] callbacks, as their due times in
    scheduling order.  The script schedules one callback only, the one in
    [closeModal].  [boxStyle] holds the assignments the script has made to
    [box.style], oldest first, each as the CSS property and the text
    assigned ([style.animationDuration] is the property
    [animation-duration]); what the engine makes of the text is not part of
    the model. *)
Record Page : Type := {
  AppState : AppStateObj;
  counters : list Number;
  incrementRuns : nat;
  doc : Document;
  boxStyle : list (jsstring * jsstring);
  now : N;
  timers : list N
}.

Definition with_AppState (p : Page) (a : AppStateObj) : Page :=
  {| AppState := a; counters := counters p; incrementRuns := incrementRuns p;
     doc := doc p; boxStyle := boxStyle p; now := now p;
     timers := timers p |}.

Definition with_counters (p : Page) (c : list Number) : Page :=
  {| AppState := AppState p; counters := c; incrementRuns := incrementRuns p;
     doc := doc p; boxStyle := boxStyle p; now := now p;
     timers := timers p |}.

Definition with_doc (p : Page) (d : Document) : Page :=
  {| AppState := AppState p; counters := counters p;
     incrementRuns := incrementRuns p; doc := d; boxStyle := boxStyle p;
     now := now p; timers := timers p |}.

Definition with_boxStyle (p : Page) (l : list (jsstring * jsstring)) : Page :=
  {| AppState := AppState p; counters := counters p;
     incrementRuns := incrementRuns p; doc := doc p; boxStyle := l;
     now := now p; timers := timers p |}.

Definition with_now (p : Page) (t : N) : Page :=
  {| AppState := AppState p; counters := counters p;
     incrementRuns := incrementRuns p; doc := doc p; boxStyle := boxStyle p;
     now := t; timers := timers p |}.

Definition with_timers (p : Page) (l : list N) : Page :=
  {| AppState := AppState p; counters := counters p;
     incrementRuns := incrementRuns p; doc := doc p; boxStyle := boxStyle p;
     now := now p; timers := l |}.

(** The top level of the script, run once when the page loads:
    [AppState] is created and [incrementRuns = makeCounter(AppState.animationRuns)]. *)
Definition load (d : Document) : Page :=
  let app := {| animationRuns := decimal2F false 0 0;
                lastDurationMs := decimal2F false 900 0 |} in
  let '(f, store) := makeCounter (Some (animationRuns app)) [] in
  {| AppState := app; counters := store; incrementRuns := f; doc := d;
     boxStyle := []; now := 0%N; timers := [] |}.

(** *** The modal *)

(** [function openModal()] *)
Definition openModal (p : Page) : Completion Page :=
  match modal (doc p) with
  | None => Throw TypeError
  | Some m =>
      m1 ← classList_remove [str "closing"] m;
      m2 ← classList_add [str "open"] m1;
      Normal (with_doc p (with_modal (doc p)
                (Some (setAttribute (str "aria-hidden") (str "false") m2))))
  end.

(** The callback [closeModal] passes to [setTimeout]. *)
Definition closeModal_timeout (p : Page) : Completion Page :=
  match modal (doc p) with
  | None => Throw TypeError
  | Some m =>
      m1 ← classList_remove [str "open"; str "closing"] m;
      Normal (with_doc p (with_modal (doc p)
                (Some (setAttribute (str "aria-hidden") (str "true") m1))))
  end.

(** [function closeModal()]: the callback is due 260 ms from now. *)
Definition closeModal (p : Page) : Completion Page :=
  match modal (doc p) with
  | None => Throw TypeError
  | Some m =>
      m1 ← classList_add [str "closing"] m;
      Normal (with_timers (with_doc p (with_modal (doc p) (Some m1)))
                (timers p ++ [(now p + 260)%N]))
  end.

(** *** Events *)

Inductive Target : Type :=
  | CalcBtn | ScopeBtn | AnimateBtn | FlipBtn | StartLoader | StopLoader
  | OpenModalBtn | CloseModalBtn | Backdrop.

(** What can happen to the page: a click on one of the elements the script
    listens on, a key press, the user editing the multiplier field, and time
    passing. *)
Inductive Event : Type :=
  | Click (t : Target)
  | KeyDown (key : jsstring)
  | Input (value : jsstring)
  | Elapse (ms : N).

(** The state a listener leaves behind, whether it returns or throws. *)
Definition settle (p : Page) (c : Completion Page) : Page :=
  match c with
  | Normal p' => p'
  | Throw _ => p
  end.

(** The click listener of [#calcBtn]. *)
Definition on_calc (p : Page) : Page :=
  match durationInput (doc p) with
  | None => p
  | Some localMultiplier =>
      let duration := computeDurationMs (JStr localMultiplier) in
      with_AppState p {| animationRuns := animationRuns (AppState p);
                         lastDurationMs := duration |}
  end.

(** The click listener of [#scopeBtn]: two calls of [incrementRuns]. *)
Definition on_scope (p : Page) : Page :=
  match inc (incrementRuns p) (counters p) with
  | Some (run1, store1) =>
      match inc (incrementRuns p) store1 with
      | Some (run2, store2) => with_counters p store2
      | None => with_counters p store1
      end
  | None => p
  end.

(** The click listener of [#animateBtn]: sets the duration and the easing
    in the inline style of [#box] and restarts its animation.  Without the
    box the first access to [box.style] throws. *)
Definition on_animate (p : Page) : Page :=
  match box (doc p) with
  | None => p
  | Some b =>
      let duration := lastDurationMs (AppState p) in
      let p1 := with_boxStyle p
                  (boxStyle p ++ [(str "animation-duration",
                                   msToSecondsString (JNum duration))]) in
      let p2 := with_boxStyle p1
                  (boxStyle p1 ++ [(str "--ease",
                                    str "cubic-bezier(.2,.8,.2,1)")]) in
      settle p2 (
        b1 ← classList_remove [str "run"] b;
        b2 ← classList_add [str "run"] b1;
        Normal (with_doc p2 (with_box (doc p2) (Some b2))))
  end.

(** The click listener of [#flipBtn]: toggles the card and writes the
    button's text. *)
Definition on_flip (p : Page) : Page :=
  settle p (
    '(isFlipped, card) ← toggleClass (jsFlipCard (doc p)) (str "is-flipped") JUndefined;
    Normal (with_doc p
              (with_flipBtnText (with_jsFlipCard (doc p) card)
                 (if isFlipped : bool then str "Unflip Card" else str "Flip Card")))).

(** The click listeners of [#startLoader] and [#stopLoader]. *)
Definition on_loader (force : bool) (p : Page) : Page :=
  settle p (
    '(_, l) ← toggleClass (loader (doc p)) (str "on") (JBool force);
    Normal (with_doc p (with_loader (doc p) l))).

(** The [keydown] listener of the document. *)
Definition on_keydown (key : jsstring) (p : Page) : Page :=
  if jsstring_eqb key (str "Escape") then
    match modal (doc p) with
    | None => p
    | Some m =>
        if classList_contains (str "open") m then settle p (closeModal p)
        else p
    end
  else p.

(** Time passes: the callbacks due by the new time run, in scheduling
    order. *)
Definition elapse (ms : N) (p : Page) : Page :=
  let t := (now p + ms)%N in
  let due := filter (fun x => (x <= t)%N) (timers p) in
  let rest := filter (fun x => ¬ (x <= t)%N) (timers p) in
  with_now
    (foldl (fun q _ => settle q (closeModal_timeout q)) (with_timers p rest) due)
    t.

(** A listener runs only if its element existed when the script looked it
    up. *)
Definition handle (ev : Event) (p : Page) : Page :=
  match ev with
  | Click CalcBtn => if calcBtn (doc p) then on_calc p else p
  | Click ScopeBtn => if scopeBtn (doc p) then on_scope p else p
  | Click AnimateBtn => if animateBtn (doc p) then on_animate p else p
  | Click FlipBtn => if flipBtn (doc p) then on_flip p else p
  | Click StartLoader => if startLoader (doc p) then on_loader true p else p
  | Click StopLoader => if stopLoader (doc p) then on_loader false p else p
  | Click OpenModalBtn =>
      if openModalBtn (doc p) then settle p (openModal p) else p
  | Click CloseModalBtn =>
      if closeModalBtn (doc p) then settle p (closeModal p) else p
  | Click Backdrop => if backdrop (doc p) then settle p (closeModal p) else p
  | KeyDown key => on_keydown key p
  | Input value =>
      match durationInput (doc p) with
      | Some _ => with_doc p (with_durationInput (doc p) (Some value))
      | None => p
      end
  | Elapse ms => elapse ms p
  end.

Definition run (evs : list Event) (p : Page) : Page :=
  foldl (fun q ev => handle ev q) p evs.

(** ** Definitions used by the statements and proofs *)

(** The Number [binary_round_aux] builds from a rounded mantissa and its
    exponent. *)
Definition finish (s : bool) (m e : Z) : Number :=
  match m with
  | Z0 => S754_zero s
  | Zpos p => if e <=? emax - prec then S754_finite s p e else S754_infinity s
  | Zneg _ => S754_nan
  end.

(** The values whose Numbers are binary64 values. *)
Definition valid_value (v : JSValue) : bool :=
  match v with
  | JNum x => valid_number x
  | _ => true
  end.

(** Follows the words of the specification's glossary: clamping restricts a
    value to a closed numeric interval. *)
Definition clamp_spec (value min max : Number) : Number :=
  if num_lt value min then min
  else if num_lt max value then max
  else value.

(** A Number between 0.25 and 4, in canonical form. *)
Definition in_clamp_range (c : Number) : Prop :=
  exists m e, c = S754_finite false m e
    /\ 2 ^ 52 <= Zpos m < 2 ^ 53
    /\ (-54 <= e <= -51 \/ (e = -50 /\ Zpos m = 2 ^ 52)).

(** The canonical form of a nonzero integer of magnitude [z <= 2^53]. *)
Definition int_float (s : bool) (z : Z) : Number :=
  S754_finite s (Z.to_pos (Z.shiftl z (53 - Zdigits2 z))) (Zdigits2 z - 53).

(** The integer a Number stands for, if it is one. *)
Definition Number_to_Z (x : Number) : option Z :=
  match x with
  | S754_zero _ => Some 0
  | S754_finite s m e =>
      if 0 <=? e then Some (cond_Zopp s (Zpos m * 2 ^ e))
      else if Zpos m mod 2 ^ (- e) =? 0
           then Some (cond_Zopp s (Zpos m / 2 ^ (- e)))
           else None
  | _ => None
  end.

(** A class name: a token the class list accepts. *)
Definition valid_token (t : jsstring) : bool :=
  match validate_token t with Normal _ => true | Throw _ => false end.

(** The modal is fully closed: neither [open] nor [closing], and hidden from
    assistive technology. *)
Definition fully_closed (p : Page) : bool :=
  match modal (doc p) with
  | Some m =>
      negb (classList_contains (str "open") m)
      && negb (classList_contains (str "closing") m)
      && bool_decide (attributes m !! str "aria-hidden" = Some (str "true"))
  | None => false
  end.

(** The modal is shown: [open], not [closing], and not hidden. *)
Definition shown (p : Page) : bool :=
  match modal (doc p) with
  | Some m =>
      negb (classList_contains (str "closing") m)
      && classList_contains (str "open") m
      && bool_decide (attributes m !! str "aria-hidden" = Some (str "false"))
  | None => false
  end.

(** The time that passes during a sequence of events. *)
Definition elapsed (evs : list Event) : N :=
  foldr (fun ev t => match ev with Elapse ms => (ms + t)%N | _ => t end) 0%N evs.

(** How long an event lasts. *)
Definition duration_of (ev : Event) : N :=
  match ev with Elapse ms => ms | _ => 0%N end.

(** One run of the callback of [closeModal]. *)
Definition timeout_step (q : Page) : Page := settle q (closeModal_timeout q).

(** What a page keeps when only its document changes and callbacks are
    added. *)
Record frame (p q : Page) : Prop := {
  frame_AppState : AppState q = AppState p;
  frame_counters : counters q = counters p;
  frame_incrementRuns : incrementRuns q = incrementRuns p;
  frame_now : now q = now p;
  frame_timers : forall t, t ∈ timers p -> t ∈ timers q;
  frame_modal : is_Some (modal (doc q)) <-> is_Some (modal (doc p))
}.

(** The listeners that leave [AppState] and the closure cells alone. *)
Definition dom_only (ev : Event) : bool :=
  match ev with
  | Click CalcBtn | Click ScopeBtn | Elapse _ => false
  | _ => true
  end.

(** Follows the words of the specification:
    round(900 x clamp(m, 0.25, 4)). *)
Definition duration_formula (m : Number) : Number :=
  Math_round (num_mul (decimal2F false 900 0)
    (clamp_spec m (decimal2F false 25 (-2)) (decimal2F false 4 0))).

(** A document with every element the script looks up. *)
Definition full_document : Document :=
  let el := {| classList := []; attributes := ∅ |} in
  {| calcBtn := true; durationInput := Some (str "1"); scopeBtn := true;
     animateBtn := true; box := Some el; flipBtn := true;
     flipBtnText := str "Flip Card"; jsFlipCard := Some el;
     startLoader := true; stopLoader := true; loader := Some el;
     modal := Some {| classList := [str "modal"];
                      attributes := {[ str "aria-hidden" := str "true" ]} |};
     openModalBtn := true; closeModalBtn := true; backdrop := true |}.

(** An element with one class, and a sequence of events lasting 159 ms. *)
Definition spinner : Element :=
  {| classList := [str "spinner"]; attributes := ∅ |}.

Definition sample_events : list Event :=
  [Elapse 100; Click OpenModalBtn; Click Backdrop; Elapse 59;
   KeyDown (str "Escape"); Input (str "3"); Click CalcBtn; Click ScopeBtn].

(** ** Definitions used by the further properties *)

(** The position of a Number that is not NaN in the order of [Math.min] and
    [Math.max]: its class (from -Infinity to +Infinity), the sign of a zero
    (-0 comes before +0), and exponent and mantissa, negated below zero. *)
Definition key_class (x : Number) : Z :=
  match x with
  | S754_infinity true => -2
  | S754_finite true _ _ => -1
  | S754_zero _ => 0
  | S754_finite false _ _ => 1
  | S754_infinity false => 2
  | S754_nan => 3
  end.

Definition key_zero (x : Number) : Z :=
  match x with S754_zero false => 1 | _ => 0 end.

Definition key_exp (x : Number) : Z :=
  match x with
  | S754_finite false _ e => e
  | S754_finite true _ e => - e
  | _ => 0
  end.

Definition key_man (x : Number) : Z :=
  match x with
  | S754_finite false m _ => Zpos m
  | S754_finite true m _ => - Zpos m
  | _ => 0
  end.

(** [x] comes before [y] in the order of [Math.min] and [Math.max]. *)
Definition before (x y : Number) : bool :=
  (key_class x <? key_class y)
  || ((key_class x =? key_class y)
      && ((key_zero x <? key_zero y)
          || ((key_zero x =? key_zero y)
              && ((key_exp x <? key_exp y)
                  || ((key_exp x =? key_exp y) && (key_man x <? key_man y)))))).

(** The elements the script looked up are the same in two documents. *)
Definition same_elements (d d' : Document) : Prop :=
  calcBtn d' = calcBtn d /\ scopeBtn d' = scopeBtn d
  /\ animateBtn d' = animateBtn d /\ flipBtn d' = flipBtn d
  /\ startLoader d' = startLoader d /\ stopLoader d' = stopLoader d
  /\ openModalBtn d' = openModalBtn d /\ closeModalBtn d' = closeModalBtn d
  /\ backdrop d' = backdrop d
  /\ (is_Some (durationInput d') <-> is_Some (durationInput d))
  /\ (is_Some (box d') <-> is_Some (box d))
  /\ (is_Some (jsFlipCard d') <-> is_Some (jsFlipCard d))
  /\ (is_Some (loader d') <-> is_Some (loader d))
  /\ (is_Some (modal d') <-> is_Some (modal d)).

(** The number of clicks on the scope button among the events. *)
Fixpoint scope_clicks (evs : list Event) : Z :=
  match evs with
  | [] => 0
  | Click ScopeBtn :: evs' => 1 + scope_clicks evs'
  | _ :: evs' => scope_clicks evs'
  end.

(** Every pending callback is due after now and at most 260 ms ahead. *)
Definition timers_bounded (p : Page) : Prop :=
  Forall (fun t => (now p < t <= now p + 260)%N) (timers p).

(** While the modal has the class [closing], a callback is pending. *)
Definition closing_has_callback (p : Page) : Prop :=
  forall m, modal (doc p) = Some m ->
    classList_contains (str "closing") m = true -> timers p <> [].

(** The modal of [full_document] once opened, and while it is closing. *)
Definition open_modal : Element :=
  {| classList := [str "modal"; str "open"];
     attributes := <[str "aria-hidden" := str "false"]>
                     {[ str "aria-hidden" := str "true" ]} |}.

Definition closing_modal : Element :=
  {| classList := [str "modal"; str "open"; str "closing"];
     attributes := <[str "aria-hidden" := str "false"]>
                     {[ str "aria-hidden" := str "true" ]} |}.

(** ** The form of a duration string *)

(** A number of hundredths of a second written as seconds with two
    decimals and the unit: [123] is [1.23s]. *)
Definition seconds_string (cs : Z) : jsstring :=
  decimal_digits (Z.to_N (cs / 100))
  ++ [46%N; (48 + Z.to_N ((cs / 10) mod 10))%N; (48 + Z.to_N (cs mod 10))%N; 115%N].

(** The hundredths shown for a duration of [n] ms, if the string has that
    form and is within half a hundredth of the duration. *)
Definition shown_hundredths (n : Z) : bool :=
  let cs := (n + 5) / 10 in
  let ok c :=
    bool_decide (msToSecondsString (JNum (Z2F n)) = seconds_string c)
    && (10 * c - n <=? 5) && (-5 <=? 10 * c - n) in
  ok cs || ok (cs - 1).

(** The text of the flip button fits the card: [Unflip Card] when the card
    has the class [is-flipped], [Flip Card] when it has not or there is no
    card. *)
Definition text_fits (d : Document) : Prop :=
  flipBtnText d
  = if match jsFlipCard d with
       | Some card => classList_contains (str "is-flipped") card
       | None => false
       end
    then str "Unflip Card" else str "Flip Card".

(** An assignment to the style of the box as the animate listener makes
    them: a duration in seconds with two decimals, or the easing. *)
Definition style_assignment_ok (a : jsstring * jsstring) : Prop :=
  (a.1 = str "animation-duration"
   /\ exists cs, 22 <= cs <= 360 /\ a.2 = seconds_string cs)
  \/ a = (str "--ease", str "cubic-bezier(.2,.8,.2,1)").

(** ** The duration as a function of the clamped multiplier *)

(** [V / 2^n] rounded to the nearest integer, a tie going to the even one
    ([1 <= n]). *)
Definition rne (V n : Z) : Z :=
  let q := V / 2 ^ n in
  let r := V mod 2 ^ n in
  if (2 ^ (n - 1) <? r) || ((r =? 2 ^ (n - 1)) && Z.odd q) then q + 1 else q.

(** [V] rounded to 53 significant bits. *)
Definition round53 (V : Z) : Z :=
  let n := Zdigits2 V - 53 in
  rne V n * 2 ^ n.

(** The product [900 * c] in units of [2^-97], for a positive finite [c]
    with an exponent from -54. *)
Definition scaled (c : Number) : Z :=
  match c with
  | S754_finite false m e => 900 * 2 ^ 43 * Zpos m * 2 ^ (e + 54)
  | _ => 0
  end.

(** The duration for a product of [V] units of [2^-97]: the product is
    rounded to a Number, and that to the nearest integer. *)
Definition duration_scaled (V : Z) : Z :=
  (2 * round53 V + 2 ^ 97) / 2 ^ 98.

(** ** Definitions for the listeners *)

(** The part of the page an event can change: one of the elements, or the
    state of the script ([AppState] and the closure cells). *)
Inductive Part : Type :=
  | DurationInput | Box | JsFlipCard | Loader | Modal | Script.

Definition part_of (ev : Event) : Part :=
  match ev with
  | Click CalcBtn | Click ScopeBtn => Script
  | Click AnimateBtn => Box
  | Click FlipBtn => JsFlipCard
  | Click StartLoader | Click StopLoader => Loader
  | Click OpenModalBtn | Click CloseModalBtn | Click Backdrop
  | KeyDown _ | Elapse _ => Modal
  | Input _ => DurationInput
  end.

(** A part of the page is the same in two states. *)
Definition part_unchanged (part : Part) (p q : Page) : Prop :=
  match part with
  | DurationInput => durationInput (doc q) = durationInput (doc p)
  | Box => box (doc q) = box (doc p) /\ boxStyle q = boxStyle p
  | JsFlipCard =>
      jsFlipCard (doc q) = jsFlipCard (doc p)
      /\ flipBtnText (doc q) = flipBtnText (doc p)
  | Loader => loader (doc q) = loader (doc p)
  | Modal => modal (doc q) = modal (doc p) /\ timers q = timers p
  | Script => AppState q = AppState p /\ counters q = counters p
  end.

(** The text of the field and the stored duration after the events, from
    those before: an edit replaces the text, a click on the calc button
    computes the duration from the text. *)
Definition calc_clicks (st : jsstring * Number) (evs : list Event)
  : jsstring * Number :=
  foldl (fun st ev =>
           match ev with
           | Click CalcBtn => (st.1, computeDurationMs (JStr st.1))
           | Input value => (value, st.2)
           | _ => st
           end) st evs.

(** Whether the loader is on after the events, when it was [on] before: the
    last click on one of its two buttons decides. *)
Definition loader_clicks (on : bool) (evs : list Event) : bool :=
  foldl (fun on ev =>
           match ev with
           | Click StartLoader => true
           | Click StopLoader => false
           | _ => on
           end) on evs.

(** The modal is exposed to assistive technology exactly when it has the
    class [open]. *)
Definition aria_consistent (m : Element) : Prop :=
  classList_contains (str "open") m = true
  <-> attributes m !! str "aria-hidden" = Some (str "false").

(** * Properties *)

(** ** Binary64 rounding *)

(** *** Digits and shifts *)

Lemma digits2_pos_size (p : positive) : digits2_pos p = Pos.size p.
Proof. induction p; simpl; congruence. Qed.

Lemma Zdigits2_log2 (m : Z) : 0 < m -> Zdigits2 m = Z.log2 m + 1.
Proof.
  destruct m as [|p|p]; try lia. intros _. simpl.
  rewrite digits2_pos_size. destruct p; simpl; lia.
Qed.

Lemma Zdigits2_bounds (m : Z) :
  0 < m -> 2 ^ (Zdigits2 m - 1) <= m < 2 ^ Zdigits2 m.
Proof.
  intros H. rewrite Zdigits2_log2 by done.
  replace (Z.log2 m + 1 - 1) with (Z.log2 m) by lia.
  apply Z.log2_spec. done.
Qed.

Lemma Zdigits2_unique (m d : Z) :
  0 < d -> 2 ^ (d - 1) <= m < 2 ^ d -> Zdigits2 m = d.
Proof.
  intros Hd H. assert (0 < m) by (pose proof (Z.pow_pos_nonneg 2 (d - 1)); lia).
  rewrite Zdigits2_log2 by done.
  rewrite (Z.log2_unique m (d - 1)); try lia.
  replace (Z.succ (d - 1)) with d by lia. done.
Qed.

Lemma Zdigits2_nonneg (m : Z) : 0 <= Zdigits2 m.
Proof. destruct m; simpl; lia. Qed.

Lemma Zdigits2_pos (m : Z) : 0 < m -> 0 < Zdigits2 m.
Proof. destruct m; simpl; lia. Qed.

Lemma iter_pos_iter {A} (f : A -> A) (p : positive) (x : A) :
  SpecFloat.iter_pos f p x = Pos.iter f x p.
Proof.
  revert x. induction p as [p IH|p IH|]; intros x; simpl; try done.
  - rewrite !IH. rewrite Pos.iter_swap. rewrite Pos.iter_swap. done.
  - rewrite !IH. done.
Qed.

Lemma shr_1_nonneg (m : Z) (r s : bool) :
  0 <= m ->
  shr_1 {| shr_m := m; shr_r := r; shr_s := s |}
  = {| shr_m := m / 2; shr_r := Z.odd m; shr_s := r || s |}.
Proof.
  intros H. destruct m as [|p|p]; try lia.
  - done.
  - destruct p as [p|p|]; simpl; f_equal.
    + apply (Z.div_unique_pos _ _ _ 1); lia.
    + apply (Z.div_unique_pos _ _ _ 0); lia.
Qed.

Lemma mod_pow2_succ (m k : Z) :
  0 <= k ->
  m mod 2 ^ (k + 1) = m mod 2 ^ k + 2 ^ k * Z.b2z (Z.testbit m k).
Proof.
  intros Hk. rewrite Z.pow_add_r by lia. change (2 ^ 1) with 2.
  rewrite Z.rem_mul_r by lia. f_equal. f_equal.
  rewrite <- Z.bit0_mod. f_equal. rewrite Z.div_pow2_bits by lia. done.
Qed.

Lemma mod_pow2_succ_eqb (m k : Z) :
  0 <= k ->
  (m mod 2 ^ (k + 1) =? 0) = (m mod 2 ^ k =? 0) && negb (Z.testbit m k).
Proof.
  intros Hk. rewrite mod_pow2_succ by done.
  pose proof (Z.mod_pos_bound m (2 ^ k)) as Hb.
  assert (0 < 2 ^ k) as Hp by (apply Z.pow_pos_nonneg; lia).
  specialize (Hb Hp).
  destruct (Z.testbit m k); simpl;
    destruct (Z.eqb_spec (m mod 2 ^ k) 0); simpl; lia.
Qed.

Lemma shr_iter (p : positive) (m : Z) (r s : bool) :
  0 <= m ->
  SpecFloat.iter_pos shr_1 p {| shr_m := m; shr_r := r; shr_s := s |}
  = {| shr_m := m / 2 ^ Zpos p;
       shr_r := Z.testbit m (Zpos p - 1);
       shr_s := r || s || negb (m mod 2 ^ (Zpos p - 1) =? 0) |}.
Proof.
  intros Hm. rewrite iter_pos_iter.
  induction p as [|p IH] using Pos.peano_ind.
  - cbn [Pos.iter]. rewrite shr_1_nonneg by done.
    change (Zpos 1 - 1) with 0. change (2 ^ 0) with 1. change (2 ^ 1) with 2.
    rewrite Z.mod_1_r. rewrite Z.bit0_odd. simpl. rewrite orb_false_r. done.
  - rewrite Pos.iter_succ. rewrite IH.
    rewrite shr_1_nonneg by (apply Z.div_pos; [done | apply Z.pow_pos_nonneg; lia]).
    rewrite Pos2Z.inj_succ.
    replace (Z.succ (Zpos p) - 1) with (Zpos p - 1 + 1) by lia.
    rewrite (mod_pow2_succ_eqb m (Zpos p - 1)) by lia.
    replace (Zpos p - 1 + 1) with (Zpos p) by lia.
    f_equal.
    + rewrite Z.pow_succ_r by lia. rewrite (Z.mul_comm 2).
      rewrite Z.div_div; lia.
    + rewrite <- Z.bit0_odd. rewrite Z.div_pow2_bits by lia. f_equal; lia.
    + destruct r, s, (Z.testbit m (Zpos p - 1)), (m mod 2 ^ (Zpos p - 1) =? 0); done.
Qed.

Lemma fexp_eq (e : Z) : fexp prec emax e = Z.max (e - 53) (-1074).
Proof. reflexivity. Qed.

Lemma shr_spec (m e n : Z) (l : location) :
  0 <= m -> 0 <= n ->
  exists r s,
    shr (shr_record_of_loc m l) e n
    = ({| shr_m := m / 2 ^ n; shr_r := r; shr_s := s |}, e + n)
    /\ (l = loc_Exact -> m mod 2 ^ n = 0 -> r = false /\ s = false).
Proof.
  intros Hm Hn.
  assert (exists r0 s0, shr_record_of_loc m l
            = {| shr_m := m; shr_r := r0; shr_s := s0 |}
            /\ (l = loc_Exact -> r0 = false /\ s0 = false)) as (r0 & s0 & -> & Hl).
  { destruct l as [|[]]; simpl; eauto 6; do 2 eexists; split; eauto; discriminate. }
  destruct n as [|p|p]; [| |lia].
  - exists r0, s0. simpl. rewrite Z.div_1_r, Z.add_0_r. split; [done|]. tauto.
  - unfold shr. rewrite shr_iter by done. do 2 eexists. split; [reflexivity|].
    intros Hex Hmod. destruct (Hl Hex) as [-> ->]. simpl.
    replace (Z.pos p) with (Z.pos p - 1 + 1) in Hmod by lia.
    apply Z.eqb_eq in Hmod. rewrite mod_pow2_succ_eqb in Hmod by lia.
    apply andb_true_iff in Hmod as [H1 H2]. rewrite H1.
    apply negb_true_iff in H2. done.
Qed.

Lemma round_nearest_even_bounds (m : Z) (r s : bool) :
  let m' := round_nearest_even m
              (loc_of_shr_record {| shr_m := m; shr_r := r; shr_s := s |}) in
  m <= m' <= m + 1 /\ (r = false -> s = false -> m' = m).
Proof.
  destruct r, s; simpl; try destruct (Z.even m); split; intros; try lia; done.
Qed.

Lemma pow2_pos (k : Z) : 0 <= k -> 0 < 2 ^ k.
Proof. intros. apply Z.pow_pos_nonneg; lia. Qed.

Lemma div_pow2_lt (m d n : Z) :
  0 <= n -> 0 <= d - n -> m < 2 ^ d -> m / 2 ^ n < 2 ^ (d - n).
Proof.
  intros Hn Hd Hm. apply Z.div_lt_upper_bound; [by apply pow2_pos|].
  rewrite <- Z.pow_add_r by lia. replace (n + (d - n)) with d by lia. done.
Qed.

Lemma div_pow2_ge (m d n : Z) :
  0 <= n -> 0 <= d - n -> 2 ^ d <= m -> 2 ^ (d - n) <= m / 2 ^ n.
Proof.
  intros Hn Hd Hm. apply Z.div_le_lower_bound; [by apply pow2_pos|].
  rewrite <- Z.pow_add_r by lia. replace (n + (d - n)) with d by lia. done.
Qed.

(** The result of [binary_round_aux], in closed form. *)
Lemma binary_round_aux_spec (s : bool) (mx ex : Z) (lx : location) :
  0 <= mx -> ex <= fexp prec emax (Zdigits2 mx + ex) ->
  let e1 := fexp prec emax (Zdigits2 mx + ex) in
  let m1 := mx / 2 ^ (e1 - ex) in
  exists m2 m3 e3,
    binary_round_aux prec emax s mx ex lx = finish s m3 e3
    /\ m1 <= m2 <= m1 + 1
    /\ (lx = loc_Exact -> mx mod 2 ^ (e1 - ex) = 0 -> m2 = m1)
    /\ ((m3 = m2 /\ e3 = e1 /\ m2 < 2 ^ 53) \/ (m2 = 2 ^ 53 /\ m3 = 2 ^ 52 /\ e3 = e1 + 1))
    /\ (m3 = 0 \/ (0 < m3 /\ fexp prec emax (Zdigits2 m3 + e3) = e3)).
Proof.
  intros Hmx Hex e1 m1. subst m1.
  set (n := e1 - ex). set (m1 := mx / 2 ^ n). assert (0 <= n) as Hn by (unfold n, e1; lia).
  assert (0 <= m1 < 2 ^ 53) as Hm1.
  { split; [apply Z.div_pos; [done | by apply pow2_pos]|].
    destruct (Z.eq_dec mx 0) as [->|Hnz]; [done|].
    pose proof (Zdigits2_bounds mx ltac:(lia)) as [_ Hub].
    pose proof (Zdigits2_pos mx ltac:(lia)) as HD.
    destruct (Z.le_gt_cases (Zdigits2 mx) n) as [Hle|Hgt].
    - assert (m1 = 0); [|lia]. apply Z.div_small. split; [done|].
      eapply Z.lt_le_trans; [exact Hub|]. apply Z.pow_le_mono_r; lia.
    - eapply Z.lt_le_trans; [apply (div_pow2_lt mx (Zdigits2 mx) n); try lia|].
      apply Z.pow_le_mono_r; [lia|]. unfold n, e1. rewrite fexp_eq. lia. }
  (* normal range: the quotient has exactly 53 digits *)
  assert (-1074 < e1 -> 2 ^ 52 <= m1) as Hnorm.
  { intros He1. unfold e1 in He1. rewrite fexp_eq in He1.
    assert (n = Zdigits2 mx - 53) as Hn' by (unfold n, e1; rewrite fexp_eq; lia).
    assert (0 < mx) as Hpos.
    { destruct (Z.eq_dec mx 0) as [->|]; [simpl in Hn'; lia | lia]. }
    pose proof (Zdigits2_bounds mx Hpos) as [Hlb _].
    replace 52 with (Zdigits2 mx - 1 - n) by lia.
    apply div_pow2_ge; lia. }
  unfold binary_round_aux, shr_fexp. fold e1. fold n.
  destruct (shr_spec mx ex n lx Hmx Hn) as (r & s0 & -> & Hloc).
  cbn [shr_m].
  pose proof (round_nearest_even_bounds (mx / 2 ^ n) r s0) as [Hb Hexact].
  fold m1 in Hb, Hexact |- *.
  set (m2 := round_nearest_even _ _) in *.
  replace (ex + n) with e1 by (unfold n; lia).
  set (n2 := fexp prec emax (Zdigits2 m2 + e1) - e1).
  assert (-1074 <= e1) as He1 by (unfold e1; rewrite fexp_eq; lia).
  exists m2.
  destruct (Z.eq_dec m2 (2 ^ 53)) as [Hcarry|Hno].
  - (* the mantissa overflowed to 2^53: one more shift *)
    assert (n2 = 1) as Hn2.
    { unfold n2. rewrite Hcarry. rewrite fexp_eq.
      change (Zdigits2 (2 ^ 53)) with 54. lia. }
    destruct (shr_spec m2 e1 n2 loc_Exact ltac:(lia) ltac:(lia)) as (r2 & s2 & -> & _).
    cbn [shr_m]. rewrite Hn2, Hcarry. change (2 ^ 53 / 2 ^ 1) with (2 ^ 52).
    exists (2 ^ 52), (e1 + 1). split_and!; [done|lia|lia| | |].
    + intros H1 H2. destruct (Hloc H1 H2) as [-> ->].
      specialize (Hexact eq_refl eq_refl). lia.
    + right. done.
    + right. split; [done|]. change (Zdigits2 (2 ^ 52)) with 53.
      rewrite fexp_eq. lia.
  - assert (m2 < 2 ^ 53) as Hlt by lia.
    assert (n2 = 0) as Hn2.
    { unfold n2. rewrite fexp_eq.
      destruct (Z.eq_dec m2 0) as [Hz|Hnz].
      - rewrite Hz. simpl Zdigits2.
        destruct (Z.le_gt_cases e1 (-1074)); [lia|].
        specialize (Hnorm ltac:(lia)). lia.
      - pose proof (Zdigits2_bounds m2 ltac:(lia)) as [Hlb Hub].
        assert (Zdigits2 m2 <= 53) as Hd2.
        { destruct (Z.le_gt_cases (Zdigits2 m2) 53); [done|].
          assert (2 ^ 53 <= 2 ^ (Zdigits2 m2 - 1)) by (apply Z.pow_le_mono_r; lia).
          lia. }
        destruct (Z.le_gt_cases e1 (-1074)); [lia|].
        specialize (Hnorm ltac:(lia)).
        assert (53 <= Zdigits2 m2); [|lia].
        destruct (Z.le_gt_cases 53 (Zdigits2 m2)); [done|].
        assert (2 ^ Zdigits2 m2 <= 2 ^ 52) by (apply Z.pow_le_mono_r; lia).
        lia. }
    destruct (shr_spec m2 e1 n2 loc_Exact ltac:(lia) ltac:(lia)) as (r2 & s2 & -> & _).
    cbn [shr_m]. rewrite Hn2. rewrite Z.div_1_r, Z.add_0_r.
    exists m2, e1. split_and!; [done|lia|lia| | |].
    + intros H1 H2. destruct (Hloc H1 H2) as [-> ->].
      specialize (Hexact eq_refl eq_refl). lia.
    + left. done.
    + destruct (Z.eq_dec m2 0); [left; done|right]. split; [lia|].
      unfold n2 in Hn2. lia.
Qed.

(** *** Rounded results are binary64 values *)

Lemma finish_valid (s : bool) (m e : Z) :
  m = 0 \/ (0 < m /\ fexp prec emax (Zdigits2 m + e) = e) ->
  valid_number (finish s m e) = true.
Proof.
  intros [->|[Hm He]]; [done|].
  destruct m as [|p|p]; try lia. unfold finish.
  destruct (Z.leb_spec e (emax - prec)) as [Hle|Hgt]; [|done].
  unfold valid_number, valid_binary, bounded, canonical_mantissa.
  simpl Zdigits2 in He. rewrite He, Z.eqb_refl. simpl.
  apply Z.leb_le. done.
Qed.

Lemma binary_round_aux_valid (s : bool) (mx ex : Z) (lx : location) :
  0 <= mx -> ex <= fexp prec emax (Zdigits2 mx + ex) ->
  valid_number (binary_round_aux prec emax s mx ex lx) = true.
Proof.
  intros Hmx Hex.
  destruct (binary_round_aux_spec s mx ex lx Hmx Hex)
    as (m2 & m3 & e3 & -> & _ & _ & _ & Hcanon).
  by apply finish_valid.
Qed.

Lemma iter_xO_spec (m d : positive) :
  Zpos (Pos.iter xO m d) = Zpos m * 2 ^ Zpos d.
Proof.
  induction d as [|d IH] using Pos.peano_ind.
  - simpl. lia.
  - rewrite Pos.iter_succ, Pos2Z.inj_xO, IH, Pos2Z.inj_succ.
    rewrite Z.pow_succ_r by lia. lia.
Qed.

Lemma Zdigits2_mul_pow2 (m k : Z) :
  0 < m -> 0 <= k -> Zdigits2 (m * 2 ^ k) = Zdigits2 m + k.
Proof.
  intros Hm Hk. pose proof (Zdigits2_bounds m Hm) as [Hlb Hub].
  pose proof (Zdigits2_pos m Hm).
  apply Zdigits2_unique; [lia|].
  replace (Zdigits2 m + k - 1) with (Zdigits2 m - 1 + k) by lia.
  rewrite !Z.pow_add_r by lia.
  pose proof (pow2_pos k Hk). split; nia.
Qed.

(** After aligning, the exponent is at most the canonical one. *)
Lemma shl_align_spec (mx : positive) (ex : Z) :
  let '(mz, ez) := shl_align mx ex (fexp prec emax (Zpos (digits2_pos mx) + ex)) in
  ez <= fexp prec emax (Zdigits2 (Zpos mz) + ez)
  /\ ez <= ex
  /\ Zpos mz = Zpos mx * 2 ^ (ex - ez).
Proof.
  unfold shl_align.
  set (e' := fexp prec emax (Zpos (digits2_pos mx) + ex)).
  destruct (e' - ex) as [|d|d] eqn:Hd.
  - simpl Zdigits2. fold e'. rewrite Z.sub_diag. lia.
  - simpl Zdigits2. fold e'. rewrite Z.sub_diag. lia.
  - rewrite iter_xO_spec. replace (ex - e') with (Zpos d) by lia.
    rewrite Zdigits2_mul_pow2 by lia. simpl Zdigits2.
    replace (Zpos (digits2_pos mx) + Zpos d + e') with (Zpos (digits2_pos mx) + ex) by lia.
    fold e'. lia.
Qed.

Lemma binary_round_valid (s : bool) (mx : positive) (ex : Z) :
  valid_number (binary_round prec emax s mx ex) = true.
Proof.
  unfold binary_round. pose proof (shl_align_spec mx ex) as H.
  destruct (shl_align _ _ _) as [mz ez]. destruct H as (H & _ & _).
  apply binary_round_aux_valid; [lia | done].
Qed.

Lemma binary_normalize_valid (m e : Z) (sz : bool) :
  valid_number (binary_normalize prec emax m e sz) = true.
Proof. destruct m; [done| |]; apply binary_round_valid. Qed.

Lemma Z2F_valid (z : Z) : valid_number (Z2F z) = true.
Proof. apply binary_normalize_valid. Qed.

Lemma SFdiv_finite_valid (sx sy : bool) (mx my : positive) (ex ey : Z) :
  valid_number (SFdiv prec emax (S754_finite sx mx ex) (S754_finite sy my ey)) = true.
Proof.
  unfold SFdiv, SFdiv_core_binary.
  set (d1 := Zdigits2 (Zpos mx)). set (d2 := Zdigits2 (Zpos my)).
  set (e' := Z.min (fexp prec emax (d1 + ex - (d2 + ey))) (ex - ey)).
  set (sh := ex - ey - e'). assert (0 <= sh) as Hsh by (unfold sh, e'; lia).
  assert (sh = ex - ey - e') as Hshe by done.
  assert (e' = Z.min (Z.max (d1 + ex - (d2 + ey) - 53) (-1074)) (ex - ey)) as He' by done.
  set (m' := match sh with Z0 => Zpos mx | Zpos _ => Z.shiftl (Zpos mx) sh | Zneg _ => 0 end).
  assert (m' = Zpos mx * 2 ^ sh) as Hm'.
  { unfold m'. destruct sh as [|p|p]; [simpl; lia | | lia].
    apply Z.shiftl_mul_pow2. lia. }
  pose proof (Z.div_eucl_eq m' (Zpos my) ltac:(lia)) as Heq.
  pose proof (Z.mod_pos_bound m' (Zpos my) ltac:(lia)) as Hr.
  unfold Z.modulo in Hr. destruct (Z.div_eucl m' (Zpos my)) as [q r].
  assert (0 <= q) as Hq by nia.
  apply binary_round_aux_valid; [done|].
  (* the quotient has enough digits *)
  destruct (Z.eq_dec q 0) as [->|Hq0].
  - simpl Zdigits2. rewrite Z.add_0_l.
    assert (m' < Zpos my) as Hlt by lia.
    pose proof (Zdigits2_bounds (Zpos mx) ltac:(lia)) as [Hlb1 _].
    pose proof (Zdigits2_bounds (Zpos my) ltac:(lia)) as [_ Hub2].
    fold d1 in Hlb1. fold d2 in Hub2.
    assert (2 ^ (d1 - 1 + sh) < 2 ^ d2) as Hpow.
    { rewrite Z.pow_add_r; [|unfold d1; simpl; lia|done].
      pose proof (pow2_pos sh Hsh). nia. }
    apply Z.pow_lt_mono_r_iff in Hpow; [|lia|unfold d2; simpl; lia].
    rewrite fexp_eq. lia.
  - pose proof (Zdigits2_bounds q ltac:(lia)) as [_ Hubq].
    pose proof (Zdigits2_bounds (Zpos mx) ltac:(lia)) as [Hlb1 _].
    pose proof (Zdigits2_bounds (Zpos my) ltac:(lia)) as [_ Hub2].
    fold d1 in Hlb1. fold d2 in Hub2.
    set (dq := Zdigits2 q) in *.
    assert (0 < dq) by (apply Zdigits2_pos; lia).
    (* 2^(d1-1+sh) <= m' < my * (q+1) < 2^d2 * 2^dq *)
    assert (2 ^ (d1 - 1 + sh) < 2 ^ (d2 + dq)) as Hpow.
    { rewrite !Z.pow_add_r; [|unfold d2; simpl; lia|lia|unfold d1; simpl; lia|done].
      pose proof (pow2_pos sh Hsh). pose proof (pow2_pos dq ltac:(lia)).
      pose proof (pow2_pos (d1 - 1) ltac:(unfold d1; simpl; lia)).
      nia. }
    apply Z.pow_lt_mono_r_iff in Hpow; [|lia|unfold d2; simpl; lia].
    rewrite fexp_eq. lia.
Qed.

Lemma ratio2F_valid (s : bool) (num den : positive) :
  valid_number (ratio2F s num den) = true.
Proof. apply SFdiv_finite_valid. Qed.

Lemma decimal2F_valid (s : bool) (digits : N) (E : Z) :
  valid_number (decimal2F s digits E) = true.
Proof.
  unfold decimal2F. destruct digits; [done|].
  destruct (0 <=? E); [apply binary_normalize_valid | apply ratio2F_valid].
Qed.

(** *** The Numbers of strings and values *)

Lemma parse_non_decimal_valid (b : N) (l : jsstring) :
  valid_number (parse_non_decimal b l) = true.
Proof.
  unfold parse_non_decimal. repeat case_match; try done. apply Z2F_valid.
Qed.

Lemma parse_unsigned_decimal_valid (s : bool) (l : jsstring) :
  valid_number (parse_unsigned_decimal s l) = true.
Proof.
  unfold parse_unsigned_decimal.
  repeat case_match; try done; apply decimal2F_valid.
Qed.

Lemma StringToNumber_valid (s : jsstring) : valid_number (StringToNumber s) = true.
Proof.
  unfold StringToNumber.
  repeat case_match; try done;
    auto using parse_non_decimal_valid, parse_unsigned_decimal_valid.
Qed.

Lemma ToNumber_valid (v : JSValue) :
  valid_value v = true -> valid_number (ToNumber v) = true.
Proof.
  destruct v as [| |[]|x|s]; simpl; try done. intros _. apply StringToNumber_valid.
Qed.

(** *** Clamping *)

(** The literals of the script. *)
Lemma lit_900 : decimal2F false 900 0 = S754_finite false 7916483719987200 (-43).
Proof. reflexivity. Qed.
Lemma lit_1 : decimal2F false 1 0 = S754_finite false 4503599627370496 (-52).
Proof. reflexivity. Qed.
Lemma lit_4 : decimal2F false 4 0 = S754_finite false 4503599627370496 (-50).
Proof. reflexivity. Qed.
Lemma lit_0_25 : decimal2F false 25 (-2) = S754_finite false 4503599627370496 (-54).
Proof. reflexivity. Qed.

(** Comparison of two positive finite Numbers. *)
Lemma SFltb_finite_pos (m1 m2 : positive) (e1 e2 : Z) :
  SFltb (S754_finite false m1 e1) (S754_finite false m2 e2)
  = (e1 <? e2) || ((e1 =? e2) && (Zpos m1 <? Zpos m2)).
Proof.
  unfold SFltb, SFcompare. rewrite Pos.compare_cont_spec. simpl.
  destruct (Z.compare_spec e1 e2) as [He|He|He].
  - subst. rewrite Z.ltb_irrefl, Z.eqb_refl. simpl.
    unfold Z.ltb. simpl. destruct (Pos.compare m1 m2); done.
  - apply Z.ltb_lt in He. rewrite He. done.
  - assert ((e1 <? e2) = false) as -> by (apply Z.ltb_ge; lia).
    assert ((e1 =? e2) = false) as -> by (apply Z.eqb_neq; lia). done.
Qed.

Ltac bool_to_prop H :=
  rewrite ?orb_true_iff, ?orb_false_iff, ?andb_true_iff, ?andb_false_iff,
    ?Z.ltb_lt, ?Z.ltb_ge, ?Z.eqb_eq, ?Z.eqb_neq in H.

Lemma clamp_is_clamp_spec (x : Number) :
  isNaN x = false ->
  clamp x (decimal2F false 25 (-2)) (decimal2F false 4 0)
  = clamp_spec x (decimal2F false 25 (-2)) (decimal2F false 4 0).
Proof.
  rewrite lit_0_25, lit_4. intros Hx.
  unfold clamp, clamp_spec, Math_max, Math_min.
  destruct x as [[]|[]| |[] m e]; try done.
  cbn -[num_lt]. unfold max_step, min_step, num_lt. cbn -[SFltb].
  change (SFltb (S754_finite false 4503599627370496 (-50)) (S754_infinity false))
    with true.
  change (SFltb (S754_infinity true) (S754_finite false 4503599627370496 (-54)))
    with true.
  cbn -[SFltb].
  set (lo := S754_finite false 4503599627370496 (-54)).
  set (hi := S754_finite false 4503599627370496 (-50)).
  set (x := S754_finite false m e).
  destruct (SFltb x hi) eqn:H1, (SFltb x lo) eqn:H2, (SFltb hi x) eqn:H3;
    cbn -[SFltb];
    try match goal with
    | |- context [SFltb lo ?y] => destruct (SFltb lo y) eqn:H4
    end;
    unfold x, lo, hi in *; rewrite ?SFltb_finite_pos in *;
    try bool_to_prop H1; try bool_to_prop H2; try bool_to_prop H3;
    try bool_to_prop H4; try done; try lia; f_equal; lia.
Qed.

Lemma valid_finite_normal (s : bool) (m : positive) (e : Z) :
  valid_number (S754_finite s m e) = true -> -1074 < e ->
  2 ^ 52 <= Zpos m < 2 ^ 53.
Proof.
  unfold valid_number, valid_binary, bounded, canonical_mantissa.
  intros H He. apply andb_true_iff in H as [H _]. apply Z.eqb_eq in H.
  rewrite fexp_eq in H.
  assert (Zdigits2 (Zpos m) = 53) as Hd by (simpl; lia).
  pose proof (Zdigits2_bounds (Zpos m) ltac:(lia)) as Hb. rewrite Hd in Hb.
  exact Hb.
Qed.

Lemma clamp_spec_range (x : Number) :
  valid_number x = true -> isNaN x = false ->
  in_clamp_range (clamp_spec x (decimal2F false 25 (-2)) (decimal2F false 4 0)).
Proof.
  rewrite lit_0_25, lit_4. intros Hv Hx. unfold clamp_spec, num_lt.
  assert (in_clamp_range (S754_finite false 4503599627370496 (-54))) as Hlo.
  { do 2 eexists. split; [done|]. lia. }
  assert (in_clamp_range (S754_finite false 4503599627370496 (-50))) as Hhi.
  { do 2 eexists. split; [done|]. lia. }
  destruct x as [[]|[]| |[] m e]; try done.
  rewrite !SFltb_finite_pos.
  destruct (Z.ltb_spec e (-54)); [done|].
  destruct (Z.eqb_spec e (-54)).
  - subst e. pose proof (valid_finite_normal _ _ _ Hv ltac:(lia)).
    destruct (Z.ltb_spec (Zpos m) 4503599627370496); [lia|]. cbn.
    exists m, (-54). split; [done|]. lia.
  - cbn [orb andb].
    pose proof (valid_finite_normal _ _ _ Hv ltac:(lia)).
    destruct (Z.ltb_spec (-50) e); [done|].
    destruct (Z.eqb_spec (-50) e).
    + subst e. destruct (Z.ltb_spec 4503599627370496 (Zpos m)); [done|]. cbn.
      exists m, (-50). split; [done|]. lia.
    + cbn. exists m, e. split; [done|]. lia.
Qed.

(** *** The range of the duration *)

Lemma round_half_bounds (m K lo hi : Z) :
  0 < K -> lo * K <= m <= hi * K ->
  lo <= (2 * m + K) / (2 * K) <= hi.
Proof.
  intros HK [Hlo Hhi]. split.
  - apply Z.div_le_lower_bound; nia.
  - apply Z.lt_succ_r. apply Z.div_lt_upper_bound; nia.
Qed.

(** Multiplying a Number of the clamp range by 900 and rounding gives an
    integer from 225 to 3600. *)
Lemma round_mul_900_range (c : Number) :
  in_clamp_range c ->
  exists n, 225 <= n <= 3600
    /\ Math_round (num_mul (decimal2F false 900 0) c) = Z2F n.
Proof.
  intros (m & e & -> & Hm & He). rewrite lit_900.
  unfold num_mul, SFmul. cbn [xorb].
  set (M := 7916483719987200%positive).
  rewrite Pos2Z.inj_mul.
  set (mx := Zpos M * Zpos m). set (ex := -43 + e).
  set (X := 43 - e).
  assert (225 * 2 ^ X <= mx <= 3600 * 2 ^ X) as Hmx.
  { unfold mx, X, M.
    destruct He as [He | [ -> Hm4 ] ].
    - assert (e = -54 \/ e = -53 \/ e = -52 \/ e = -51) as Hc by lia.
      destruct Hc as [ -> | [ -> | [ -> | -> ] ] ]; cbn; lia.
    - cbn. lia. }
  assert (2 ^ 104 <= mx < 2 ^ 106) as Hmx2 by (unfold mx, M; lia).
  set (D := Zdigits2 mx).
  assert (D = 105 \/ D = 106) as HD.
  { destruct (Z.lt_ge_cases mx (2 ^ 105)).
    - left. apply Zdigits2_unique; lia.
    - right. apply Zdigits2_unique; lia. }
  assert (ex <= fexp prec emax (Zdigits2 mx + ex)) as Hpre.
  { fold D. rewrite fexp_eq. lia. }
  destruct (binary_round_aux_spec false mx ex loc_Exact ltac:(lia) Hpre)
    as (m2 & m3 & e3 & -> & Hb & Hexact & Hshape & _).
  fold D in Hb, Hexact, Hshape.
  set (e1 := fexp prec emax (D + ex)) in *.
  set (n := e1 - ex) in *.
  assert (e1 = D + ex - 53) as He1 by (unfold e1; rewrite fexp_eq; lia).
  assert (0 <= n /\ 0 <= X - n /\ X = n + (X - n)) as (Hn & HXn & HX) by (unfold n, X, ex in *; lia).
  pose proof (pow2_pos n Hn) as Hpn. pose proof (pow2_pos (X - n) HXn) as Hpk.
  assert (2 ^ X = 2 ^ n * 2 ^ (X - n)) as Hsplit.
  { rewrite <- Z.pow_add_r by lia. f_equal. lia. }
  set (K := 2 ^ (X - n)) in *.
  (* the rounded mantissa stays between the two integers *)
  assert (225 * K <= m2 <= 3600 * K) as Hm2.
  { split.
    - assert (225 * K <= mx / 2 ^ n); [|lia].
      apply Z.div_le_lower_bound; [done|]. nia.
    - assert (mx / 2 ^ n <= 3600 * K) as Hup.
      { apply Z.div_le_upper_bound; [done|]. nia. }
      destruct (Z.eq_dec (mx / 2 ^ n) (3600 * K)) as [Heq|Hne]; [|lia].
      assert (mx = 2 ^ n * (3600 * K)) as Hmxeq.
      { pose proof (Z.mul_div_le mx (2 ^ n) Hpn). nia. }
      rewrite Hexact; [lia|done|].
      rewrite Hmxeq, Z.mul_comm. apply Z.mod_mul. lia. }
  assert (-e1 = X - n) as HK by (unfold n, X, ex in *; lia).
  assert (exists p, m3 = Zpos p /\ e3 < 0 /\ e3 <= emax - prec
            /\ 225 * 2 ^ (- e3) <= Zpos p <= 3600 * 2 ^ (- e3)) as (p & -> & He3 & He3' & Hp).
  { destruct Hshape as [(-> & -> & _)|(Hc & -> & ->)].
    - destruct m2 as [|p|p]; try lia. exists p. rewrite HK. fold K.
      unfold emax, prec. split_and!; try done; lia.
    - exists (2 ^ 52)%positive. 
      assert (X - n = 1 + (- (e1 + 1))) as Heq by lia.
      assert (K = 2 * 2 ^ (- (e1 + 1))) as HK2.
      { unfold K. rewrite Heq. rewrite Z.pow_add_r by lia. done. }
      unfold emax, prec. split_and!; try done; try lia. }
  unfold finish. apply Z.leb_le in He3'. rewrite He3'.
  unfold Math_round. destruct (Z.leb_spec 0 e3) as [|_]; [lia|].
  cbn [cond_Zopp].
  replace (1 - e3) with (1 + - e3) by lia. rewrite Z.pow_add_r by lia.
  change (2 ^ 1) with 2.
  pose proof (round_half_bounds (Zpos p) (2 ^ (- e3)) 225 3600
                (pow2_pos (- e3) ltac:(lia)) Hp) as Hn'.
  set (r := (2 * Zpos p + 2 ^ (- e3)) / (2 * 2 ^ (- e3))) in *.
  destruct (Z.eqb_spec r 0) as [|_]; [lia|].
  exists r. done.
Qed.

Lemma num_or_default_range (x : Number) :
  valid_number x = true ->
  valid_number (num_or x (decimal2F false 1 0)) = true
  /\ isNaN (num_or x (decimal2F false 1 0)) = false.
Proof.
  intros Hv. unfold num_or. destruct x as [[]|[]| |[] m e]; done.
Qed.

Lemma computeDurationMs_range (v : JSValue) :
  valid_value v = true ->
  exists n, 225 <= n <= 3600 /\ computeDurationMs v = Z2F n.
Proof.
  intros Hv. unfold computeDurationMs.
  destruct (num_or_default_range (ToNumber v) (ToNumber_valid v Hv)) as [Hv' Hn].
  rewrite clamp_is_clamp_spec by done.
  apply round_mul_900_range. by apply clamp_spec_range.
Qed.

(** *** Integers up to 2^53 *)

Lemma shl_align_fst (mx : positive) (ex ez : Z) :
  ez <= ex -> Zpos (fst (shl_align mx ex ez)) = Zpos mx * 2 ^ (ex - ez).
Proof.
  intros H. unfold shl_align. destruct (ez - ex) as [|d|d] eqn:Hd; try lia.
  - replace (ex - ez) with 0 by lia. simpl. lia.
  - simpl fst. rewrite iter_xO_spec. f_equal. f_equal. lia.
Qed.

Lemma shl_align_exp (mx : positive) (ex : Z) :
  snd (shl_align mx ex (fexp prec emax (Zpos (digits2_pos mx) + ex)))
  = Z.min ex (fexp prec emax (Zpos (digits2_pos mx) + ex)).
Proof.
  unfold shl_align.
  destruct (fexp prec emax (Zpos (digits2_pos mx) + ex) - ex) as [|d|d] eqn:Hd;
    simpl; lia.
Qed.

Lemma Zdigits2_le_54 (z : Z) : 0 < z <= 2 ^ 53 -> 1 <= Zdigits2 z <= 54.
Proof.
  intros Hz. pose proof (Zdigits2_bounds z ltac:(lia)) as [Hlb _].
  pose proof (Zdigits2_pos z ltac:(lia)).
  split; [lia|].
  destruct (Z.le_gt_cases (Zdigits2 z) 54); [done|].
  assert (2 ^ 54 <= 2 ^ (Zdigits2 z - 1)) by (apply Z.pow_le_mono_r; lia).
  lia.
Qed.

Lemma shiftl_canonical (z : Z) :
  0 < z <= 2 ^ 53 ->
  2 ^ 52 <= Z.shiftl z (53 - Zdigits2 z) < 2 ^ 53.
Proof.
  intros Hz. pose proof (Zdigits2_le_54 z Hz) as Hd.
  pose proof (Zdigits2_bounds z ltac:(lia)) as [Hlb Hub].
  destruct (Z.eq_dec (Zdigits2 z) 54) as [Heq|Hne].
  - rewrite Heq in *. assert (z = 2 ^ 53) as -> by lia. done.
  - rewrite Z.shiftl_mul_pow2 by lia.
    set (d := Zdigits2 z) in *.
    replace (2 ^ 52) with (2 ^ (d - 1) * 2 ^ (53 - d)).
    2:{ rewrite <- Z.pow_add_r by lia. f_equal. lia. }
    replace (2 ^ 53) with (2 ^ d * 2 ^ (53 - d)).
    2:{ rewrite <- Z.pow_add_r by lia. f_equal. lia. }
    pose proof (pow2_pos (53 - d) ltac:(lia)). nia.
Qed.

(** Rounding an integer of magnitude at most 2^53, given with any scaling,
    is exact. *)
Lemma binary_round_int (s : bool) (z k : Z) (mx : positive) :
  0 < z <= 2 ^ 53 -> 0 <= k -> Zpos mx = z * 2 ^ k ->
  binary_round prec emax s mx (- k) = int_float s z.
Proof.
  intros Hz Hk Hmx. unfold binary_round.
  pose proof (shl_align_spec mx (- k)) as Hal.
  pose proof (shl_align_exp mx (- k)) as Hexp.
  pose proof (Zdigits2_le_54 z Hz) as Hd.
  assert (Zpos (digits2_pos mx) = Zdigits2 z + k) as Hdm.
  { change (Zpos (digits2_pos mx)) with (Zdigits2 (Zpos mx)).
    rewrite Hmx. apply Zdigits2_mul_pow2; lia. }
  rewrite Hdm in Hal, Hexp |- *.
  replace (Zdigits2 z + k + - k) with (Zdigits2 z) in Hal, Hexp |- * by lia.
  set (d := Zdigits2 z) in *.
  assert (fexp prec emax d = d - 53) as Hfd by (rewrite fexp_eq; lia).
  rewrite Hfd in Hal, Hexp |- *.
  destruct (shl_align mx (- k) (d - 53)) as [mz ez]. simpl in Hexp.
  destruct Hal as (Hpre & Hle & Hmz).
  assert (Zdigits2 (Zpos mz) + ez = d) as Hdz.
  { rewrite Hmz, Hmx, <- Z.mul_assoc, <- Z.pow_add_r by lia.
    rewrite Zdigits2_mul_pow2 by lia. fold d. lia. }
  destruct (binary_round_aux_spec s (Zpos mz) ez loc_Exact ltac:(lia) Hpre)
    as (m2 & m3 & e3 & -> & Hb & Hexact & Hshape & _).
  rewrite Hdz, Hfd in Hb, Hexact, Hshape.
  assert (Zpos mz = z * 2 ^ (- ez)) as Hmz'.
  { rewrite Hmz, Hmx, <- Z.mul_assoc, <- Z.pow_add_r by lia. f_equal. f_equal. lia. }
  set (n := d - 53 - ez) in *. assert (0 <= n) by lia.
  pose proof (shiftl_canonical z Hz) as Hcan. fold d in Hcan.
  assert (Zpos mz / 2 ^ n = Z.shiftl z (53 - d) /\ Zpos mz mod 2 ^ n = 0) as [Hq Hr].
  { destruct (Z.eq_dec d 54) as [Heq|Hne].
    - pose proof (Zdigits2_bounds z ltac:(lia)) as [Hlb _]. fold d in Hlb.
      rewrite Heq in *. assert (z = 2 ^ 53) as Hz53 by lia.
      change (Z.shiftl z (53 - 54)) with (Z.shiftl z (-1)).
      rewrite Hz53 in *. change (Z.shiftl (2 ^ 53) (-1)) with (2 ^ 52).
      assert (Zpos mz = 2 ^ 52 * 2 ^ n) as ->.
      { rewrite Hmz'. replace (- ez) with (n - 1) by lia.
        replace (2 ^ 53) with (2 ^ 52 * 2 ^ 1) by done.
        rewrite <- Z.mul_assoc, <- Z.pow_add_r by lia. f_equal. f_equal. lia. }
      pose proof (pow2_pos n ltac:(lia)).
      split; [apply Z.div_mul; lia | apply Z.mod_mul; lia].
    - rewrite Z.shiftl_mul_pow2 by lia.
      assert (Zpos mz = z * 2 ^ (53 - d) * 2 ^ n) as ->.
      { rewrite Hmz', <- Z.mul_assoc, <- Z.pow_add_r by lia. f_equal. f_equal. lia. }
      pose proof (pow2_pos n ltac:(lia)).
      split; [apply Z.div_mul; lia | apply Z.mod_mul; lia]. }
  rewrite Hq in Hb. specialize (Hexact eq_refl Hr). rewrite Hq in Hexact.
  destruct Hshape as [(-> & -> & _)|(Hc & _ & _)]; [|lia].
  rewrite Hexact. unfold finish, int_float. fold d.
  destruct (Z.shiftl z (53 - d)) as [|p|p] eqn:Hsh; try lia.
  assert ((d - 53 <=? emax - prec) = true) as ->.
  { apply Z.leb_le. unfold emax, prec. lia. }
  done.
Qed.

Lemma Z2F_pos (z : Z) : 0 < z <= 2 ^ 53 -> Z2F z = int_float false z.
Proof.
  intros Hz. unfold Z2F, binary_normalize. destruct z as [|p|p]; try lia.
  apply (binary_round_int false (Zpos p) 0 p); [done|lia|lia].
Qed.

Lemma Z2F_neg (z : Z) : 0 < z <= 2 ^ 53 -> Z2F (- z) = int_float true z.
Proof.
  intros Hz. unfold Z2F, binary_normalize. destruct z as [|p|p]; try lia.
  simpl Z.opp. apply (binary_round_int true (Zpos p) 0 p); [done|lia|lia].
Qed.

Lemma Number_to_Z_int_float (s : bool) (z : Z) :
  0 < z <= 2 ^ 53 -> Number_to_Z (int_float s z) = Some (cond_Zopp s z).
Proof.
  intros Hz. pose proof (Zdigits2_le_54 z Hz) as Hd.
  pose proof (shiftl_canonical z Hz) as Hcan.
  unfold int_float, Number_to_Z. rewrite Z2Pos.id by lia.
  set (d := Zdigits2 z) in *.
  destruct (Z.leb_spec 0 (d - 53)) as [Hge|Hlt].
  - f_equal. f_equal.
    destruct (Z.eq_dec d 53) as [Heq|Hne].
    + rewrite Heq. change (53 - 53) with 0. rewrite Z.shiftl_0_r. simpl. lia.
    + assert (d = 54) as Hd54 by lia.
      pose proof (Zdigits2_bounds z ltac:(lia)) as [Hlb _]. fold d in Hlb.
      rewrite Hd54 in *. assert (z = 2 ^ 53) as Hz53 by lia.
      rewrite Hz53. done.
  - rewrite Z.shiftl_mul_pow2 by lia.
    replace (- (d - 53)) with (53 - d) by lia.
    pose proof (pow2_pos (53 - d) ltac:(lia)).
    rewrite Z.mod_mul by lia. rewrite Z.eqb_refl. rewrite Z.div_mul by lia. done.
Qed.

Lemma Number_to_Z_Z2F (z : Z) :
  - 2 ^ 53 <= z <= 2 ^ 53 -> Number_to_Z (Z2F z) = Some z.
Proof.
  intros Hz. destruct (Z.lt_trichotomy z 0) as [Hneg|[->|Hpos]].
  - replace z with (- - z) by lia. rewrite Z2F_neg by lia.
    rewrite Number_to_Z_int_float by lia. done.
  - done.
  - rewrite Z2F_pos by lia. rewrite Number_to_Z_int_float by lia. done.
Qed.

Lemma SFadd_finite (sx sy : bool) (mx my : positive) (ex ey : Z) :
  SFadd prec emax (S754_finite sx mx ex) (S754_finite sy my ey)
  = binary_normalize prec emax
      (cond_Zopp sx (Zpos mx * 2 ^ (ex - Z.min ex ey))
       + cond_Zopp sy (Zpos my * 2 ^ (ey - Z.min ex ey)))
      (Z.min ex ey) false.
Proof.
  unfold SFadd. rewrite !shl_align_fst by lia. done.
Qed.

Lemma int_float_scaled (z : Z) :
  0 < z <= 2 ^ 53 ->
  Zpos (Z.to_pos (Z.shiftl z (53 - Zdigits2 z))) * 2 ^ (Zdigits2 z - 1)
  = z * 2 ^ 52.
Proof.
  intros Hz. pose proof (Zdigits2_le_54 z Hz) as Hd.
  pose proof (shiftl_canonical z Hz) as Hcan.
  rewrite Z2Pos.id by lia.
  destruct (Z.eq_dec (Zdigits2 z) 54) as [Heq|Hne].
  - pose proof (Zdigits2_bounds z ltac:(lia)) as [Hlb _].
    rewrite Heq in *. assert (z = 2 ^ 53) as -> by lia. done.
  - rewrite Z.shiftl_mul_pow2 by lia.
    rewrite <- Z.mul_assoc, <- Z.pow_add_r by lia. f_equal. f_equal. lia.
Qed.

(** Adding 1 to an integer Number is exact as long as the result does not
    exceed 2^53 in magnitude. *)
Lemma num_add_one (a : Z) :
  - 2 ^ 53 <= a < 2 ^ 53 ->
  num_add (Z2F a) (decimal2F false 1 0) = Z2F (a + 1).
Proof.
  intros Ha. rewrite lit_1. unfold num_add.
  destruct (Z.lt_trichotomy a 0) as [Hneg|[->|Hpos]].
  - set (b := - a). assert (0 < b <= 2 ^ 53) as Hb by (unfold b; lia).
    replace a with (- b) by (unfold b; lia).
    rewrite Z2F_neg by done. unfold int_float. rewrite SFadd_finite.
    pose proof (Zdigits2_le_54 b Hb) as Hd.
    replace (Z.min (Zdigits2 b - 53) (-52)) with (-52) by lia.
    replace (Zdigits2 b - 53 - -52) with (Zdigits2 b - 1) by lia.
    rewrite int_float_scaled by done. cbn [cond_Zopp].
    change (-52 - -52) with 0. change (4503599627370496 * 2 ^ 0) with (2 ^ 52).
    destruct (Z.eq_dec b 1) as [->|Hb1]; [done|].
    replace (- (b * 2 ^ 52) + 2 ^ 52) with (- ((b - 1) * 2 ^ 52)) by lia.
    replace (- b + 1) with (- (b - 1)) by lia.
    rewrite Z2F_neg by lia.
    destruct ((b - 1) * 2 ^ 52) as [|p|p] eqn:Hp; try lia.
    simpl. apply (binary_round_int true (b - 1) 52 p); lia.
  - done.
  - rewrite Z2F_pos by lia. unfold int_float. rewrite SFadd_finite.
    pose proof (Zdigits2_le_54 a ltac:(lia)) as Hd.
    replace (Z.min (Zdigits2 a - 53) (-52)) with (-52) by lia.
    replace (Zdigits2 a - 53 - -52) with (Zdigits2 a - 1) by lia.
    rewrite int_float_scaled by lia. cbn [cond_Zopp].
    change (-52 - -52) with 0. change (4503599627370496 * 2 ^ 0) with (2 ^ 52).
    replace (a * 2 ^ 52 + 2 ^ 52) with ((a + 1) * 2 ^ 52) by lia.
    rewrite Z2F_pos by lia.
    destruct ((a + 1) * 2 ^ 52) as [|p|p] eqn:Hp; try lia.
    simpl. apply (binary_round_int false (a + 1) 52 p); lia.
Qed.

(** Beyond 2^53 adding 1 changes nothing. *)
Lemma num_add_one_stuck :
  num_add (Z2F (2 ^ 53)) (decimal2F false 1 0) = Z2F (2 ^ 53).
Proof. vm_compute. reflexivity. Qed.

Lemma SFltb_finite_neg (m1 m2 : positive) (e1 e2 : Z) :
  SFltb (S754_finite true m1 e1) (S754_finite true m2 e2)
  = (e2 <? e1) || ((e1 =? e2) && (Zpos m2 <? Zpos m1)).
Proof.
  unfold SFltb, SFcompare. rewrite Pos.compare_cont_spec. simpl.
  destruct (Z.compare_spec e1 e2) as [He|He|He].
  - subst. rewrite Z.ltb_irrefl, Z.eqb_refl. simpl.
    unfold Z.ltb. simpl. rewrite (Pos.compare_antisym m1 m2).
    destruct (Pos.compare m1 m2); done.
  - assert ((e2 <? e1) = false) as -> by (apply Z.ltb_ge; lia).
    assert ((e1 =? e2) = false) as -> by (apply Z.eqb_neq; lia). done.
  - apply Z.ltb_lt in He. rewrite He. done.
Qed.

Lemma Zdigits2_mono (a b : Z) : 0 < a <= b -> Zdigits2 a <= Zdigits2 b.
Proof.
  intros H. rewrite !Zdigits2_log2 by lia.
  pose proof (Z.log2_le_mono a b ltac:(lia)). lia.
Qed.

(** Among nonzero integers of magnitude at most 2^53, a smaller magnitude
    has a smaller exponent, or the same exponent and a smaller mantissa. *)
Lemma int_float_lt (a b : Z) :
  0 < a < b -> b <= 2 ^ 53 ->
  let da := Zdigits2 a in
  let db := Zdigits2 b in
  (da - 53 <? db - 53)
  || ((da - 53 =? db - 53)
      && (Zpos (Z.to_pos (Z.shiftl a (53 - da)))
          <? Zpos (Z.to_pos (Z.shiftl b (53 - db))))) = true.
Proof.
  intros Hab Hb da db.
  pose proof (Zdigits2_mono a b ltac:(lia)) as Hmono. fold da db in Hmono.
  destruct (Z.ltb_spec (da - 53) (db - 53)) as [|Hge]; [done|].
  assert (da = db) as Heq by lia. rewrite Heq, Z.eqb_refl. cbn [orb andb].
  pose proof (shiftl_canonical a ltac:(lia)) as Ha'.
  pose proof (shiftl_canonical b ltac:(lia)) as Hb'.
  fold da in Ha'. fold db in Hb'. rewrite Heq in Ha'.
  rewrite !Z2Pos.id by lia. apply Z.ltb_lt.
  pose proof (Zdigits2_le_54 a ltac:(lia)) as Hda. fold da in Hda.
  pose proof (Zdigits2_bounds a ltac:(lia)) as [Hlb _]. fold da in Hlb.
  assert (db <= 53) as Hd53.
  { destruct (Z.le_gt_cases db 53); [done|].
    assert (da = 54) as H54 by lia. rewrite H54 in Hlb.
    change (2 ^ (54 - 1)) with (2 ^ 53) in Hlb. lia. }
  rewrite !Z.shiftl_mul_pow2 by lia.
  pose proof (pow2_pos (53 - db) ltac:(lia)). nia.
Qed.

(** The order of the integer Numbers up to 2^53 is the order of the
    integers. *)
Lemma Z2F_lt (a b : Z) :
  - 2 ^ 53 <= a -> a < b -> b <= 2 ^ 53 -> num_lt (Z2F a) (Z2F b) = true.
Proof.
  intros Ha Hab Hb. unfold num_lt.
  destruct (Z.lt_trichotomy a 0) as [Han|[->|Hap]];
    destruct (Z.lt_trichotomy b 0) as [Hbn|[->|Hbp]]; try lia.
  - replace a with (- - a) by lia. replace b with (- - b) by lia.
    rewrite (Z2F_neg (- a)), (Z2F_neg (- b)) by lia.
    unfold int_float. rewrite SFltb_finite_neg.
    pose proof (int_float_lt (- b) (- a) ltac:(lia) ltac:(lia)) as H.
    cbv zeta in H.
    destruct (Z.ltb_spec (Zdigits2 (- b) - 53) (Zdigits2 (- a) - 53)); [done|].
    cbn [orb] in H |- *. apply andb_true_iff in H as [H1 H2].
    apply Z.eqb_eq in H1. rewrite H1, Z.eqb_refl, H2. done.
  - replace a with (- - a) by lia. rewrite (Z2F_neg (- a)) by lia. done.
  - replace a with (- - a) by lia.
    rewrite (Z2F_neg (- a)), (Z2F_pos b) by lia. done.
  - rewrite (Z2F_pos b) by lia. done.
  - rewrite (Z2F_pos a), (Z2F_pos b) by lia. unfold int_float. rewrite SFltb_finite_pos.
    apply (int_float_lt a b); lia.
Qed.

(** ** The class toggler *)

Lemma validate_token_Normal (t : jsstring) :
  valid_token t = true -> validate_token t = Normal ().
Proof. unfold valid_token. destruct (validate_token t) as [[]|]; done. Qed.

Lemma contains_iff (t : jsstring) (el : Element) :
  classList_contains t el = true <-> t ∈ classList el.
Proof. unfold classList_contains. apply bool_decide_eq_true. Qed.

Lemma elem_of_token_append (l : list jsstring) (t x : jsstring) :
  x ∈ token_append l t <-> x ∈ l \/ x = t.
Proof.
  unfold token_append. case_bool_decide as Hin.
  - split; [by left|]. intros [H| ->]; done.
  - rewrite elem_of_app, list_elem_of_singleton. done.
Qed.

Lemma elem_of_token_remove (l : list jsstring) (t x : jsstring) :
  x ∈ token_remove l t <-> x ∈ l /\ x ≠ t.
Proof. unfold token_remove. rewrite list_elem_of_filter. tauto. Qed.

Lemma token_remove_absent (l : list jsstring) (t : jsstring) :
  t ∉ l -> token_remove l t = l.
Proof.
  intros Hn. unfold token_remove. induction l as [|a l IH]; [done|].
  rewrite not_elem_of_cons in Hn. destruct Hn as [Hne Hn].
  rewrite filter_cons_True by done. f_equal. by apply IH.
Qed.

Lemma token_append_present (l : list jsstring) (t : jsstring) :
  t ∈ l -> token_append l t = l.
Proof. intros H. unfold token_append. by rewrite bool_decide_eq_true_2. Qed.

Lemma contains_with_classList (t : jsstring) (el : Element) (l : list jsstring) :
  classList_contains t (with_classList el l) = bool_decide (t ∈ l).
Proof. done. Qed.

(** What [classList.toggle] does with a valid token. *)
Lemma classList_toggle_spec (t : jsstring) (force : option bool) (el : Element) :
  valid_token t = true ->
  exists el',
    classList_toggle t force el
    = Normal (default (negb (classList_contains t el)) force, el')
    /\ classList_contains t el' = default (negb (classList_contains t el)) force
    /\ (forall t', t' ≠ t -> classList_contains t' el' = classList_contains t' el)
    /\ attributes el' = attributes el.
Proof.
  intros Hv. unfold classList_toggle. rewrite (validate_token_Normal t Hv).
  cbn [mbind Completion_bind].
  destruct (classList_contains t el) eqn:Hc.
  - apply contains_iff in Hc.
    destruct force as [[]|]; cbn [default negb]; eexists; (split; [reflexivity|]).
    + split_and!; try done. by apply contains_iff.
    + split_and!; try done.
      * rewrite contains_with_classList. apply bool_decide_eq_false.
        rewrite elem_of_token_remove. tauto.
      * intros t' Hne. rewrite contains_with_classList.
        unfold classList_contains. apply bool_decide_ext.
        rewrite elem_of_token_remove. tauto.
    + split_and!; try done.
      * rewrite contains_with_classList. apply bool_decide_eq_false.
        rewrite elem_of_token_remove. tauto.
      * intros t' Hne. rewrite contains_with_classList.
        unfold classList_contains. apply bool_decide_ext.
        rewrite elem_of_token_remove. tauto.
  - assert (t ∉ classList el) as Hn.
    { intros Hin. apply contains_iff in Hin. congruence. }
    destruct force as [[]|]; cbn [default negb]; eexists; (split; [reflexivity|]).
    + split_and!; try done.
      * rewrite contains_with_classList. apply bool_decide_eq_true.
        rewrite elem_of_token_append. tauto.
      * intros t' Hne. rewrite contains_with_classList.
        unfold classList_contains. apply bool_decide_ext.
        rewrite elem_of_token_append. tauto.
    + split_and!; try done.
    + split_and!; try done.
      * rewrite contains_with_classList. apply bool_decide_eq_true.
        rewrite elem_of_token_append. tauto.
      * intros t' Hne. rewrite contains_with_classList.
        unfold classList_contains. apply bool_decide_ext.
        rewrite elem_of_token_append. tauto.
Qed.

(** C3.  For a present element, a class name (a token the class list
    accepts: not empty, without white space) and a boolean [force],
    [toggleClass(el, className, force)] returns [force] and leaves the
    element with membership in the class equal to [force], whatever it was
    before; the other classes and the attributes are untouched. *)
Theorem toggleClass_forced (el : Element) (className : jsstring) (force : bool) :
  valid_token className = true ->
  exists el',
    toggleClass (Some el) className (JBool force) = Normal (force, Some el')
    /\ classList_contains className el' = force
    /\ (forall c, c ≠ className ->
          classList_contains c el' = classList_contains c el)
    /\ attributes el' = attributes el.
Proof.
  intros Hv.
  destruct (classList_toggle_spec className (Some force) el Hv)
    as (el' & Heq & Hc & Hframe & Hattr).
  exists el'. unfold toggleClass. rewrite Heq. done.
Qed.

Lemma toggleClass_forced_witness :
  valid_token (str "on") = true
  /\ exists el',
       toggleClass (Some spinner) (str "on") (JBool true) = Normal (true, Some el')
       /\ classList_contains (str "on") el' = true
       /\ (forall c, c ≠ str "on" ->
             classList_contains c el' = classList_contains c spinner)
       /\ attributes el' = attributes spinner.
Proof.
  split; [reflexivity|].
  apply (toggleClass_forced spinner (str "on") true). reflexivity.
Defined.

(** C8.  For a present element and a class name, [toggleClass] without a
    [force] argument flips the membership and returns the membership after
    the flip; a second such call returns the original membership and
    restores the membership of every class. *)
Theorem toggleClass_flip (el : Element) (className : jsstring) :
  valid_token className = true ->
  exists el1 el2,
    toggleClass (Some el) className JUndefined
    = Normal (negb (classList_contains className el), Some el1)
    /\ classList_contains className el1 = negb (classList_contains className el)
    /\ toggleClass (Some el1) className JUndefined
       = Normal (classList_contains className el, Some el2)
    /\ (forall c, classList_contains c el2 = classList_contains c el).
Proof.
  intros Hv.
  destruct (classList_toggle_spec className None el Hv)
    as (el1 & Heq1 & Hc1 & Hframe1 & _).
  destruct (classList_toggle_spec className None el1 Hv)
    as (el2 & Heq2 & Hc2 & Hframe2 & _).
  cbn [default] in *.
  exists el1, el2. unfold toggleClass. rewrite Heq1, Heq2.
  cbn [mbind Completion_bind]. rewrite Hc1, Hc2, Hc1, negb_involutive.
  split_and!; try done.
  intros c. destruct (decide (c = className)) as [->|Hne].
  - rewrite Hc2, Hc1. apply negb_involutive.
  - rewrite Hframe2, Hframe1 by done. done.
Qed.

Lemma toggleClass_flip_witness :
  valid_token (str "is-flipped") = true
  /\ exists el1 el2,
       toggleClass (Some spinner) (str "is-flipped") JUndefined
       = Normal (negb (classList_contains (str "is-flipped") spinner), Some el1)
       /\ classList_contains (str "is-flipped") el1
          = negb (classList_contains (str "is-flipped") spinner)
       /\ toggleClass (Some el1) (str "is-flipped") JUndefined
          = Normal (classList_contains (str "is-flipped") spinner, Some el2)
       /\ (forall c, classList_contains c el2 = classList_contains c spinner).
Proof.
  split; [reflexivity|].
  apply (toggleClass_flip spinner (str "is-flipped")). reflexivity.
Defined.

(** C9.  With an absent element [toggleClass] returns [false] and there is
    still no element, for every class name (valid or not) and every
    [force]. *)
Theorem toggleClass_absent (className : jsstring) (force : JSValue) :
  toggleClass None className force = Normal (false, None).
Proof. reflexivity. Qed.

(** ** The modal *)

Lemma classList_add_valid (ts : list jsstring) (el : Element) :
  validate_tokens ts = Normal () ->
  classList_add ts el
  = Normal (with_classList el (foldl token_append (classList el) ts)).
Proof. intros H. unfold classList_add. rewrite H. done. Qed.

Lemma classList_remove_valid (ts : list jsstring) (el : Element) :
  validate_tokens ts = Normal () ->
  classList_remove ts el
  = Normal (with_classList el (foldl token_remove (classList el) ts)).
Proof. intros H. unfold classList_remove. rewrite H. done. Qed.

Lemma openModal_eq (p : Page) (m : Element) :
  modal (doc p) = Some m ->
  openModal p
  = Normal (with_doc p (with_modal (doc p) (Some
      {| classList := token_append (token_remove (classList m) (str "closing")) (str "open");
         attributes := <[str "aria-hidden" := str "false"]> (attributes m) |}))).
Proof.
  intros Hm. unfold openModal. rewrite Hm.
  rewrite classList_remove_valid by reflexivity. cbn [mbind Completion_bind].
  rewrite classList_add_valid by reflexivity. done.
Qed.

Lemma closeModal_timeout_eq (p : Page) (m : Element) :
  modal (doc p) = Some m ->
  closeModal_timeout p
  = Normal (with_doc p (with_modal (doc p) (Some
      {| classList := token_remove (token_remove (classList m) (str "open")) (str "closing");
         attributes := <[str "aria-hidden" := str "true"]> (attributes m) |}))).
Proof.
  intros Hm. unfold closeModal_timeout. rewrite Hm.
  rewrite classList_remove_valid by reflexivity. done.
Qed.

Lemma closeModal_eq (p : Page) (m : Element) :
  modal (doc p) = Some m ->
  closeModal p
  = Normal (with_timers
      (with_doc p (with_modal (doc p) (Some
        {| classList := token_append (classList m) (str "closing");
           attributes := attributes m |})))
      (timers p ++ [(now p + 260)%N])).
Proof.
  intros Hm. unfold closeModal. rewrite Hm.
  rewrite classList_add_valid by reflexivity. done.
Qed.

(** C7.  With the modal present, [openModal] returns at once with the modal
    shown (no [closing], [open], [aria-hidden="false"]), schedules nothing and
    lets no time pass; calling it again leaves the page exactly as it is. *)
Theorem openModal_idempotent (p : Page) (m : Element) :
  modal (doc p) = Some m ->
  exists p1,
    openModal p = Normal p1
    /\ openModal p1 = Normal p1
    /\ shown p1 = true
    /\ now p1 = now p /\ timers p1 = timers p
    /\ AppState p1 = AppState p /\ counters p1 = counters p.
Proof.
  intros Hm. rewrite (openModal_eq p m Hm).
  eexists. split; [reflexivity|].
  set (l1 := token_append (token_remove (classList m) (str "closing")) (str "open")).
  assert (str "open" ∈ l1) as Hopen.
  { unfold l1. rewrite elem_of_token_append. by right. }
  assert (str "closing" ∉ l1) as Hclosing.
  { unfold l1. rewrite elem_of_token_append, elem_of_token_remove.
    intros [[_ H]|H]; [done | discriminate H]. }
  split_and!; try done.
  - erewrite openModal_eq by reflexivity. cbn [classList attributes].
    rewrite token_remove_absent by done.
    rewrite token_append_present by done.
    rewrite insert_insert_eq. done.
  - unfold shown, classList_contains.
    cbn [doc with_doc modal with_modal classList attributes]. fold l1.
    rewrite (bool_decide_eq_false_2 (str "closing" ∈ l1)) by done.
    rewrite (bool_decide_eq_true_2 (str "open" ∈ l1)) by done.
    rewrite lookup_insert_eq. done.
Qed.

Lemma openModal_idempotent_witness :
  modal (doc (load full_document))
  = Some {| classList := [str "modal"];
            attributes := {[ str "aria-hidden" := str "true" ]} |}
  /\ exists p1,
       openModal (load full_document) = Normal p1
       /\ openModal p1 = Normal p1
       /\ shown p1 = true
       /\ now p1 = now (load full_document)
       /\ timers p1 = timers (load full_document)
       /\ AppState p1 = AppState (load full_document)
       /\ counters p1 = counters (load full_document).
Proof.
  split; [reflexivity|].
  apply (openModal_idempotent (load full_document)
           {| classList := [str "modal"];
              attributes := {[ str "aria-hidden" := str "true" ]} |}).
  reflexivity.
Defined.

(** ** Events *)

Lemma settle_openModal (p : Page) :
  settle p (openModal p) = p
  \/ exists m, modal (doc p) = Some m
       /\ settle p (openModal p) = with_doc p (with_modal (doc p) (Some
            {| classList := token_append (token_remove (classList m) (str "closing")) (str "open");
               attributes := <[str "aria-hidden" := str "false"]> (attributes m) |})).
Proof.
  destruct (modal (doc p)) as [m|] eqn:Hm.
  - right. exists m. split; [done|]. by rewrite (openModal_eq p m Hm).
  - left. unfold openModal. by rewrite Hm.
Qed.

Lemma settle_closeModal (p : Page) :
  settle p (closeModal p) = p
  \/ exists m, modal (doc p) = Some m
       /\ settle p (closeModal p) = with_timers
            (with_doc p (with_modal (doc p) (Some
              {| classList := token_append (classList m) (str "closing");
                 attributes := attributes m |})))
            (timers p ++ [(now p + 260)%N]).
Proof.
  destruct (modal (doc p)) as [m|] eqn:Hm.
  - right. exists m. split; [done|]. by rewrite (closeModal_eq p m Hm).
  - left. unfold closeModal. by rewrite Hm.
Qed.

Lemma timeout_step_cases (p : Page) :
  (modal (doc p) = None /\ timeout_step p = p)
  \/ exists m, modal (doc p) = Some m
       /\ timeout_step p = with_doc p (with_modal (doc p) (Some
            {| classList := token_remove (token_remove (classList m) (str "open")) (str "closing");
               attributes := <[str "aria-hidden" := str "true"]> (attributes m) |})).
Proof.
  unfold timeout_step. destruct (modal (doc p)) as [m|] eqn:Hm.
  - right. exists m. split; [done|]. by rewrite (closeModal_timeout_eq p m Hm).
  - left. unfold closeModal_timeout. by rewrite Hm.
Qed.

Lemma frame_refl (p : Page) : frame p p.
Proof. by split. Qed.

Lemma frame_with_doc (p : Page) (d : Document) :
  (is_Some (modal d) <-> is_Some (modal (doc p))) -> frame p (with_doc p d).
Proof. intros H. by split. Qed.

Lemma frame_openModal (p : Page) : frame p (settle p (openModal p)).
Proof.
  destruct (settle_openModal p) as [->|(m & Hm & ->)]; [apply frame_refl|].
  apply frame_with_doc. cbn. rewrite Hm. split; eauto.
Qed.

Lemma frame_closeModal (p : Page) : frame p (settle p (closeModal p)).
Proof.
  destruct (settle_closeModal p) as [->|(m & Hm & ->)]; [apply frame_refl|].
  split; cbn; rewrite ?Hm; try done.
  intros t Ht. apply elem_of_app. by left.
Qed.

Lemma frame_timeout_step (p : Page) :
  frame p (timeout_step p) /\ timers (timeout_step p) = timers p.
Proof.
  destruct (timeout_step_cases p) as [[_ ->]|(m & Hm & ->)];
    [split; [apply frame_refl | done]|].
  split; [|done]. apply frame_with_doc. cbn. rewrite Hm. split; eauto.
Qed.

Lemma frame_on_flip (p : Page) : frame p (on_flip p).
Proof.
  unfold on_flip.
  destruct (toggleClass _ _ _) as [[b c]|]; cbn; [|apply frame_refl].
  by apply frame_with_doc.
Qed.

Lemma frame_on_loader (b : bool) (p : Page) : frame p (on_loader b p).
Proof.
  unfold on_loader.
  destruct (toggleClass _ _ _) as [[b' c]|]; cbn; [|apply frame_refl].
  by apply frame_with_doc.
Qed.

Lemma frame_on_animate (p : Page) : frame p (on_animate p).
Proof.
  unfold on_animate. destruct (box (doc p)) as [b|]; [|apply frame_refl].
  cbv zeta.
  destruct (classList_remove [str "run"] b) as [b1|];
    cbn [mbind Completion_bind settle]; [|by split].
  destruct (classList_add [str "run"] b1) as [b2|];
    cbn [mbind Completion_bind settle]; by split.
Qed.

Lemma frame_on_keydown (key : jsstring) (p : Page) : frame p (on_keydown key p).
Proof.
  unfold on_keydown. repeat case_match; try apply frame_refl.
  apply frame_closeModal.
Qed.

Create HintDb frame discriminated.
#[local] Hint Resolve frame_refl frame_openModal frame_closeModal
  frame_on_flip frame_on_loader frame_on_animate frame_on_keydown : frame.

Lemma frame_handle (ev : Event) (p : Page) :
  dom_only ev = true -> frame p (handle ev p).
Proof.
  destruct ev as [[]|key|value|ms]; try done; intros _; cbn [handle];
    repeat match goal with
    | |- frame _ (match ?b with _ => _ end) => destruct b
    end; auto with frame.
  by apply frame_with_doc.
Qed.

Lemma frame_trans (p q r : Page) : frame p q -> frame q r -> frame p r.
Proof.
  intros [] []. split; try congruence; [auto|]. etrans; done.
Qed.

Lemma frame_timeout_steps {A} (l : list A) (q : Page) :
  frame q (foldl (fun q _ => timeout_step q) q l)
  /\ timers (foldl (fun q _ => timeout_step q) q l) = timers q.
Proof.
  revert q. induction l as [|x l IH]; intros q; cbn [foldl].
  - split; [apply frame_refl | done].
  - destruct (frame_timeout_step q) as [Hf Ht].
    destruct (IH (timeout_step q)) as [Hf' Ht'].
    split; [by eapply frame_trans | congruence].
Qed.

(** *** The pending callback of [closeModal] *)

Lemma timeout_step_closed (q : Page) :
  is_Some (modal (doc q)) -> fully_closed (timeout_step q) = true.
Proof.
  intros [m Hm].
  destruct (timeout_step_cases q) as [[Hn _]|(m' & Hm' & ->)]; [congruence|].
  unfold fully_closed, classList_contains.
  cbn [doc with_doc modal with_modal classList attributes].
  rewrite lookup_insert_eq.
  set (l := token_remove (token_remove (classList m') (str "open")) (str "closing")).
  rewrite (bool_decide_eq_false_2 (str "open" ∈ l)).
  2:{ unfold l. rewrite !elem_of_token_remove. tauto. }
  rewrite (bool_decide_eq_false_2 (str "closing" ∈ l)).
  2:{ unfold l. rewrite !elem_of_token_remove. tauto. }
  done.
Qed.

Lemma fully_closed_present (q : Page) :
  fully_closed q = true -> is_Some (modal (doc q)).
Proof. unfold fully_closed. destruct (modal (doc q)); [eauto | done]. Qed.

Lemma timeout_steps_closed {A} (l : list A) (q : Page) :
  fully_closed q = true ->
  fully_closed (foldl (fun q _ => timeout_step q) q l) = true.
Proof.
  revert q. induction l as [|x l IH]; intros q Hq; cbn [foldl]; [done|].
  apply IH. apply timeout_step_closed. by apply fully_closed_present.
Qed.

Lemma elapse_eq (ms : N) (p : Page) :
  elapse ms p
  = with_now
      (foldl (fun q _ => timeout_step q)
         (with_timers p (filter (fun x => ¬ (x <= now p + ms)%N) (timers p)))
         (filter (fun x => (x <= now p + ms)%N) (timers p)))
      (now p + ms)%N.
Proof. reflexivity. Qed.

(** What every event preserves. *)
Lemma handle_now (ev : Event) (p : Page) :
  now (handle ev p) = (now p + duration_of ev)%N.
Proof.
  destruct (dom_only ev) eqn:Hd.
  - rewrite (frame_now _ _ (frame_handle ev p Hd)).
    destruct ev as [[]| | |]; try done; cbn; lia.
  - destruct ev as [[]| | |]; try done; cbn [handle duration_of].
    + destruct (calcBtn (doc p)); unfold on_calc; repeat case_match; cbn; lia.
    + destruct (scopeBtn (doc p)); unfold on_scope; repeat case_match; cbn; lia.
Qed.

Lemma handle_modal (ev : Event) (p : Page) :
  is_Some (modal (doc (handle ev p))) <-> is_Some (modal (doc p)).
Proof.
  destruct (dom_only ev) eqn:Hd.
  - apply (frame_modal _ _ (frame_handle ev p Hd)).
  - destruct ev as [[]| | |]; try done; cbn [handle].
    + destruct (calcBtn (doc p)); unfold on_calc; repeat case_match; done.
    + destruct (scopeBtn (doc p)); unfold on_scope; repeat case_match; done.
    + rewrite elapse_eq. cbn [doc with_now].
      pose proof (frame_timeout_steps
        (filter (fun x => (x <= now p + ms)%N) (timers p))
        (with_timers p (filter (fun x => ¬ (x <= now p + ms)%N) (timers p))))
        as [Hf _].
      apply (frame_modal _ _ Hf).
Qed.

Lemma handle_timers (ev : Event) (p : Page) (t : N) :
  t ∈ timers p -> (now p + duration_of ev < t)%N -> t ∈ timers (handle ev p).
Proof.
  intros Ht Hlt. destruct (dom_only ev) eqn:Hd.
  - by apply (frame_timers _ _ (frame_handle ev p Hd)).
  - destruct ev as [[]| | |]; try done; cbn [handle].
    + destruct (calcBtn (doc p)); unfold on_calc; repeat case_match; done.
    + destruct (scopeBtn (doc p)); unfold on_scope; repeat case_match; done.
    + rewrite elapse_eq. cbn [timers with_now].
      pose proof (frame_timeout_steps
        (filter (fun x => (x <= now p + ms)%N) (timers p))
        (with_timers p (filter (fun x => ¬ (x <= now p + ms)%N) (timers p))))
        as [_ ->].
      cbn [timers with_timers]. apply list_elem_of_filter. cbn in Hlt.
      split; [lia | done].
Qed.

Lemma handle_AppState (ev : Event) (p : Page) :
  AppState (handle ev p) = AppState p
  \/ exists s, AppState (handle ev p)
       = {| animationRuns := animationRuns (AppState p);
            lastDurationMs := computeDurationMs (JStr s) |}.
Proof.
  destruct (dom_only ev) eqn:Hd.
  - left. apply (frame_AppState _ _ (frame_handle ev p Hd)).
  - destruct ev as [[]| | |]; try done; cbn [handle].
    + destruct (calcBtn (doc p)); [|by left]. unfold on_calc.
      destruct (durationInput (doc p)) as [s|]; [|by left]. right. by exists s.
    + left. destruct (scopeBtn (doc p)); unfold on_scope; repeat case_match; done.
    + left. rewrite elapse_eq. cbn [AppState with_now].
      pose proof (frame_timeout_steps
        (filter (fun x => (x <= now p + ms)%N) (timers p))
        (with_timers p (filter (fun x => ¬ (x <= now p + ms)%N) (timers p))))
        as [Hf _].
      apply (frame_AppState _ _ Hf).
Qed.

Lemma run_cons (ev : Event) (evs : list Event) (p : Page) :
  run (ev :: evs) p = run evs (handle ev p).
Proof. done. Qed.

Lemma elapsed_cons (ev : Event) (evs : list Event) :
  elapsed (ev :: evs) = (duration_of ev + elapsed evs)%N.
Proof. destruct ev; reflexivity. Qed.

Lemma run_now (evs : list Event) (p : Page) :
  now (run evs p) = (now p + elapsed evs)%N.
Proof.
  revert p. induction evs as [|ev evs IH]; intros p.
  - cbn. lia.
  - rewrite run_cons, IH, handle_now, elapsed_cons. lia.
Qed.

Lemma run_modal (evs : list Event) (p : Page) :
  is_Some (modal (doc (run evs p))) <-> is_Some (modal (doc p)).
Proof.
  revert p. induction evs as [|ev evs IH]; intros p; [done|].
  rewrite run_cons, IH. apply handle_modal.
Qed.

Lemma run_timers (evs : list Event) (p : Page) (t : N) :
  t ∈ timers p -> (now p + elapsed evs < t)%N -> t ∈ timers (run evs p).
Proof.
  revert p. induction evs as [|ev evs IH]; intros p Ht Hlt; [done|].
  rewrite run_cons. rewrite elapsed_cons in Hlt. apply IH.
  - apply handle_timers; [done | lia].
  - rewrite handle_now. lia.
Qed.

(** When time reaches the due time of a pending callback of [closeModal],
    the modal ends up fully closed. *)
Lemma elapse_closes (ms : N) (p : Page) (t : N) :
  is_Some (modal (doc p)) -> t ∈ timers p -> (t <= now p + ms)%N ->
  fully_closed (elapse ms p) = true.
Proof.
  intros Hm Ht Hle. rewrite elapse_eq.
  set (due := filter (fun x => (x <= now p + ms)%N) (timers p)).
  set (rest := filter (fun x => ¬ (x <= now p + ms)%N) (timers p)).
  assert (t ∈ due) as Hdue by (apply list_elem_of_filter; done).
  destruct due as [|x l]; [by apply elem_of_nil in Hdue|].
  cbn [foldl].
  change (fully_closed (foldl (fun q _ => timeout_step q)
            (timeout_step (with_timers p rest)) l) = true).
  apply timeout_steps_closed. by apply timeout_step_closed.
Qed.

(** C4.  With the modal present, [closeModal] schedules a callback 260 ms
    ahead.  Whatever happens in between (clicks on the open and close
    buttons and on the backdrop, key presses, edits, time passing), the
    callback is still pending while less than 260 ms have passed, and when
    the clock reaches the 260 ms the modal is fully closed. *)
Theorem closeModal_closes (p : Page) (m : Element) (evs : list Event) :
  modal (doc p) = Some m -> (elapsed evs < 260)%N ->
  exists p1,
    closeModal p = Normal p1
    /\ (now p + 260)%N ∈ timers (run evs p1)
    /\ now (handle (Elapse (260 - elapsed evs)) (run evs p1)) = (now p + 260)%N
    /\ fully_closed (handle (Elapse (260 - elapsed evs)) (run evs p1)) = true.
Proof.
  intros Hm Hlt. rewrite (closeModal_eq p m Hm). eexists. split; [reflexivity|].
  set (p1 := with_timers _ _).
  assert ((now p + 260)%N ∈ timers p1) as Ht.
  { cbn. apply elem_of_app. right. by apply list_elem_of_singleton. }
  assert (now p1 = now p) as Hnow by done.
  assert ((now p + 260)%N ∈ timers (run evs p1)) as Ht'.
  { apply run_timers; [done|]. rewrite Hnow. lia. }
  split_and!; [done| |].
  - rewrite handle_now, run_now, Hnow. cbn. lia.
  - cbn [handle]. apply (elapse_closes _ _ (now p + 260)%N); [|done|].
    + apply run_modal. cbn. eauto.
    + rewrite run_now, Hnow. lia.
Qed.

Lemma closeModal_closes_witness :
  modal (doc (load full_document))
  = Some {| classList := [str "modal"];
            attributes := {[ str "aria-hidden" := str "true" ]} |}
  /\ (elapsed sample_events < 260)%N
  /\ exists p1,
       closeModal (load full_document) = Normal p1
       /\ (now (load full_document) + 260)%N ∈ timers (run sample_events p1)
       /\ now (handle (Elapse (260 - elapsed sample_events)) (run sample_events p1))
          = (now (load full_document) + 260)%N
       /\ fully_closed
            (handle (Elapse (260 - elapsed sample_events)) (run sample_events p1))
          = true.
Proof.
  split; [reflexivity|]. split; [reflexivity|].
  apply (closeModal_closes (load full_document)
           {| classList := [str "modal"];
              attributes := {[ str "aria-hidden" := str "true" ]} |}
           sample_events); reflexivity.
Defined.

(** C10.  No event changes [AppState.animationRuns]; from the loading of the
    page on it is 0. *)
Theorem animationRuns_unchanged (d : Document) (evs : list Event) :
  (forall ev p, animationRuns (AppState (handle ev p)) = animationRuns (AppState p))
  /\ animationRuns (AppState (run evs (load d))) = Z2F 0.
Proof.
  assert (forall ev p, animationRuns (AppState (handle ev p))
                       = animationRuns (AppState p)) as Hstep.
  { intros ev p. destruct (handle_AppState ev p) as [->|[s ->]]; done. }
  split; [done|].
  assert (forall evs p, animationRuns (AppState (run evs p))
                        = animationRuns (AppState p)) as Hrun.
  { clear evs. induction evs as [|ev evs IH]; intros p; [done|].
    rewrite run_cons, IH. apply Hstep. }
  rewrite Hrun. done.
Qed.

Lemma lastDurationMs_range (d : Document) (evs : list Event) :
  exists n, 225 <= n <= 3600
    /\ lastDurationMs (AppState (run evs (load d))) = Z2F n.
Proof.
  assert (forall evs p,
    (exists n, 225 <= n <= 3600 /\ lastDurationMs (AppState p) = Z2F n) ->
    exists n, 225 <= n <= 3600 /\ lastDurationMs (AppState (run evs p)) = Z2F n)
    as Hrun.
  { clear evs. induction evs as [|ev evs IH]; intros p Hp; [done|].
    rewrite run_cons. apply IH.
    destruct (handle_AppState ev p) as [->|[s ->]]; [done|].
    cbn [lastDurationMs]. by apply computeDurationMs_range. }
  apply Hrun. exists 900. split; [lia | reflexivity].
Qed.

(** ** The duration calculator *)

Lemma num_truthy_not_NaN (x : Number) : num_truthy x = true -> isNaN x = false.
Proof. by destruct x. Qed.

(** C1, amended.  For every multiplier whose Number is neither 0 nor NaN,
    [computeDurationMs] returns round(900 x clamp(m, 0.25, 4)). *)
Theorem computeDurationMs_formula (multiplier : JSValue) :
  num_truthy (ToNumber multiplier) = true ->
  computeDurationMs multiplier = duration_formula (ToNumber multiplier).
Proof.
  intros Ht. unfold computeDurationMs, duration_formula, num_or. rewrite Ht.
  rewrite clamp_is_clamp_spec by (by apply num_truthy_not_NaN). done.
Qed.

Lemma computeDurationMs_formula_witness :
  num_truthy (ToNumber (JStr (str "2.5"))) = true
  /\ computeDurationMs (JStr (str "2.5"))
     = duration_formula (ToNumber (JStr (str "2.5"))).
Proof.
  split; [vm_compute; reflexivity|].
  apply (computeDurationMs_formula (JStr (str "2.5"))). vm_compute. reflexivity.
Defined.

(** C1 fails at the multiplier 0: the code returns 900, the formula gives
    225. *)
Lemma computeDurationMs_zero :
  computeDurationMs (JNum (S754_zero false)) = Z2F 900
  /\ duration_formula (S754_zero false) = Z2F 225
  /\ computeDurationMs (JNum (S754_zero false))
     <> duration_formula (ToNumber (JNum (S754_zero false))).
Proof. split_and!; vm_compute; [reflexivity | reflexivity | discriminate]. Qed.

(** C5.  When the multiplier is the empty string or its Number is NaN, the
    default multiplier 1 is used and the result is 900. *)
Theorem computeDurationMs_default (multiplier : JSValue) :
  multiplier = JStr [] \/ isNaN (ToNumber multiplier) = true ->
  num_or (ToNumber multiplier) (decimal2F false 1 0) = decimal2F false 1 0
  /\ computeDurationMs multiplier = Z2F 900.
Proof.
  intros H.
  assert (num_truthy (ToNumber multiplier) = false) as Hf.
  { destruct H as [->|H]; [reflexivity|]. by destruct (ToNumber multiplier). }
  unfold computeDurationMs, num_or. rewrite Hf. split; [reflexivity|].
  vm_compute. reflexivity.
Qed.

Lemma computeDurationMs_default_witness :
  isNaN (ToNumber (JStr (str "fast"))) = true
  /\ num_or (ToNumber (JStr (str "fast"))) (decimal2F false 1 0)
     = decimal2F false 1 0
  /\ computeDurationMs (JStr (str "fast")) = Z2F 900.
Proof.
  split; [vm_compute; reflexivity|].
  apply (computeDurationMs_default (JStr (str "fast"))). right.
  vm_compute. reflexivity.
Defined.

(** C6.  [computeDurationMs] returns an integer from 225 to 3600 for every
    input, and so [AppState.lastDurationMs] is such an integer in every state
    the page reaches. *)
Theorem duration_range (multiplier : JSValue) (d : Document) (evs : list Event) :
  valid_value multiplier = true ->
  (exists n, 225 <= n <= 3600
     /\ computeDurationMs multiplier = Z2F n
     /\ Number_to_Z (computeDurationMs multiplier) = Some n)
  /\ (exists n, 225 <= n <= 3600
        /\ lastDurationMs (AppState (run evs (load d))) = Z2F n
        /\ Number_to_Z (lastDurationMs (AppState (run evs (load d)))) = Some n).
Proof.
  intros Hv. split.
  - destruct (computeDurationMs_range multiplier Hv) as (n & Hn & ->).
    exists n. split; [done|]. split; [done|]. apply Number_to_Z_Z2F. lia.
  - destruct (lastDurationMs_range d evs) as (n & Hn & ->).
    exists n. split; [done|]. split; [done|]. apply Number_to_Z_Z2F. lia.
Qed.

Lemma duration_range_witness :
  valid_value (JStr (str "0.1")) = true
  /\ (exists n, 225 <= n <= 3600
        /\ computeDurationMs (JStr (str "0.1")) = Z2F n
        /\ Number_to_Z (computeDurationMs (JStr (str "0.1"))) = Some n)
  /\ (exists n, 225 <= n <= 3600
        /\ lastDurationMs (AppState
             (run [Input (str "7"); Click CalcBtn] (load full_document))) = Z2F n
        /\ Number_to_Z (lastDurationMs (AppState
             (run [Input (str "7"); Click CalcBtn] (load full_document)))) = Some n).
Proof.
  split; [reflexivity|].
  apply (duration_range (JStr (str "0.1")) full_document
           [Input (str "7"); Click CalcBtn]).
  reflexivity.
Defined.

(** *** The closure counter *)

Lemma inc_eq (cell : nat) (store : list Number) (a : Z) :
  store !! cell = Some (Z2F a) -> - 2 ^ 53 <= a < 2 ^ 53 ->
  inc cell store = Some (Z2F (a + 1), <[cell := Z2F (a + 1)]> store).
Proof.
  intros Hc Ha. unfold inc. rewrite Hc. rewrite num_add_one by done. done.
Qed.

Lemma inc_lookup (c : nat) (store store' : list Number) :
  store' !! c = store !! c -> fst <$> inc c store' = fst <$> inc c store.
Proof. intros H. unfold inc. rewrite H. by destruct (store !! c). Qed.

Lemma counter_run_cons (op : CounterOp) (ops : list CounterOp)
    (store : list Number) :
  counter_run (op :: ops) store = counter_run ops (counter_step store op).
Proof. done. Qed.

Lemma counter_run_app (ops1 ops2 : list CounterOp) (store : list Number) :
  counter_run (ops1 ++ ops2) store = counter_run ops2 (counter_run ops1 store).
Proof. apply foldl_app. Qed.

Lemma calls_of_app (cell : nat) (ops1 ops2 : list CounterOp) :
  calls_of cell (ops1 ++ ops2) = (calls_of cell ops1 + calls_of cell ops2)%nat.
Proof.
  induction ops1 as [|[start|c] ops1 IH]; cbn [app calls_of]; lia.
Qed.

(** What one operation does to a cell that exists. *)
Lemma counter_step_cell (op : CounterOp) (store : list Number) (g : nat) :
  (g < length store)%nat ->
  (length store <= length (counter_step store op))%nat
  /\ (op <> Call g -> counter_step store op !! g = store !! g)
  /\ (op = Call g ->
      counter_step store op !! g
      = (fun count => num_add count (decimal2F false 1 0)) <$> store !! g).
Proof.
  intros Hg. destruct op as [start|c]; cbn [counter_step].
  - unfold makeCounter. cbn [snd]. rewrite length_app. split; [lia|].
    split; [|done]. intros _. by apply lookup_app_l.
  - unfold inc. destruct (store !! c) as [count|] eqn:Hc.
    + rewrite length_insert. split; [lia|]. split.
      * intros Hne. apply list_lookup_insert_ne. congruence.
      * intros [= ->]. rewrite Hc. by rewrite list_lookup_insert_eq.
    + split; [lia|]. split; [done|]. intros [= ->].
      apply lookup_ge_None in Hc. lia.
Qed.

Lemma counter_run_length (ops : list CounterOp) (store : list Number) :
  (length store <= length (counter_run ops store))%nat.
Proof.
  revert store. induction ops as [|op ops IH]; intros store; [done|].
  rewrite counter_run_cons. etrans; [|apply IH].
  destruct op as [start|c]; cbn [counter_step].
  - unfold makeCounter. cbn [snd]. rewrite length_app. lia.
  - unfold inc. destruct (store !! c); [by rewrite length_insert|done].
Qed.

(** Operations that do not call a counter leave its cell alone. *)
Lemma counter_run_frame (ops : list CounterOp) (store : list Number) (g : nat) :
  (g < length store)%nat -> calls_of g ops = 0%nat ->
  counter_run ops store !! g = store !! g.
Proof.
  revert store. induction ops as [|op ops IH]; intros store Hg Hc; [done|].
  rewrite counter_run_cons.
  destruct (counter_step_cell op store g Hg) as (Hlen & Hne & _).
  rewrite IH; [apply Hne| lia |].
  - intros ->. cbn [calls_of] in Hc. rewrite Nat.eqb_refl in Hc. lia.
  - destruct op as [start|c]; cbn [calls_of] in Hc; [done|]. lia.
Qed.

(** A counter with an integer count has advanced by the number of its calls,
    whatever else was made or called. *)
Lemma counter_run_cell (ops : list CounterOp) (store : list Number)
    (f : nat) (a : Z) :
  store !! f = Some (Z2F a) ->
  - 2 ^ 53 <= a -> a + Z.of_nat (calls_of f ops) <= 2 ^ 53 ->
  counter_run ops store !! f = Some (Z2F (a + Z.of_nat (calls_of f ops))).
Proof.
  revert store a. induction ops as [|op ops IH]; intros store a Hf Hlo Hhi.
  - cbn. by rewrite Z.add_0_r.
  - rewrite counter_run_cons.
    assert (f < length store)%nat as Hlen by (by eapply lookup_lt_Some).
    destruct (counter_step_cell op store f Hlen) as (_ & Hne & Heq).
    destruct op as [start|c].
    + cbn [calls_of] in *. apply IH; try done. rewrite Hne by done. done.
    + cbn [calls_of] in *. destruct (Nat.eqb_spec c f) as [->|Hcf].
      * rewrite (IH _ (a + 1)); [f_equal; f_equal; lia| |lia|lia].
        rewrite Heq by done. rewrite Hf. cbn [fmap option_fmap option_map].
        by rewrite num_add_one by lia.
      * rewrite Nat.add_0_l in *. apply IH; try done.
        rewrite Hne by congruence. done.
Qed.

(** C2, amended.  Let [f] be the function returned by [makeCounter(s)] for an
    integer seed [s], and let the program go on in any way: it makes further
    counters and calls counters made before or after, [f] among them [n - 1]
    times.  If [-2^53 <= s] and [s + n <= 2^53], the next call of [f], its
    [n]-th, returns exactly [s + n], which is greater than what every
    earlier call of [f] returned, and leaves it in the captured cell; that
    call changes the cell of no other counter, so that what each of them
    returns next is the same.  Every call of [makeCounter] captures a cell
    that no counter made before has and changes none of theirs, cells never
    go away, and operations that do not call a counter change neither its
    cell nor what it returns next. *)
Theorem makeCounter_sequence (s : Z) (n : nat) (store : list Number)
    (ops : list CounterOp) (f : nat) (store1 : list Number) :
  (1 <= n)%nat -> - 2 ^ 53 <= s -> s + Z.of_nat n <= 2 ^ 53 ->
  makeCounter (Some (Z2F s)) store = (f, store1) ->
  calls_of f ops = (n - 1)%nat ->
  let store2 := counter_run ops store1 in
  (exists r store3,
     inc f store2 = Some (r, store3)
     /\ r = Z2F (s + Z.of_nat n)
     /\ Number_to_Z r = Some (s + Z.of_nat n)
     /\ store3 !! f = Some r
     /\ (forall ops1 ops2, ops = ops1 ++ Call f :: ops2 ->
           exists r' store',
             inc f (counter_run ops1 store1) = Some (r', store')
             /\ num_lt r' r = true)
     /\ (forall g, g <> f ->
           store3 !! g = store2 !! g
           /\ fst <$> inc g store3 = fst <$> inc g store2))
  /\ (forall st start' c, (c < length st)%nat ->
        fst (makeCounter start' st) <> c
        /\ snd (makeCounter start' st) !! c = st !! c)
  /\ (forall st ops' c, (c < length st)%nat ->
        (c < length (counter_run ops' st))%nat)
  /\ (forall st g ops', (g < length st)%nat -> calls_of g ops' = 0%nat ->
        counter_run ops' st !! g = st !! g
        /\ fst <$> inc g (counter_run ops' st) = fst <$> inc g st).
Proof.
  intros Hn Hlo Hhi Hmake Hcalls store2.
  unfold makeCounter in Hmake. cbn [default] in Hmake.
  injection Hmake as <- <-.
  assert ((store ++ [Z2F s]) !! length store = Some (Z2F s)) as Hf
    by (by apply list_lookup_middle).
  assert (store2 !! length store
          = Some (Z2F (s + Z.of_nat (calls_of (length store) ops)))) as Hf2.
  { apply counter_run_cell; [done|done|]. rewrite Hcalls. lia. }
  rewrite Hcalls in Hf2.
  assert (s + Z.of_nat (n - 1) + 1 = s + Z.of_nat n) as Hsn by lia.
  split_and!.
  - rewrite (inc_eq _ _ _ Hf2) by lia. rewrite Hsn.
    do 2 eexists. split_and!; try reflexivity.
    + apply Number_to_Z_Z2F. lia.
    + apply list_lookup_insert_eq. by eapply lookup_lt_Some.
    + intros ops1 ops2 Hops.
      assert (calls_of (length store) ops1 < n - 1)%nat as Hk.
      { rewrite <- Hcalls, Hops, calls_of_app. cbn [calls_of].
        rewrite Nat.eqb_refl. lia. }
      rewrite (inc_eq _ _ (s + Z.of_nat (calls_of (length store) ops1)));
        [|apply counter_run_cell; [done|done|lia]|lia].
      do 2 eexists. split; [reflexivity|]. apply Z2F_lt; lia.
    + intros g Hg. assert (<[length store := Z2F (s + Z.of_nat n)]> store2 !! g
                           = store2 !! g) as Heq
        by (by apply list_lookup_insert_ne).
      split; [done|]. by apply inc_lookup.
  - intros st start' c Hc. unfold makeCounter. cbn [fst snd].
    split; [lia | by apply lookup_app_l].
  - intros st ops' c Hc. pose proof (counter_run_length ops' st). lia.
  - intros st g ops' Hg Hc.
    pose proof (counter_run_frame ops' st g Hg Hc) as Heq.
    split; [done|]. by apply inc_lookup.
Qed.

Lemma makeCounter_sequence_witness :
  (1 <= 3)%nat /\ - 2 ^ 53 <= 0 /\ 0 + Z.of_nat 3 <= 2 ^ 53
  /\ makeCounter (Some (Z2F 0)) [Z2F 7] = (1%nat, [Z2F 7; Z2F 0])
  /\ calls_of 1 [Call 0; Make None; Call 1; Call 2; Call 1; Call 0] = (3 - 1)%nat
  /\ exists r store3,
       inc 1 (counter_run [Call 0; Make None; Call 1; Call 2; Call 1; Call 0]
                [Z2F 7; Z2F 0])
       = Some (r, store3)
       /\ r = Z2F (0 + Z.of_nat 3).
Proof.
  split; [lia|]. split; [lia|]. split; [simpl; lia|].
  split; [reflexivity|]. split; [reflexivity|].
  destruct (makeCounter_sequence 0 3 [Z2F 7]
              [Call 0; Make None; Call 1; Call 2; Call 1; Call 0]
              1 [Z2F 7; Z2F 0])
    as [(r & store3 & Hinc & Hr & _) _];
    [lia | lia | simpl; lia | reflexivity | reflexivity |].
  exists r, store3. split; [exact Hinc | exact Hr].
Defined.

(** C2 fails at the seed 2^53: the first call returns 2^53, not 2^53 + 1,
    and the second call returns the same Number again. *)
Lemma makeCounter_stuck :
  let '(f, store) := makeCounter (Some (Z2F (2 ^ 53))) [] in
  exists r1 r2 store1 store2,
    calls 1 f store = Some (r1, store1)
    /\ calls 2 f store = Some (r2, store2)
    /\ Number_to_Z r1 = Some (2 ^ 53)
    /\ Number_to_Z r1 <> Some (2 ^ 53 + 1)
    /\ r2 = r1
    /\ num_lt r1 r2 = false.
Proof.
  cbn [makeCounter]. do 4 eexists.
  split_and!; [vm_compute; reflexivity | vm_compute; reflexivity | | | |];
    vm_compute; done.
Qed.

(** ** The script on concrete inputs *)

Example computeDurationMs_examples :
  map (fun s => Number_to_Z (computeDurationMs (JStr (str s))))
      ["1"; "2"; "0.1"; "1e3"; "-5"; "1.2345"; " 3 "; "0x2"; EmptyString; "abc"; "0";
       "Infinity"]%string
  = map Some [900; 1800; 225; 3600; 225; 1111; 2700; 1800; 900; 900; 900; 3600].
Proof. vm_compute. reflexivity. Qed.

Example computeDurationMs_other_values :
  map (fun v => Number_to_Z (computeDurationMs v))
      [JUndefined; JNull; JBool true; JBool false; JNum (Z2F 3); JNum NaN]
  = map Some [900; 900; 900; 900; 2700; 900].
Proof. vm_compute. reflexivity. Qed.

Example Math_round_examples :
  map (fun s => Math_round (StringToNumber (str s)))
      ["2.5"; "-2.5"; "-0.5"; "0.49999999999999994"; "-0.6"]%string
  = [Z2F 3; Z2F (-2); S754_zero true; S754_zero false; Z2F (-1)].
Proof. vm_compute. reflexivity. Qed.

(** After one click on the scope button the closure has counted to 2 while
    the field of [AppState] is still 0. *)
Example scope_click :
  let p := run [Click ScopeBtn] (load full_document) in
  counters p !! incrementRuns p = Some (Z2F 2)
  /\ animationRuns (AppState p) = Z2F 0.
Proof. vm_compute. split; reflexivity. Qed.

(** Opening the modal 100 ms after a close does not keep it open: the
    callback of the close still runs at 260 ms. *)
Example reopen_then_timeout :
  let p := run [Click OpenModalBtn; Click CloseModalBtn; Elapse 100;
                Click OpenModalBtn] (load full_document) in
  shown p = true
  /\ fully_closed (handle (Elapse 159) p) = false
  /\ fully_closed (handle (Elapse 160) p) = true.
Proof. vm_compute. split_and!; reflexivity. Qed.

Example toggleClass_invalid_token :
  toggleClass (Some spinner) [] (JBool true) = Throw SyntaxError
  /\ toggleClass (Some spinner) (str "a b") JUndefined = Throw InvalidCharacterError.
Proof. split; reflexivity. Qed.

(** * Further properties of the code *)

(** ** The order of [Math.min] and [Math.max], and [clamp] *)

Lemma num_lt_keys (x y : Number) :
  isNaN x = false -> isNaN y = false ->
  num_lt x y
  = (key_class x <? key_class y)
    || ((key_class x =? key_class y)
        && ((key_exp x <? key_exp y)
            || ((key_exp x =? key_exp y) && (key_man x <? key_man y)))).
Proof.
  intros Hx Hy. unfold num_lt.
  destruct x as [[]|[]| |[] mx ex]; try done;
    destruct y as [[]|[]| |[] my ey]; try done.
  - rewrite SFltb_finite_neg. cbn [key_class key_exp key_man].
    change (-1 <? -1) with false. change (-1 =? -1) with true. cbn [orb andb].
    f_equal; [|f_equal]; try (apply eq_true_iff_eq; rewrite !Z.ltb_lt; lia).
    apply eq_true_iff_eq. rewrite !Z.eqb_eq. lia.
  - rewrite SFltb_finite_pos. reflexivity.
Qed.

Lemma before_num_lt (x y : Number) :
  isNaN x = false -> isNaN y = false ->
  before x y = (is_neg_zero x && is_pos_zero y) || num_lt x y.
Proof.
  intros Hx Hy. rewrite num_lt_keys by done. unfold before.
  destruct x as [[]|[]| |[] mx ex]; try done;
    destruct y as [[]|[]| |[] my ey]; try done.
Qed.

Lemma min_step_before (lowest number : Number) :
  isNaN lowest = false -> isNaN number = false ->
  min_step lowest number = if before number lowest then number else lowest.
Proof.
  intros H1 H2. unfold min_step. rewrite before_num_lt by done.
  destruct (is_neg_zero number && is_pos_zero lowest); done.
Qed.

Lemma max_step_before (highest number : Number) :
  isNaN highest = false -> isNaN number = false ->
  max_step highest number = if before highest number then number else highest.
Proof.
  intros H1 H2. unfold max_step. rewrite before_num_lt by done.
  rewrite (andb_comm (is_neg_zero highest)).
  destruct (is_pos_zero number && is_neg_zero highest); done.
Qed.

Lemma key_inj (x y : Number) :
  isNaN x = false -> isNaN y = false ->
  key_class x = key_class y -> key_zero x = key_zero y ->
  key_exp x = key_exp y -> key_man x = key_man y -> x = y.
Proof.
  intros Hx Hy.
  destruct x as [[]|[]| |[] mx ex]; try done;
    destruct y as [[]|[]| |[] my ey]; try done; cbn; intros; f_equal; lia.
Qed.

Lemma before_spec (x y : Number) :
  before x y = true <->
  key_class x < key_class y
  \/ (key_class x = key_class y
      /\ (key_zero x < key_zero y
          \/ (key_zero x = key_zero y
              /\ (key_exp x < key_exp y
                  \/ (key_exp x = key_exp y /\ key_man x < key_man y))))).
Proof.
  unfold before.
  rewrite !orb_true_iff, !andb_true_iff, !orb_true_iff, !andb_true_iff,
    !orb_true_iff, !andb_true_iff, !Z.ltb_lt, !Z.eqb_eq. tauto.
Qed.

Lemma before_false (x y : Number) :
  before x y = false <-> ~ (before x y = true).
Proof. destruct (before x y); split; congruence. Qed.

(** [Math.min] and [Math.max] of two Numbers. *)
Lemma Math_min_two (a b : Number) :
  isNaN a = false -> isNaN b = false ->
  Math_min [a; b] = if before b a then b else a.
Proof.
  intros Ha Hb. unfold Math_min. cbn [existsb fold_left]. rewrite Ha, Hb. cbn [orb].
  assert (min_step (S754_infinity false) a = a) as ->.
  { rewrite min_step_before by done. destruct a as [[]|[]| |[] m e]; done. }
  by apply min_step_before.
Qed.

Lemma Math_max_two (a b : Number) :
  isNaN a = false -> isNaN b = false ->
  Math_max [a; b] = if before a b then b else a.
Proof.
  intros Ha Hb. unfold Math_max. cbn [existsb fold_left]. rewrite Ha, Hb. cbn [orb].
  assert (max_step (S754_infinity true) a = a) as ->.
  { rewrite max_step_before by done. destruct a as [[]|[]| |[] m e]; done. }
  by apply max_step_before.
Qed.

Lemma clamp_before (value min max : Number) :
  isNaN value = false -> isNaN min = false -> isNaN max = false ->
  clamp value min max
  = let y := if before value max then value else max in
    if before min y then y else min.
Proof.
  intros Hv Hlo Hhi. unfold clamp. rewrite (Math_min_two max value) by done.
  cbv zeta. rewrite Math_max_two; [done|done|by destruct (before value max)].
Qed.

Lemma num_lt_spec (x y : Number) :
  isNaN x = false -> isNaN y = false ->
  (num_lt x y = true <->
   key_class x < key_class y
   \/ (key_class x = key_class y
       /\ (key_exp x < key_exp y
           \/ (key_exp x = key_exp y /\ key_man x < key_man y)))).
Proof.
  intros Hx Hy. rewrite num_lt_keys by done.
  rewrite !orb_true_iff, !andb_true_iff, !orb_true_iff, !andb_true_iff,
    !Z.ltb_lt, !Z.eqb_eq. tauto.
Qed.

Lemma SFeqb_spec (x y : Number) :
  isNaN x = false -> isNaN y = false ->
  (SFeqb x y = true <->
   key_class x = key_class y /\ key_exp x = key_exp y /\ key_man x = key_man y).
Proof.
  intros Hx Hy. unfold SFeqb, SFcompare.
  destruct x as [[]|[]| |[] mx ex]; try done;
    destruct y as [[]|[]| |[] my ey]; try done;
    cbn [key_class key_exp key_man]; try (split; [done | lia]);
    try (split; [done | intros (H & _); done]).
  - rewrite Pos.compare_cont_spec. cbn [Pos.switch_Eq].
    destruct (Z.compare_spec ex ey) as [He|He|He];
      destruct (Pos.compare_spec mx my) as [Hm|Hm|Hm]; cbn;
      split; try done; try lia; intros; split_and!; try done; lia.
  - rewrite Pos.compare_cont_spec. cbn [Pos.switch_Eq].
    destruct (Z.compare_spec ex ey) as [He|He|He];
      destruct (Pos.compare_spec mx my) as [Hm|Hm|Hm]; cbn;
      split; try done; try lia; intros; split_and!; try done; lia.
Qed.

Lemma false_iff_not (b : bool) : b = false <-> ~ (b = true).
Proof. destruct b; split; congruence. Qed.

Lemma key_facts (x : Number) :
  0 <= key_zero x <= 1
  /\ (key_zero x = 1 -> key_class x = 0)
  /\ (key_class x = 0 -> key_exp x = 0 /\ key_man x = 0).
Proof. destruct x as [[]|[]| |[] m e]; cbn; lia. Qed.

Lemma truthy_class (x : Number) : num_truthy x = true -> key_class x <> 0.
Proof. by destruct x as [[]|[]| |[] m e]. Qed.

Lemma before_irrefl (x : Number) : before x x = false.
Proof. apply false_iff_not. rewrite before_spec. lia. Qed.

Lemma before_trans (x y z : Number) :
  before x y = true -> before y z = true -> before x z = true.
Proof. rewrite !before_spec. lia. Qed.

Lemma num_lt_before (x y : Number) :
  isNaN x = false -> isNaN y = false ->
  num_lt x y = true -> before x y = true.
Proof.
  intros Hx Hy. rewrite num_lt_spec, before_spec by done.
  pose proof (key_facts x). pose proof (key_facts y). lia.
Qed.

Lemma before_not_num_lt (x y : Number) :
  isNaN x = false -> isNaN y = false ->
  before x y = true -> num_lt y x = false.
Proof.
  intros Hx Hy H. apply false_iff_not. revert H.
  rewrite num_lt_spec, before_spec by done.
  pose proof (key_facts x). pose proof (key_facts y). lia.
Qed.

Lemma num_lt_irrefl (x : Number) : isNaN x = false -> num_lt x x = false.
Proof.
  intros Hx. apply false_iff_not. rewrite num_lt_spec by done. lia.
Qed.

(** Two Numbers are numerically equal when neither comes before the other,
    one in the order of [Math.min], the other in the order of [<]. *)
Lemma order_equal (x y : Number) :
  isNaN x = false -> isNaN y = false ->
  before x y = false -> num_lt y x = false ->
  key_class x = key_class y /\ key_exp x = key_exp y /\ key_man x = key_man y.
Proof.
  intros Hx Hy H1 H2. apply false_iff_not in H1, H2. revert H1 H2.
  rewrite num_lt_spec, before_spec by done.
  pose proof (key_facts x). pose proof (key_facts y). lia.
Qed.

Lemma numerically_equal (x y : Number) :
  isNaN x = false -> isNaN y = false ->
  key_class x = key_class y /\ key_exp x = key_exp y /\ key_man x = key_man y ->
  SFeqb x y = true /\ (num_truthy y = true -> x = y).
Proof.
  intros Hx Hy H. split; [by apply SFeqb_spec|].
  intros Ht. apply truthy_class in Ht.
  pose proof (key_facts x). pose proof (key_facts y).
  apply key_inj; try done; lia.
Qed.

(** X1.  [clamp] returns NaN exactly when one of its three arguments is
    NaN. *)
Theorem clamp_NaN (value min max : Number) :
  isNaN (clamp value min max) = isNaN value || isNaN min || isNaN max.
Proof.
  destruct (isNaN value) eqn:Hv; [by destruct value, min, max|].
  destruct (isNaN max) eqn:Hhi.
  { unfold clamp, Math_min. cbn [existsb]. rewrite Hhi. by destruct min. }
  destruct (isNaN min) eqn:Hlo; [by destruct min|].
  rewrite clamp_before by done. cbv zeta.
  destruct (before value max), (before min _); done.
Qed.

(** X2.  When none of its arguments is NaN, [clamp] returns one of its three
    arguments: it never makes up a new Number. *)
Theorem clamp_selects (value min max : Number) :
  isNaN value = false -> isNaN min = false -> isNaN max = false ->
  clamp value min max = value \/ clamp value min max = min
  \/ clamp value min max = max.
Proof.
  intros Hv Hlo Hhi. rewrite clamp_before by done. cbv zeta.
  destruct (before value max), (before min _); tauto.
Qed.

Lemma clamp_selects_witness :
  isNaN (Z2F 7) = false /\ isNaN (Z2F 1) = false /\ isNaN (Z2F 5) = false
  /\ (clamp (Z2F 7) (Z2F 1) (Z2F 5) = Z2F 7 \/ clamp (Z2F 7) (Z2F 1) (Z2F 5) = Z2F 1
      \/ clamp (Z2F 7) (Z2F 1) (Z2F 5) = Z2F 5).
Proof.
  split_and!; [reflexivity..|].
  apply (clamp_selects (Z2F 7) (Z2F 1) (Z2F 5)); reflexivity.
Defined.

(** X3.  When none of the arguments is NaN and [max] is not below [min], the
    result of [clamp] is neither below [min] nor above [max]. *)
Theorem clamp_within (value min max : Number) :
  isNaN value = false -> isNaN min = false -> isNaN max = false ->
  num_lt max min = false ->
  num_lt (clamp value min max) min = false
  /\ num_lt max (clamp value min max) = false.
Proof.
  intros Hv Hlo Hhi Hle. rewrite clamp_before by done. cbv zeta.
  destruct (before value max) eqn:H1.
  - destruct (before min value) eqn:H2.
    + split; by apply before_not_num_lt.
    + split; [by apply num_lt_irrefl | done].
  - destruct (before min max) eqn:H2.
    + split; [done | by apply num_lt_irrefl].
    + split; [by apply num_lt_irrefl | done].
Qed.

Lemma clamp_within_witness :
  isNaN (Z2F 7) = false /\ isNaN (Z2F 1) = false /\ isNaN (Z2F 5) = false
  /\ num_lt (Z2F 5) (Z2F 1) = false
  /\ num_lt (clamp (Z2F 7) (Z2F 1) (Z2F 5)) (Z2F 1) = false
  /\ num_lt (Z2F 5) (clamp (Z2F 7) (Z2F 1) (Z2F 5)) = false.
Proof.
  split_and!; [reflexivity..| |];
    apply (clamp_within (Z2F 7) (Z2F 1) (Z2F 5)); reflexivity.
Defined.

(** X4.  When the bounds are the wrong way round ([max] below [min]),
    [clamp] returns [min], whatever the value. *)
Theorem clamp_inverted (value min max : Number) :
  isNaN value = false -> isNaN min = false -> isNaN max = false ->
  num_lt max min = true ->
  clamp value min max = min.
Proof.
  intros Hv Hlo Hhi Hinv. rewrite clamp_before by done. cbv zeta.
  apply num_lt_before in Hinv; [|done|done].
  destruct (before value max) eqn:H1.
  - destruct (before min value) eqn:H2; [|done].
    pose proof (before_trans _ _ _ (before_trans _ _ _ H2 H1) Hinv) as H.
    by rewrite before_irrefl in H.
  - destruct (before min max) eqn:H2; [|done].
    pose proof (before_trans _ _ _ H2 Hinv) as H.
    by rewrite before_irrefl in H.
Qed.

Lemma clamp_inverted_witness :
  isNaN (Z2F 3) = false /\ isNaN (Z2F 5) = false /\ isNaN (Z2F 1) = false
  /\ num_lt (Z2F 1) (Z2F 5) = true
  /\ clamp (Z2F 3) (Z2F 5) (Z2F 1) = Z2F 5.
Proof.
  split_and!; [reflexivity..|].
  apply (clamp_inverted (Z2F 3) (Z2F 5) (Z2F 1)); reflexivity.
Defined.

(** X5.  A value that is neither below [min] nor above [max] comes back
    numerically unchanged, and identically unless it is a zero (whose sign a
    zero bound can replace). *)
Theorem clamp_inside (value min max : Number) :
  isNaN value = false -> isNaN min = false -> isNaN max = false ->
  num_lt value min = false -> num_lt max value = false ->
  SFeqb (clamp value min max) value = true
  /\ (num_truthy value = true -> clamp value min max = value).
Proof.
  intros Hv Hlo Hhi H1 H2. rewrite clamp_before by done. cbv zeta.
  destruct (before value max) eqn:H3.
  - destruct (before min value) eqn:H4.
    + by apply numerically_equal.
    + apply numerically_equal; try done. by apply order_equal.
  - pose proof (order_equal value max Hv Hhi H3 H2) as Hvm.
    destruct (before min max) eqn:H4.
    + apply numerically_equal; try done. lia.
    + apply numerically_equal; try done.
      assert (num_lt max min = false) as H5.
      { apply false_iff_not. apply false_iff_not in H1. revert H1.
        rewrite !num_lt_spec by done. lia. }
      pose proof (order_equal min max Hlo Hhi H4 H5). lia.
Qed.

Lemma clamp_inside_witness :
  isNaN (Z2F 3) = false /\ isNaN (Z2F 1) = false /\ isNaN (Z2F 5) = false
  /\ num_lt (Z2F 3) (Z2F 1) = false /\ num_lt (Z2F 5) (Z2F 3) = false
  /\ SFeqb (clamp (Z2F 3) (Z2F 1) (Z2F 5)) (Z2F 3) = true
  /\ (num_truthy (Z2F 3) = true -> clamp (Z2F 3) (Z2F 1) (Z2F 5) = Z2F 3).
Proof.
  split_and!; [reflexivity..| |];
    apply (clamp_inside (Z2F 3) (Z2F 1) (Z2F 5)); reflexivity.
Defined.

(** X6.  Clamping a second time into the same range changes nothing, for
    all Numbers, NaN and inverted bounds included. *)
Theorem clamp_idempotent (value min max : Number) :
  clamp (clamp value min max) min max = clamp value min max.
Proof.
  destruct (isNaN value || isNaN min || isNaN max) eqn:Hn.
  - pose proof (clamp_NaN value min max) as H. rewrite Hn in H.
    destruct (clamp value min max); try done.
    pose proof (clamp_NaN S754_nan min max) as H'. cbn in H'.
    by destruct (clamp S754_nan min max).
  - apply orb_false_iff in Hn as [Hn Hhi]. apply orb_false_iff in Hn as [Hv Hlo].
    rewrite (clamp_before value) by done. cbv zeta.
    destruct (before value max) eqn:H1.
    + destruct (before min value) eqn:H2.
      * rewrite clamp_before by done. cbv zeta. by rewrite H1, H2.
      * rewrite clamp_before by done. cbv zeta.
        destruct (before min max) eqn:H3.
        -- by rewrite before_irrefl.
        -- by rewrite H3.
    + destruct (before min max) eqn:H2.
      * rewrite clamp_before by done. cbv zeta.
        rewrite before_irrefl. by rewrite H2.
      * rewrite clamp_before by done. cbv zeta. rewrite H2.
        by rewrite H2.
Qed.

(** ** Saturation of the duration *)

(** X7.  A multiplier whose Number is nonzero and below 0.25 (negative
    ones and -Infinity included) gives the least duration, 225. *)
Theorem computeDurationMs_floor (multiplier : JSValue) :
  num_truthy (ToNumber multiplier) = true ->
  num_lt (ToNumber multiplier) (decimal2F false 25 (-2)) = true ->
  computeDurationMs multiplier = Z2F 225.
Proof.
  intros Ht Hlt. unfold computeDurationMs, num_or. rewrite Ht.
  rewrite clamp_is_clamp_spec by (by apply num_truthy_not_NaN).
  unfold clamp_spec. rewrite Hlt. vm_compute. reflexivity.
Qed.

Lemma computeDurationMs_floor_witness :
  num_truthy (ToNumber (JStr (str "-3"))) = true
  /\ num_lt (ToNumber (JStr (str "-3"))) (decimal2F false 25 (-2)) = true
  /\ computeDurationMs (JStr (str "-3")) = Z2F 225.
Proof.
  split_and!; [vm_compute; reflexivity..|].
  apply (computeDurationMs_floor (JStr (str "-3"))); vm_compute; reflexivity.
Defined.

(** X8.  A multiplier whose Number is above 4 (Infinity included) gives
    the greatest duration, 3600. *)
Theorem computeDurationMs_ceiling (multiplier : JSValue) :
  num_lt (decimal2F false 4 0) (ToNumber multiplier) = true ->
  computeDurationMs multiplier = Z2F 3600.
Proof.
  intros Hlt. set (x := ToNumber multiplier) in *.
  assert (isNaN x = false) as Hn by (by destruct x as [[]|[]| |[] m e]).
  assert (num_truthy x = true) as Ht by (by destruct x as [[]|[]| |[] m e]).
  assert (num_lt x (decimal2F false 25 (-2)) = false) as Hlo.
  { destruct (num_lt x (decimal2F false 25 (-2))) eqn:H; [|done].
    apply num_lt_before in H; [|done|done]. apply num_lt_before in Hlt; [|done|done].
    pose proof (before_trans _ _ _ Hlt H) as Hc. vm_compute in Hc. done. }
  unfold computeDurationMs, num_or. fold x. rewrite Ht.
  rewrite clamp_is_clamp_spec by done.
  unfold clamp_spec. rewrite Hlo, Hlt. vm_compute. reflexivity.
Qed.

Lemma computeDurationMs_ceiling_witness :
  num_lt (decimal2F false 4 0) (ToNumber (JStr (str "Infinity"))) = true
  /\ computeDurationMs (JStr (str "Infinity")) = Z2F 3600.
Proof.
  split; [vm_compute; reflexivity|].
  apply (computeDurationMs_ceiling (JStr (str "Infinity"))); vm_compute; reflexivity.
Defined.

(** ** The page *)

Lemma same_elements_refl (d : Document) : same_elements d d.
Proof. unfold same_elements. tauto. Qed.

Lemma same_elements_trans (d1 d2 d3 : Document) :
  same_elements d1 d2 -> same_elements d2 d3 -> same_elements d1 d3.
Proof.
  unfold same_elements. intros H1 H2.
  destruct H1 as (?&?&?&?&?&?&?&?&?&?&?&?&?&?).
  destruct H2 as (?&?&?&?&?&?&?&?&?&?&?&?&?&?).
  split_and!; try congruence; etrans; done.
Qed.

Lemma toggleClass_presence (el el' : option Element) (c : jsstring)
    (force : JSValue) (b : bool) :
  toggleClass el c force = Normal (b, el') -> is_Some el' <-> is_Some el.
Proof.
  unfold toggleClass. destruct el as [e|]; [intros H|intros H; by simplify_eq].
  destruct force; destruct (classList_toggle c _ e) as [[b' e']|];
    cbn in H; simplify_eq; split; eauto.
Qed.

Lemma timeout_step_elements (q : Page) : same_elements (doc q) (doc (timeout_step q)).
Proof.
  destruct (timeout_step_cases q) as [[_ ->]|(m & Hm & ->)];
    [apply same_elements_refl|].
  unfold same_elements. cbn. rewrite Hm. split_and!; try done; split; eauto.
Qed.

Lemma timeout_steps_elements {A} (l : list A) (q : Page) :
  same_elements (doc q) (doc (foldl (fun q _ => timeout_step q) q l)).
Proof.
  revert q. induction l as [|x l IH]; intros q; cbn [foldl];
    [apply same_elements_refl|].
  eapply same_elements_trans; [apply timeout_step_elements | apply IH].
Qed.

Lemma handle_elements (ev : Event) (p : Page) :
  same_elements (doc p) (doc (handle ev p)).
Proof.
  destruct ev as [[]|key|value|ms]; cbn [handle].
  - destruct (calcBtn (doc p)); [|apply same_elements_refl].
    unfold on_calc. destruct (durationInput (doc p)); apply same_elements_refl.
  - destruct (scopeBtn (doc p)); [|apply same_elements_refl].
    unfold on_scope. repeat case_match; apply same_elements_refl.
  - destruct (animateBtn (doc p)); [|apply same_elements_refl].
    unfold on_animate. destruct (box (doc p)) as [b|] eqn:Hb;
      [|apply same_elements_refl].
    destruct (classList_remove [str "run"] b) as [b1|];
      cbn [mbind Completion_bind settle]; [|apply same_elements_refl].
    destruct (classList_add [str "run"] b1) as [b2|];
      cbn [mbind Completion_bind settle]; [|apply same_elements_refl].
    unfold same_elements. cbn. rewrite Hb. split_and!; try done; split; eauto.
  - destruct (flipBtn (doc p)); [|apply same_elements_refl].
    unfold on_flip.
    destruct (toggleClass _ _ _) as [[b c]|] eqn:Ht;
      cbn [mbind Completion_bind settle]; [|apply same_elements_refl].
    apply toggleClass_presence in Ht.
    unfold same_elements. cbn. split_and!; done.
  - destruct (startLoader (doc p)); [|apply same_elements_refl].
    unfold on_loader.
    destruct (toggleClass _ _ _) as [[b c]|] eqn:Ht;
      cbn [mbind Completion_bind settle]; [|apply same_elements_refl].
    apply toggleClass_presence in Ht.
    unfold same_elements. cbn. split_and!; done.
  - destruct (stopLoader (doc p)); [|apply same_elements_refl].
    unfold on_loader.
    destruct (toggleClass _ _ _) as [[b c]|] eqn:Ht;
      cbn [mbind Completion_bind settle]; [|apply same_elements_refl].
    apply toggleClass_presence in Ht.
    unfold same_elements. cbn. split_and!; done.
  - destruct (openModalBtn (doc p)); [|apply same_elements_refl].
    destruct (settle_openModal p) as [->|(m & Hm & ->)];
      [apply same_elements_refl|].
    unfold same_elements. cbn. rewrite Hm. split_and!; try done; split; eauto.
  - destruct (closeModalBtn (doc p)); [|apply same_elements_refl].
    destruct (settle_closeModal p) as [->|(m & Hm & ->)];
      [apply same_elements_refl|].
    unfold same_elements. cbn. rewrite Hm. split_and!; try done; split; eauto.
  - destruct (backdrop (doc p)); [|apply same_elements_refl].
    destruct (settle_closeModal p) as [->|(m & Hm & ->)];
      [apply same_elements_refl|].
    unfold same_elements. cbn. rewrite Hm. split_and!; try done; split; eauto.
  - unfold on_keydown. destruct (jsstring_eqb key (str "Escape"));
      [|apply same_elements_refl].
    destruct (modal (doc p)) as [m|] eqn:Hm; [|apply same_elements_refl].
    destruct (classList_contains (str "open") m); [|apply same_elements_refl].
    destruct (settle_closeModal p) as [->|(m' & Hm' & ->)];
      [apply same_elements_refl|].
    unfold same_elements. cbn. rewrite Hm. split_and!; try done; split; eauto.
  - destruct (durationInput (doc p)) as [old|] eqn:Hi; [|apply same_elements_refl].
    unfold same_elements. cbn. rewrite Hi. split_and!; try done; split; eauto.
  - rewrite elapse_eq. cbn [doc with_now].
    apply (timeout_steps_elements _ (with_timers p _)).
Qed.

(** X9.  No sequence of events makes an element the script looked up
    appear or disappear. *)
Theorem elements_never_change (evs : list Event) (p : Page) :
  same_elements (doc p) (doc (run evs p)).
Proof.
  revert p. induction evs as [|ev evs IH]; intros p;
    [apply same_elements_refl|].
  rewrite run_cons. eapply same_elements_trans; [apply handle_elements | apply IH].
Qed.

(** What an event other than the passing of time does to the modal and to
    the pending callbacks: nothing, [openModal], or [closeModal]. *)
Lemma handle_modal_cases (ev : Event) (p : Page) :
  (exists ms, ev = Elapse ms)
  \/ (modal (doc (handle ev p)) = modal (doc p)
      /\ timers (handle ev p) = timers p /\ now (handle ev p) = now p)
  \/ (is_Some (modal (doc p)) /\ handle ev p = settle p (openModal p))
  \/ (is_Some (modal (doc p)) /\ handle ev p = settle p (closeModal p)).
Proof.
  assert (forall q, q = p ->
            modal (doc q) = modal (doc p)
            /\ timers q = timers p /\ now q = now p) as Hsame
    by (by intros q ->).
  assert (settle p (openModal p) = p
          \/ is_Some (modal (doc p))) as Hopen.
  { destruct (settle_openModal p) as [->|(m & Hm & _)]; [by left|right; eauto]. }
  assert (settle p (closeModal p) = p
          \/ is_Some (modal (doc p))) as Hclose.
  { destruct (settle_closeModal p) as [->|(m & Hm & _)]; [by left|right; eauto]. }
  destruct ev as [[]|key|value|ms]; cbn [handle]; [..|left; eauto].
  - right; left. destruct (calcBtn (doc p)); [|by apply Hsame].
    unfold on_calc. by destruct (durationInput (doc p)).
  - right; left. destruct (scopeBtn (doc p)); [|by apply Hsame].
    unfold on_scope. by repeat case_match.
  - right; left. destruct (animateBtn (doc p)); [|by apply Hsame].
    unfold on_animate. destruct (box (doc p)) as [b|]; [|done].
    destruct (classList_remove [str "run"] b) as [b1|];
      cbn [mbind Completion_bind settle]; [|done].
    by destruct (classList_add [str "run"] b1) as [b2|].
  - right; left. destruct (flipBtn (doc p)); [|by apply Hsame].
    unfold on_flip. by destruct (toggleClass _ _ _) as [[b c]|].
  - right; left. destruct (startLoader (doc p)); [|by apply Hsame].
    unfold on_loader. by destruct (toggleClass _ _ _) as [[b c]|].
  - right; left. destruct (stopLoader (doc p)); [|by apply Hsame].
    unfold on_loader. by destruct (toggleClass _ _ _) as [[b c]|].
  - destruct (openModalBtn (doc p)); [|right; left; by apply Hsame].
    destruct Hopen as [->|Hm]; [right; left; by apply Hsame|].
    right; right; left. done.
  - destruct (closeModalBtn (doc p)); [|right; left; by apply Hsame].
    destruct Hclose as [->|Hm]; [right; left; by apply Hsame|].
    right; right; right. done.
  - destruct (backdrop (doc p)); [|right; left; by apply Hsame].
    destruct Hclose as [->|Hm]; [right; left; by apply Hsame|].
    right; right; right. done.
  - unfold on_keydown.
    destruct (jsstring_eqb key (str "Escape")); [|right; left; by apply Hsame].
    destruct (modal (doc p)) as [m|] eqn:Hm; [|right; left; by apply Hsame].
    destruct (classList_contains (str "open") m); [|right; left; by apply Hsame].
    right; right; right. split; [eauto|done].
  - right; left. by destruct (durationInput (doc p)).
Qed.

Lemma elapse_timers (ms : N) (p : Page) :
  timers (elapse ms p) = filter (fun x => ¬ (x <= now p + ms)%N) (timers p).
Proof.
  rewrite elapse_eq. cbn [timers with_now].
  by destruct (frame_timeout_steps
    (filter (fun x => (x <= now p + ms)%N) (timers p))
    (with_timers p (filter (fun x => ¬ (x <= now p + ms)%N) (timers p))))
    as [_ ->].
Qed.

Lemma timers_bounded_handle (ev : Event) (p : Page) :
  timers_bounded p -> timers_bounded (handle ev p).
Proof.
  unfold timers_bounded. intros Hb.
  destruct (handle_modal_cases ev p)
    as [[ms ->]|[(_ & -> & ->)|[[_ ->]|[[m Hm] ->]]]].
  - cbn [handle]. rewrite elapse_timers.
    replace (now (elapse ms p)) with (now p + ms)%N by done.
    apply Forall_forall. intros t Ht. apply list_elem_of_filter in Ht as [Hgt Hin].
    rewrite Forall_forall in Hb. specialize (Hb t Hin). lia.
  - done.
  - destruct (settle_openModal p) as [->|(m & Hm & ->)]; done.
  - rewrite (closeModal_eq p m Hm). cbn.
    apply Forall_app. split; [done|]. apply Forall_singleton. lia.
Qed.

Lemma timers_bounded_run (evs : list Event) (p : Page) :
  timers_bounded p -> timers_bounded (run evs p).
Proof.
  revert p. induction evs as [|ev evs IH]; intros p Hp; [done|].
  rewrite run_cons. apply IH. by apply timers_bounded_handle.
Qed.

Lemma filter_none {A} (P : A -> Prop) `{forall x, Decision (P x)} (l : list A) :
  Forall (fun x => ~ P x) l -> filter P l = [].
Proof.
  induction 1 as [|x l Hx Hl IH]; [done|]. by rewrite filter_cons_False.
Qed.

Lemma filter_all {A} (P : A -> Prop) `{forall x, Decision (P x)} (l : list A) :
  Forall P l -> filter P l = l.
Proof.
  induction 1 as [|x l Hx Hl IH]; [done|]. rewrite filter_cons_True by done.
  by f_equal.
Qed.

(** X10.  After any events on a freshly loaded page every pending
    callback is due later than now and at most 260 ms ahead; once 260 ms
    pass, none is pending. *)
Theorem callbacks_due_within_260 (d : Document) (evs : list Event) :
  timers_bounded (run evs (load d))
  /\ timers (handle (Elapse 260) (run evs (load d))) = [].
Proof.
  assert (timers_bounded (run evs (load d))) as Hb.
  { apply timers_bounded_run. by apply Forall_nil. }
  split; [done|]. cbn [handle]. rewrite elapse_timers.
  apply filter_none. unfold timers_bounded in Hb.
  eapply Forall_impl; [exact Hb|]. cbn. intros t Ht. lia.
Qed.

Lemma fully_closed_not_closing (p : Page) (m : Element) :
  fully_closed p = true -> modal (doc p) = Some m ->
  classList_contains (str "closing") m = false.
Proof.
  unfold fully_closed. intros H Hm. rewrite Hm in H.
  apply andb_true_iff in H as [H _]. apply andb_true_iff in H as [_ H].
  by apply negb_true_iff in H.
Qed.

Lemma closing_has_callback_handle (ev : Event) (p : Page) :
  closing_has_callback p -> closing_has_callback (handle ev p).
Proof.
  unfold closing_has_callback. intros Hp.
  destruct (handle_modal_cases ev p)
    as [[ms ->]|[(-> & -> & _)|[[[m0 Hm0] ->]|[[m0 Hm0] ->]]]]; [|done| |].
  - cbn [handle]. intros m Hm Hc.
    rewrite elapse_timers. rewrite elapse_eq in Hm. cbn [doc with_now] in Hm.
    destruct (filter (fun x => (x <= now p + ms)%N) (timers p)) as [|t due] eqn:Hdue.
    + cbn [foldl doc with_timers] in Hm.
      rewrite filter_all; [by eapply Hp|].
      apply Forall_forall. intros t Ht Hle.
      assert (t ∈ filter (fun x => (x <= now p + ms)%N) (timers p)) as Hin
        by (by apply list_elem_of_filter).
      rewrite Hdue in Hin. by apply elem_of_nil in Hin.
    + cbn [foldl] in Hm.
      assert (fully_closed (foldl (fun q _ => timeout_step q)
                (timeout_step (with_timers p
                   (filter (fun x => ¬ (x <= now p + ms)%N) (timers p)))) due)
              = true) as Hfc.
      { apply timeout_steps_closed. apply timeout_step_closed.
        pose proof (timeout_steps_elements (t :: due)
          (with_timers p (filter (fun x => ¬ (x <= now p + ms)%N) (timers p))))
          as He.
        cbn [foldl] in He. unfold same_elements in He.
        destruct He as (_&_&_&_&_&_&_&_&_&_&_&_&_&He).
        apply He. eauto. }
      rewrite (fully_closed_not_closing _ m Hfc Hm) in Hc. done.
  - rewrite (openModal_eq p m0 Hm0). cbn. intros m [= <-].
    unfold classList_contains. cbn [classList].
    rewrite bool_decide_eq_false_2; [done|].
    rewrite elem_of_token_append, elem_of_token_remove.
    intros [[_ H]|H]; [done | discriminate H].
  - rewrite (closeModal_eq p m0 Hm0). cbn. intros m _ _ H.
    by apply app_eq_nil in H as [_ H].
Qed.

Lemma closing_has_callback_run (evs : list Event) (p : Page) :
  closing_has_callback p -> closing_has_callback (run evs p).
Proof.
  revert p. induction evs as [|ev evs IH]; intros p Hp; [done|].
  rewrite run_cons. apply IH. by apply closing_has_callback_handle.
Qed.

(** X11.  On a page whose modal starts without the class [closing], whenever
    the modal carries that class a callback is pending, and 260 ms later
    the modal is fully closed. *)
Theorem closing_never_stuck (d : Document) (evs : list Event) (m : Element) :
  (forall m0, modal d = Some m0 -> classList_contains (str "closing") m0 = false) ->
  modal (doc (run evs (load d))) = Some m ->
  classList_contains (str "closing") m = true ->
  timers (run evs (load d)) <> []
  /\ fully_closed (handle (Elapse 260) (run evs (load d))) = true.
Proof.
  intros Hinit Hm Hc.
  assert (closing_has_callback (run evs (load d))) as Hcb.
  { apply closing_has_callback_run. intros m0 Hm0 Hc0. cbn in Hm0.
    rewrite (Hinit m0 Hm0) in Hc0. done. }
  assert (timers_bounded (run evs (load d))) as Hb.
  { apply timers_bounded_run. by apply Forall_nil. }
  specialize (Hcb m Hm Hc). split; [done|].
  destruct (timers (run evs (load d))) as [|t l] eqn:Ht; [done|].
  cbn [handle]. apply (elapse_closes _ _ t); [eauto| |].
  - rewrite Ht. by left.
  - unfold timers_bounded in Hb. rewrite Ht in Hb.
    apply Forall_cons in Hb as [Hb _]. lia.
Qed.

Lemma closing_never_stuck_witness :
  (forall m0, modal full_document = Some m0 ->
     classList_contains (str "closing") m0 = false)
  /\ modal (doc (run [Click OpenModalBtn; Click CloseModalBtn; Elapse 100]
                     (load full_document))) = Some closing_modal
  /\ classList_contains (str "closing") closing_modal = true
  /\ timers (run [Click OpenModalBtn; Click CloseModalBtn; Elapse 100]
                 (load full_document)) <> []
  /\ fully_closed (handle (Elapse 260)
       (run [Click OpenModalBtn; Click CloseModalBtn; Elapse 100]
            (load full_document))) = true.
Proof.
  assert (forall m0, modal full_document = Some m0 ->
            classList_contains (str "closing") m0 = false) as H0.
  { intros m0 H. injection H as <-. reflexivity. }
  split; [exact H0|]. split; [vm_compute; reflexivity|].
  split; [reflexivity|].
  apply (closing_never_stuck full_document
           [Click OpenModalBtn; Click CloseModalBtn; Elapse 100] closing_modal);
    [exact H0 | vm_compute; reflexivity | reflexivity].
Defined.

(** *** The Escape key *)

(** X13.  A key press closes the modal exactly when the key is Escape and the
    modal has the class [open]: one callback is scheduled 260 ms ahead and
    after that time the modal is fully closed; any other key press changes
    nothing. *)
Theorem escape_key (p : Page) (m : Element) (key : jsstring) :
  modal (doc p) = Some m ->
  let q := handle (KeyDown key) p in
  if jsstring_eqb key (str "Escape") && classList_contains (str "open") m
  then timers q = timers p ++ [(now p + 260)%N]
       /\ fully_closed q = false
       /\ fully_closed (handle (Elapse 260) q) = true
  else q = p.
Proof.
  intros Hm q. subst q. cbn [handle]. unfold on_keydown. rewrite Hm.
  destruct (jsstring_eqb key (str "Escape")); [|done].
  destruct (classList_contains (str "open") m) eqn:Hopen; [|done].
  cbn [andb]. rewrite (closeModal_eq p m Hm). cbn [settle].
  split_and!; [done| |].
  - unfold fully_closed, classList_contains in *.
    cbn [doc with_doc with_timers modal with_modal classList attributes].
    rewrite (bool_decide_eq_true_2 (str "open" ∈ token_append _ _)); [done|].
    apply elem_of_token_append. left. by apply bool_decide_eq_true in Hopen.
  - apply (elapse_closes _ _ (now p + 260)%N).
    + cbn. eauto.
    + cbn. apply elem_of_app. right. by apply list_elem_of_singleton.
    + cbn. lia.
Qed.

Lemma escape_key_witness :
  modal (doc (run [Click OpenModalBtn] (load full_document))) = Some open_modal
  /\ let q := handle (KeyDown (str "Escape")) (run [Click OpenModalBtn] (load full_document)) in
     if jsstring_eqb (str "Escape") (str "Escape")
        && classList_contains (str "open") open_modal
     then timers q
          = timers (run [Click OpenModalBtn] (load full_document))
            ++ [(now (run [Click OpenModalBtn] (load full_document)) + 260)%N]
          /\ fully_closed q = false
          /\ fully_closed (handle (Elapse 260) q) = true
     else q = run [Click OpenModalBtn] (load full_document).
Proof.
  split; [vm_compute; reflexivity|].
  apply (escape_key (run [Click OpenModalBtn] (load full_document)) open_modal
           (str "Escape")).
  vm_compute. reflexivity.
Defined.

(** *** The scope listener *)

Lemma scope_clicks_nonneg (evs : list Event) : 0 <= scope_clicks evs.
Proof.
  induction evs as [|[[]| | |] evs IH]; cbn [scope_clicks]; lia.
Qed.

Lemma scope_click_dec (ev : Event) : ev = Click ScopeBtn \/ ev <> Click ScopeBtn.
Proof. destruct ev as [[]| | |]; (by left) || (by right). Qed.

Lemma handle_counters (ev : Event) (p : Page) :
  ev <> Click ScopeBtn ->
  counters (handle ev p) = counters p
  /\ incrementRuns (handle ev p) = incrementRuns p.
Proof.
  intros Hne. destruct (dom_only ev) eqn:Hd.
  - pose proof (frame_handle ev p Hd) as [].  done.
  - destruct ev as [[]| | |]; try done; cbn [handle].
    + destruct (calcBtn (doc p)); [|done]. unfold on_calc.
      by destruct (durationInput (doc p)).
    + rewrite elapse_eq. cbn [counters incrementRuns with_now].
      pose proof (frame_timeout_steps
        (filter (fun x => (x <= now p + ms)%N) (timers p))
        (with_timers p (filter (fun x => ¬ (x <= now p + ms)%N) (timers p))))
        as [[] _].
      done.
Qed.

Lemma on_scope_counts (p : Page) (k : Z) :
  counters p !! incrementRuns p = Some (Z2F k) ->
  - 2 ^ 53 <= k -> k + 2 <= 2 ^ 53 ->
  counters (on_scope p) !! incrementRuns (on_scope p) = Some (Z2F (k + 2))
  /\ incrementRuns (on_scope p) = incrementRuns p.
Proof.
  intros Hc Hlo Hhi. unfold on_scope.
  assert (incrementRuns p < length (counters p))%nat as Hlen
    by (by eapply lookup_lt_Some).
  rewrite (inc_eq _ _ k Hc) by lia.
  rewrite (inc_eq _ _ (k + 1)); [|by apply list_lookup_insert_eq|lia].
  cbn [counters incrementRuns with_counters]. split; [|done].
  replace (k + 1 + 1) with (k + 2) by lia.
  apply list_lookup_insert_eq. by rewrite length_insert.
Qed.

Lemma scope_counter_from (evs : list Event) (p : Page) (k : Z) :
  scopeBtn (doc p) = true ->
  counters p !! incrementRuns p = Some (Z2F k) ->
  - 2 ^ 53 <= k -> k + 2 * scope_clicks evs <= 2 ^ 53 ->
  counters (run evs p) !! incrementRuns (run evs p)
  = Some (Z2F (k + 2 * scope_clicks evs)).
Proof.
  revert p k. induction evs as [|ev evs IH]; intros p k Hbtn Hc Hlo Hhi.
  - cbn. rewrite Z.add_0_r. done.
  - rewrite run_cons.
    pose proof (scope_clicks_nonneg evs) as Hnn.
    assert (scopeBtn (doc (handle ev p)) = true) as Hbtn'.
    { pose proof (handle_elements ev p) as (_ & H & _). congruence. }
    destruct (scope_click_dec ev) as [->|Hne].
    + cbn [scope_clicks] in Hhi |- *. cbn [handle] in Hbtn' |- *.
      rewrite Hbtn in Hbtn' |- *.
      destruct (on_scope_counts p k Hc Hlo ltac:(lia)) as [Hc' Hi].
      rewrite (IH (on_scope p) (k + 2)); try done; [f_equal; f_equal; lia|lia|lia].
    + destruct (handle_counters ev p Hne) as [Hc' Hi].
      assert (scope_clicks (ev :: evs) = scope_clicks evs) as Hs.
      { destruct ev as [[]| | |]; done. }
      rewrite Hs in Hhi |- *. apply IH; try done. by rewrite Hc', Hi.
Qed.

Lemma scope_counter_absent (evs : list Event) (p : Page) :
  scopeBtn (doc p) = false ->
  counters (run evs p) = counters p /\ incrementRuns (run evs p) = incrementRuns p.
Proof.
  revert p. induction evs as [|ev evs IH]; intros p Hbtn; [done|].
  rewrite run_cons.
  assert (scopeBtn (doc (handle ev p)) = false) as Hbtn'.
  { pose proof (handle_elements ev p) as (_ & H & _). congruence. }
  destruct (IH _ Hbtn') as [-> ->].
  destruct (scope_click_dec ev) as [->|Hne].
  - cbn [handle]. by rewrite Hbtn.
  - by apply handle_counters.
Qed.

(** X14.  After any events on a freshly loaded page the closure counter holds
    twice the number of clicks on the scope button (up to 2^53), or 0
    when the button does not exist; no other listener touches it. *)
Theorem scope_counter (d : Document) (evs : list Event) :
  2 * scope_clicks evs <= 2 ^ 53 ->
  let p := run evs (load d) in
  counters p !! incrementRuns p
  = Some (Z2F (if scopeBtn d then 2 * scope_clicks evs else 0)).
Proof.
  intros Hhi p. subst p. destruct (scopeBtn d) eqn:Hbtn.
  - rewrite (scope_counter_from evs (load d) 0); try done; lia.
  - destruct (scope_counter_absent evs (load d) Hbtn) as [-> ->]. done.
Qed.

Lemma scope_counter_witness :
  2 * scope_clicks sample_events <= 2 ^ 53
  /\ let p := run sample_events (load full_document) in
     counters p !! incrementRuns p
     = Some (Z2F (if scopeBtn full_document then 2 * scope_clicks sample_events
                  else 0)).
Proof.
  split; [vm_compute; discriminate|].
  apply (scope_counter full_document sample_events). vm_compute. discriminate.
Defined.

(** *** The animate listener *)

Lemma on_animate_eq (p : Page) (b : Element) :
  box (doc p) = Some b ->
  on_animate p
  = with_doc
      (with_boxStyle p
         (boxStyle p
          ++ [(str "animation-duration",
               msToSecondsString (JNum (lastDurationMs (AppState p))));
              (str "--ease", str "cubic-bezier(.2,.8,.2,1)")]))
      (with_box (doc p) (Some
         {| classList := token_remove (classList b) (str "run") ++ [str "run"];
            attributes := attributes b |})).
Proof.
  intros Hb. unfold on_animate. rewrite Hb.
  cbv zeta. rewrite classList_remove_valid by reflexivity.
  cbn [mbind Completion_bind]. rewrite classList_add_valid by reflexivity.
  cbn [mbind Completion_bind settle with_boxStyle boxStyle doc foldl
       with_classList classList attributes].
  rewrite <- app_assoc. cbn [app].
  unfold token_append. rewrite bool_decide_eq_false_2; [done|].
  rewrite elem_of_token_remove. intros [_ H]. by apply H.
Qed.



(** *** The class toggler *)

(** X18.  [toggleClass] keeps the class list free of duplicates, and changes
    the membership of no class other than the one named. *)
Theorem toggleClass_NoDup (el el' : Element) (className : jsstring)
    (force : JSValue) (b : bool) :
  NoDup (classList el) ->
  toggleClass (Some el) className force = Normal (b, Some el') ->
  NoDup (classList el')
  /\ (forall c, c ≠ className -> c ∈ classList el' <-> c ∈ classList el).
Proof.
  intros Hnd Ht.
  assert (forall o r, classList_toggle className o el = Normal r ->
            NoDup (classList r.2)
            /\ (forall c, c ≠ className -> c ∈ classList r.2 <-> c ∈ classList el))
    as Hcore.
  { intros o r. unfold classList_toggle.
    destruct (validate_token className) as [[]|]; cbn [mbind Completion_bind]; [|done].
    assert (NoDup (token_remove (classList el) className)) as Hrem
      by (by apply NoDup_filter).
    destruct (classList_contains className el) eqn:Hc;
      destruct o as [[]|]; intros [= <-]; cbn [snd classList with_classList];
      try (split; [done|tauto]).
    - split; [done|]. intros c Hne. rewrite elem_of_token_remove. tauto.
    - split; [done|]. intros c Hne. rewrite elem_of_token_remove. tauto.
    - assert (className ∉ classList el) as Hn.
      { intros Hin. apply contains_iff in Hin. congruence. }
      split.
      + unfold token_append. rewrite bool_decide_eq_false_2 by done.
        apply NoDup_app. split_and!; [done| |apply NoDup_singleton].
        intros x Hx Hx'. apply list_elem_of_singleton in Hx'. by subst.
      + intros c Hne. rewrite elem_of_token_append. tauto.
    - assert (className ∉ classList el) as Hn.
      { intros Hin. apply contains_iff in Hin. congruence. }
      split.
      + unfold token_append. rewrite bool_decide_eq_false_2 by done.
        apply NoDup_app. split_and!; [done| |apply NoDup_singleton].
        intros x Hx Hx'. apply list_elem_of_singleton in Hx'. by subst.
      + intros c Hne. rewrite elem_of_token_append. tauto. }
  unfold toggleClass in Ht.
  destruct force as [| |b0|x|s];
    try (destruct (classList_toggle className None el) as [[b1 e1]|] eqn:Heq;
         cbn in Ht; [|done]; injection Ht as <- <-;
         apply (Hcore None (b1, e1) Heq)).
  destruct (classList_toggle className (Some b0) el) as [[b1 e1]|] eqn:Heq;
    cbn in Ht; [|done]. injection Ht as <- <-.
  apply (Hcore (Some b0) (b1, e1) Heq).
Qed.

Lemma toggleClass_NoDup_witness :
  NoDup (classList spinner)
  /\ toggleClass (Some spinner) (str "on") JUndefined
     = Normal (true, Some {| classList := [str "spinner"; str "on"];
                             attributes := ∅ |})
  /\ NoDup [str "spinner"; str "on"]
  /\ (forall c, c ≠ str "on" ->
        c ∈ [str "spinner"; str "on"] <-> c ∈ classList spinner).
Proof.
  assert (NoDup (classList spinner)) as H by (apply NoDup_singleton).
  split; [exact H|]. split; [reflexivity|].
  apply (toggleClass_NoDup spinner
           {| classList := [str "spinner"; str "on"]; attributes := ∅ |}
           (str "on") JUndefined true H).
  reflexivity.
Defined.

(** ** Monotonicity of the duration *)

Lemma shr_exact (mx ex n : Z) :
  0 <= mx -> 0 < n ->
  shr (shr_record_of_loc mx loc_Exact) ex n
  = ({| shr_m := mx / 2 ^ n; shr_r := Z.testbit mx (n - 1);
        shr_s := negb (mx mod 2 ^ (n - 1) =? 0) |}, ex + n).
Proof.
  intros Hmx Hn. destruct n as [|p|p]; try lia.
  unfold shr. cbn [shr_record_of_loc]. rewrite shr_iter by done. done.
Qed.

Lemma round_rne (mx n : Z) :
  0 <= mx -> 0 < n ->
  round_nearest_even (mx / 2 ^ n)
    (loc_of_shr_record {| shr_m := mx / 2 ^ n; shr_r := Z.testbit mx (n - 1);
                          shr_s := negb (mx mod 2 ^ (n - 1) =? 0) |})
  = rne mx n.
Proof.
  intros Hmx Hn. unfold rne. cbv zeta.
  pose proof (mod_pow2_succ mx (n - 1) ltac:(lia)) as Hmod.
  replace (n - 1 + 1) with n in Hmod by lia. rewrite Hmod.
  pose proof (Z.mod_pos_bound mx (2 ^ (n - 1)) (pow2_pos (n - 1) ltac:(lia))) as Hb.
  rewrite <- Z.negb_even.
  destruct (Z.testbit mx (n - 1)); cbn [Z.b2z loc_of_shr_record];
    destruct (Z.eqb_spec (mx mod 2 ^ (n - 1)) 0) as [H0|H0];
    cbn [negb round_nearest_even].
  - rewrite H0, Z.add_0_l, Z.mul_1_r, Z.ltb_irrefl, Z.eqb_refl. cbn [orb andb].
    by destruct (Z.even (mx / 2 ^ n)).
  - destruct (Z.ltb_spec (2 ^ (n - 1)) (mx mod 2 ^ (n - 1) + 2 ^ (n - 1) * 1));
      [done|lia].
  - rewrite H0, Z.add_0_l, Z.mul_0_r.
    destruct (Z.ltb_spec (2 ^ (n - 1)) 0); [lia|].
    destruct (Z.eqb_spec 0 (2 ^ (n - 1))); [lia|done].
  - rewrite Z.mul_0_r, Z.add_0_r.
    destruct (Z.ltb_spec (2 ^ (n - 1)) (mx mod 2 ^ (n - 1))); [lia|].
    destruct (Z.eqb_spec (mx mod 2 ^ (n - 1)) (2 ^ (n - 1))); [lia|done].
Qed.

Lemma rne_bounds (V n : Z) : V / 2 ^ n <= rne V n <= V / 2 ^ n + 1.
Proof. unfold rne. cbv zeta. destruct (_ || _); lia. Qed.

Lemma rne_scale (V n k : Z) :
  0 < n -> 0 <= k -> rne (V * 2 ^ k) (n + k) = rne V n.
Proof.
  intros Hn Hk. unfold rne. cbv zeta.
  pose proof (pow2_pos k Hk) as Hpk. pose proof (pow2_pos n ltac:(lia)) as Hpn.
  pose proof (pow2_pos (n - 1) ltac:(lia)) as Hpn1.
  rewrite Z.pow_add_r by lia.
  rewrite Z.div_mul_cancel_r by lia.
  rewrite Z.mul_mod_distr_r by lia.
  replace (n + k - 1) with (n - 1 + k) by lia. rewrite Z.pow_add_r by lia.
  assert ((2 ^ (n - 1) * 2 ^ k <? V mod 2 ^ n * 2 ^ k)
          = (2 ^ (n - 1) <? V mod 2 ^ n)) as ->.
  { apply eq_true_iff_eq. rewrite !Z.ltb_lt. nia. }
  assert ((V mod 2 ^ n * 2 ^ k =? 2 ^ (n - 1) * 2 ^ k)
          = (V mod 2 ^ n =? 2 ^ (n - 1))) as ->.
  { apply eq_true_iff_eq. rewrite !Z.eqb_eq. nia. }
  done.
Qed.

Lemma rne_mono (V1 V2 n : Z) :
  0 < n -> V1 <= V2 -> rne V1 n <= rne V2 n.
Proof.
  intros Hn HV. pose proof (pow2_pos n ltac:(lia)) as Hpn.
  pose proof (Z.div_le_mono V1 V2 (2 ^ n) Hpn HV) as Hq.
  destruct (Z.eq_dec (V1 / 2 ^ n) (V2 / 2 ^ n)) as [Heq|Hne].
  - pose proof (Z.div_mod V1 (2 ^ n) ltac:(lia)) as H1.
    pose proof (Z.div_mod V2 (2 ^ n) ltac:(lia)) as H2.
    assert (V1 mod 2 ^ n <= V2 mod 2 ^ n) as Hr by (rewrite Heq in H1; lia).
    unfold rne. cbv zeta. rewrite Heq.
    destruct (Z.ltb_spec (2 ^ (n - 1)) (V1 mod 2 ^ n)) as [Ha|Ha];
      destruct (Z.ltb_spec (2 ^ (n - 1)) (V2 mod 2 ^ n)) as [Hb|Hb];
      cbn [orb]; try lia;
      destruct (Z.eqb_spec (V1 mod 2 ^ n) (2 ^ (n - 1))) as [Hc|Hc];
      destruct (Z.eqb_spec (V2 mod 2 ^ n) (2 ^ (n - 1))) as [Hd|Hd];
      cbn [andb]; try lia; destruct (Z.odd (V2 / 2 ^ n)); lia.
  - pose proof (rne_bounds V1 n). pose proof (rne_bounds V2 n). lia.
Qed.

(** A number of at least 54 bits has a 53-bit quotient. *)
Lemma quotient_53 (V : Z) :
  2 ^ 53 <= V ->
  0 < Zdigits2 V - 53 /\ 2 ^ 52 <= V / 2 ^ (Zdigits2 V - 53) < 2 ^ 53.
Proof.
  intros HV. pose proof (Zdigits2_bounds V ltac:(lia)) as [Hlb Hub].
  assert (53 < Zdigits2 V) as HD.
  { destruct (Z.le_gt_cases (Zdigits2 V) 53) as [Hle|]; [|lia].
    assert (2 ^ Zdigits2 V <= 2 ^ 53) by (apply Z.pow_le_mono_r; lia). lia. }
  split; [lia|]. split.
  - replace 52 with (Zdigits2 V - 1 - (Zdigits2 V - 53)) by lia.
    apply div_pow2_ge; lia.
  - replace 53 with (Zdigits2 V - (Zdigits2 V - 53)) at 2 by lia.
    apply div_pow2_lt; lia.
Qed.

Lemma round53_bounds (V : Z) :
  2 ^ 53 <= V -> 2 ^ (Zdigits2 V - 1) <= round53 V <= 2 ^ Zdigits2 V.
Proof.
  intros HV. destruct (quotient_53 V HV) as [Hn Hq]. unfold round53. cbv zeta.
  set (n := Zdigits2 V - 53) in *. pose proof (rne_bounds V n) as Hr.
  pose proof (pow2_pos n ltac:(lia)) as Hpn.
  assert (2 ^ (Zdigits2 V - 1) = 2 ^ 52 * 2 ^ n) as ->.
  { rewrite <- Z.pow_add_r by lia. f_equal. unfold n. lia. }
  assert (2 ^ Zdigits2 V = 2 ^ 53 * 2 ^ n) as ->.
  { rewrite <- Z.pow_add_r by lia. f_equal. unfold n. lia. }
  split; apply Z.mul_le_mono_nonneg_r; lia.
Qed.

Lemma round53_mono (V1 V2 : Z) :
  2 ^ 53 <= V1 -> V1 <= V2 -> round53 V1 <= round53 V2.
Proof.
  intros H1 H12. pose proof (Zdigits2_mono V1 V2 ltac:(lia)) as HD.
  destruct (Z.eq_dec (Zdigits2 V1) (Zdigits2 V2)) as [Heq|Hne].
  - destruct (quotient_53 V1 H1) as [Hn Hq]. unfold round53. cbv zeta.
    rewrite <- Heq. pose proof (rne_mono V1 V2 _ Hn H12).
    pose proof (pow2_pos (Zdigits2 V1 - 53) ltac:(lia)).
    apply Z.mul_le_mono_nonneg_r; lia.
  - pose proof (round53_bounds V1 H1) as [_ Hu].
    pose proof (round53_bounds V2 ltac:(lia)) as [Hl _].
    assert (2 ^ Zdigits2 V1 <= 2 ^ (Zdigits2 V2 - 1))
      by (apply Z.pow_le_mono_r; lia).
    lia.
Qed.

Lemma duration_scaled_mono (V1 V2 : Z) :
  2 ^ 53 <= V1 -> V1 <= V2 -> duration_scaled V1 <= duration_scaled V2.
Proof.
  intros H1 H12. unfold duration_scaled. apply Z.div_le_mono; [lia|].
  pose proof (round53_mono V1 V2 H1 H12). lia.
Qed.

(** The exact product of a multiplication, rounded: the mantissa is the
    product rounded to 53 bits. *)
Lemma round_aux_round53 (mx ex : Z) :
  2 ^ 53 <= mx -> -1074 < Zdigits2 mx + ex - 53 ->
  let n := Zdigits2 mx - 53 in
  exists m3 e3,
    binary_round_aux prec emax false mx ex loc_Exact = finish false m3 e3
    /\ 0 < m3 /\ ex + n <= e3 <= ex + n + 1
    /\ m3 * 2 ^ (e3 - (ex + n)) = rne mx n.
Proof.
  intros Hmx Hnorm n. destruct (quotient_53 mx Hmx) as [Hn Hq]. fold n in Hn, Hq.
  pose proof (rne_bounds mx n) as Hr.
  unfold binary_round_aux, shr_fexp. rewrite fexp_eq.
  replace (Z.max (Zdigits2 mx + ex - 53) (-1074) - ex) with n by (unfold n; lia).
  rewrite shr_exact by lia. cbn [shr_m]. rewrite round_rne by lia.
  set (m2 := rne mx n) in *. set (e1 := ex + n).
  assert (-1074 < e1) as He1 by (unfold e1, n; lia).
  destruct (Z.eq_dec m2 (2 ^ 53)) as [Hc|Hc].
  - rewrite Hc. change (Zdigits2 (2 ^ 53)) with 54. rewrite fexp_eq.
    replace (Z.max (54 + e1 - 53) (-1074) - e1) with 1 by lia.
    rewrite shr_exact by lia. cbn [shr_m].
    change (2 ^ 53 / 2 ^ 1) with (Zpos (2 ^ 52)).
    exists (2 ^ 52), (e1 + 1). split; [done|]. split; [done|]. split; [lia|].
    replace (e1 + 1 - e1) with 1 by lia. done.
  - assert (Zdigits2 m2 = 53) as Hd by (apply Zdigits2_unique; lia).
    rewrite Hd, fexp_eq.
    replace (Z.max (53 + e1 - 53) (-1074) - e1) with 0 by lia.
    cbn [shr shr_record_of_loc shr_m].
    exists m2, e1. split; [done|]. split; [lia|]. split; [lia|].
    rewrite Z.sub_diag. change (2 ^ 0) with 1. lia.
Qed.

(** The duration computed from a multiplier of the clamp range, in closed
    form. *)
Lemma round_mul_900_scaled (c : Number) :
  in_clamp_range c ->
  Math_round (num_mul (decimal2F false 900 0) c) = Z2F (duration_scaled (scaled c))
  /\ 2 ^ 104 <= scaled c < 2 ^ 110.
Proof.
  intros (m & e & -> & Hm & He). rewrite lit_900.
  unfold num_mul, SFmul. cbn [xorb scaled].
  rewrite Pos2Z.inj_mul.
  change (900 * 2 ^ 43) with (Zpos 7916483719987200).
  set (mx := Zpos 7916483719987200 * Zpos m). set (ex := -43 + e).
  set (k := e + 54).
  assert (0 <= k <= 4) as Hk by (unfold k; lia).
  assert (2 ^ 104 <= mx < 2 ^ 106) as Hmx by (unfold mx; lia).
  assert (2 ^ 104 <= mx * 2 ^ k < 2 ^ 110) as HV.
  { unfold mx, k. destruct He as [He | [ -> Hm4 ] ].
    - assert (e = -54 \/ e = -53 \/ e = -52 \/ e = -51) as Hc by lia.
      destruct Hc as [ -> | [ -> | [ -> | -> ] ] ]; cbn; lia.
    - cbn. lia. }
  split; [|exact HV].
  set (D := Zdigits2 mx).
  assert (D = 105 \/ D = 106) as HD.
  { destruct (Z.lt_ge_cases mx (2 ^ 105)).
    - left. apply Zdigits2_unique; lia.
    - right. apply Zdigits2_unique; lia. }
  destruct (round_aux_round53 mx ex) as (m3 & e3 & -> & Hm3 & He3 & Heq);
    [lia | fold D; unfold ex; lia |].
  fold D in He3, Heq. set (n := D - 53) in *.
  destruct m3 as [|p|p]; try lia. unfold finish.
  destruct (Z.leb_spec e3 (emax - prec)) as [_|Hbig];
    [|unfold emax, prec, ex, n in *; lia].
  unfold Math_round.
  destruct (Z.leb_spec 0 e3) as [Hpos|_]; [unfold ex, n in *; lia|].
  cbn [cond_Zopp].
  assert ((2 * Zpos p + 2 ^ (- e3)) / 2 ^ (1 - e3) = duration_scaled (mx * 2 ^ k))
    as ->.
  { unfold duration_scaled, round53.
    rewrite Zdigits2_mul_pow2 by lia. fold D.
    replace (D + k - 53) with (n + k) by (unfold n; lia).
    rewrite rne_scale by (unfold n; lia). rewrite <- Heq.
    set (T := e3 + 97).
    assert (0 <= T) as HT by (unfold T, ex, n in *; lia).
    assert (Zpos p * 2 ^ (e3 - (ex + n)) * 2 ^ (n + k) = Zpos p * 2 ^ T) as ->.
    { rewrite <- Z.mul_assoc. rewrite <- Z.pow_add_r by (unfold n, k in *; lia).
      do 2 f_equal. unfold T, ex, k. lia. }
    assert (2 ^ 97 = 2 ^ (- e3) * 2 ^ T) as ->.
    { rewrite <- Z.pow_add_r by lia. f_equal. unfold T. lia. }
    assert (2 ^ 98 = 2 ^ (1 - e3) * 2 ^ T) as ->.
    { rewrite <- Z.pow_add_r by lia. f_equal. unfold T. lia. }
    pose proof (pow2_pos T HT). pose proof (pow2_pos (1 - e3) ltac:(lia)).
    replace (2 * (Zpos p * 2 ^ T) + 2 ^ (- e3) * 2 ^ T)
      with ((2 * Zpos p + 2 ^ (- e3)) * 2 ^ T) by ring.
    rewrite Z.div_mul_cancel_r by lia. done. }
  by destruct (Z.eqb_spec (duration_scaled (mx * 2 ^ k)) 0) as [->|_].
Qed.

Lemma duration_scaled_bounds (V : Z) :
  2 ^ 53 <= V < 2 ^ 110 -> 0 <= duration_scaled V <= 2 ^ 53.
Proof.
  intros HV. pose proof (round53_bounds V ltac:(lia)) as [Hl Hu].
  pose proof (Zdigits2_bounds V ltac:(lia)) as [Hlb _].
  assert (Zdigits2 V <= 110) as HD.
  { destruct (Z.le_gt_cases (Zdigits2 V) 110); [done|].
    assert (2 ^ 110 <= 2 ^ (Zdigits2 V - 1)) by (apply Z.pow_le_mono_r; lia).
    lia. }
  assert (2 ^ Zdigits2 V <= 2 ^ 110) by (apply Z.pow_le_mono_r; lia).
  assert (0 <= round53 V).
  { pose proof (pow2_pos (Zdigits2 V - 1)
                  ltac:(pose proof (Zdigits2_pos V ltac:(lia)); lia)). lia. }
  unfold duration_scaled. split.
  - apply Z.div_pos; lia.
  - apply Z.div_le_upper_bound; lia.
Qed.

Lemma scaled_mono (c1 c2 : Number) :
  in_clamp_range c1 -> in_clamp_range c2 -> num_lt c2 c1 = false ->
  scaled c1 <= scaled c2.
Proof.
  intros (m1 & e1 & -> & Hm1 & He1) (m2 & e2 & -> & Hm2 & He2) Hlt.
  unfold num_lt in Hlt. rewrite SFltb_finite_pos in Hlt. bool_to_prop Hlt.
  cbn [scaled].
  assert (e1 = -54 \/ e1 = -53 \/ e1 = -52 \/ e1 = -51 \/ e1 = -50) as H1 by lia.
  assert (e2 = -54 \/ e2 = -53 \/ e2 = -52 \/ e2 = -51 \/ e2 = -50) as H2 by lia.
  destruct H1 as [ -> | [ -> | [ -> | [ -> | -> ] ] ] ];
    destruct H2 as [ -> | [ -> | [ -> | [ -> | -> ] ] ] ]; cbn; lia.
Qed.

Lemma clamp_spec_mono (x y lo hi : Number) :
  isNaN x = false -> isNaN y = false -> isNaN lo = false -> isNaN hi = false ->
  num_lt hi lo = false -> num_lt y x = false ->
  num_lt (clamp_spec y lo hi) (clamp_spec x lo hi) = false.
Proof.
  intros Hx Hy Hlo Hhi Hb Hxy. unfold clamp_spec.
  destruct (num_lt x lo) eqn:H1; destruct (num_lt y lo) eqn:H2;
    try destruct (num_lt hi x) eqn:H3; try destruct (num_lt hi y) eqn:H4;
    try (by apply num_lt_irrefl); try done;
    apply false_iff_not;
    repeat match goal with
           | H : num_lt _ _ = false |- _ => apply false_iff_not in H
           end;
    rewrite num_lt_spec in * by done; lia.
Qed.

Lemma Z2F_not_NaN (a : Z) : - 2 ^ 53 <= a <= 2 ^ 53 -> isNaN (Z2F a) = false.
Proof.
  intros Ha. pose proof (Number_to_Z_Z2F a Ha) as H.
  by destruct (Z2F a) as [[]|[]| |[] m e].
Qed.

Lemma Z2F_le (a b : Z) :
  - 2 ^ 53 <= a -> a <= b -> b <= 2 ^ 53 -> num_lt (Z2F b) (Z2F a) = false.
Proof.
  intros Ha Hab Hb. destruct (Z.eq_dec a b) as [->|Hne].
  - apply num_lt_irrefl. apply Z2F_not_NaN. lia.
  - apply before_not_num_lt; [apply Z2F_not_NaN; lia..|].
    apply num_lt_before; [apply Z2F_not_NaN; lia..|].
    apply Z2F_lt; lia.
Qed.

(** X19.  Among multipliers whose Numbers are neither 0 nor NaN, a greater
    multiplier never gives a smaller duration. *)
Theorem computeDurationMs_monotone (v w : JSValue) :
  valid_value v = true -> valid_value w = true ->
  num_truthy (ToNumber v) = true -> num_truthy (ToNumber w) = true ->
  num_lt (ToNumber w) (ToNumber v) = false ->
  num_lt (computeDurationMs w) (computeDurationMs v) = false.
Proof.
  intros Hv Hw Htv Htw Hle. unfold computeDurationMs. cbv zeta.
  unfold num_or. rewrite Htv, Htw.
  pose proof (num_truthy_not_NaN _ Htv) as Hnv.
  pose proof (num_truthy_not_NaN _ Htw) as Hnw.
  rewrite !clamp_is_clamp_spec by done.
  pose proof (clamp_spec_range _ (ToNumber_valid v Hv) Hnv) as Hcv.
  pose proof (clamp_spec_range _ (ToNumber_valid w Hw) Hnw) as Hcw.
  pose proof (clamp_spec_mono (ToNumber v) (ToNumber w)
                (decimal2F false 25 (-2)) (decimal2F false 4 0)
                Hnv Hnw eq_refl eq_refl eq_refl Hle) as Hc.
  set (cv := clamp_spec (ToNumber v) _ _) in *.
  set (cw := clamp_spec (ToNumber w) _ _) in *.
  destruct (round_mul_900_scaled cv Hcv) as [-> Hbv].
  destruct (round_mul_900_scaled cw Hcw) as [-> Hbw].
  pose proof (scaled_mono cv cw Hcv Hcw Hc) as HV.
  pose proof (duration_scaled_mono (scaled cv) (scaled cw) ltac:(lia) HV).
  pose proof (duration_scaled_bounds (scaled cv) ltac:(lia)).
  pose proof (duration_scaled_bounds (scaled cw) ltac:(lia)).
  apply Z2F_le; lia.
Qed.

Lemma computeDurationMs_monotone_witness :
  valid_value (JStr (str "0.3")) = true /\ valid_value (JNum (Z2F 2)) = true
  /\ num_truthy (ToNumber (JStr (str "0.3"))) = true
  /\ num_truthy (ToNumber (JNum (Z2F 2))) = true
  /\ num_lt (ToNumber (JNum (Z2F 2))) (ToNumber (JStr (str "0.3"))) = false
  /\ num_lt (computeDurationMs (JNum (Z2F 2)))
            (computeDurationMs (JStr (str "0.3"))) = false.
Proof.
  split_and!; [vm_compute; reflexivity..|].
  apply (computeDurationMs_monotone (JStr (str "0.3")) (JNum (Z2F 2)));
    vm_compute; reflexivity.
Defined.

(** ** The duration as a string *)

Lemma shown_hundredths_all : forallb shown_hundredths (seqZ 225 3376) = true.
Proof. vm_compute. reflexivity. Qed.

(** Every duration from 225 to 3600 ms is written as seconds with two
    decimals, within half a hundredth of a second. *)
Lemma msToSecondsString_hundredths (n : Z) :
  225 <= n <= 3600 ->
  exists cs, msToSecondsString (JNum (Z2F n)) = seconds_string cs
    /\ -5 <= 10 * cs - n <= 5.
Proof.
  intros Hn. pose proof shown_hundredths_all as Hall.
  rewrite forallb_forall in Hall.
  assert (shown_hundredths n = true) as Hs.
  { apply Hall. apply list_elem_of_In. apply elem_of_seqZ. lia. }
  unfold shown_hundredths in Hs. cbv zeta in Hs.
  apply orb_true_iff in Hs as [Hs|Hs];
    apply andb_true_iff in Hs as [Hs H2]; apply andb_true_iff in Hs as [Hs H1];
    apply bool_decide_eq_true in Hs; apply Z.leb_le in H1, H2; eauto.
Qed.

(** X20.  [msToSecondsString] applied to the result of
    [computeDurationMs] gives seconds with two decimals and the unit [s],
    within half a hundredth of a second of the duration. *)
Theorem duration_string (v : JSValue) :
  valid_value v = true ->
  exists n cs,
    computeDurationMs v = Z2F n /\ 225 <= n <= 3600
    /\ msToSecondsString (JNum (computeDurationMs v)) = seconds_string cs
    /\ -5 <= 10 * cs - n <= 5.
Proof.
  intros Hv. destruct (computeDurationMs_range v Hv) as (n & Hn & ->).
  destruct (msToSecondsString_hundredths n Hn) as (cs & Hs & Hcs).
  exists n, cs. done.
Qed.

Lemma duration_string_witness :
  valid_value (JStr (str "1.117")) = true
  /\ exists n cs,
       computeDurationMs (JStr (str "1.117")) = Z2F n /\ 225 <= n <= 3600
       /\ msToSecondsString (JNum (computeDurationMs (JStr (str "1.117"))))
          = seconds_string cs
       /\ -5 <= 10 * cs - n <= 5.
Proof.
  split; [reflexivity|].
  apply (duration_string (JStr (str "1.117"))). reflexivity.
Defined.

(** X21.  After any events on a freshly loaded page the string the
    animate listener computes from [AppState.lastDurationMs] is a number of
    seconds with two decimals and the unit [s], within half a hundredth of a
    second of the stored duration. *)
Theorem animation_duration_string (d : Document) (evs : list Event) :
  exists n cs,
    lastDurationMs (AppState (run evs (load d))) = Z2F n /\ 225 <= n <= 3600
    /\ msToSecondsString (JNum (lastDurationMs (AppState (run evs (load d)))))
       = seconds_string cs
    /\ -5 <= 10 * cs - n <= 5.
Proof.
  destruct (lastDurationMs_range d evs) as (n & Hn & ->).
  destruct (msToSecondsString_hundredths n Hn) as (cs & Hs & Hcs).
  exists n, cs. done.
Qed.

(** ** What each listener leaves alone *)

Lemma timeout_step_others (q : Page) :
  box (doc (timeout_step q)) = box (doc q)
  /\ jsFlipCard (doc (timeout_step q)) = jsFlipCard (doc q)
  /\ loader (doc (timeout_step q)) = loader (doc q)
  /\ durationInput (doc (timeout_step q)) = durationInput (doc q)
  /\ flipBtnText (doc (timeout_step q)) = flipBtnText (doc q)
  /\ boxStyle (timeout_step q) = boxStyle q.
Proof. by destruct (timeout_step_cases q) as [[_ ->]|(m & Hm & ->)]. Qed.

Lemma timeout_steps_others {A} (l : list A) (q : Page) :
  let q' := foldl (fun q _ => timeout_step q) q l in
  box (doc q') = box (doc q)
  /\ jsFlipCard (doc q') = jsFlipCard (doc q)
  /\ loader (doc q') = loader (doc q)
  /\ durationInput (doc q') = durationInput (doc q)
  /\ flipBtnText (doc q') = flipBtnText (doc q)
  /\ boxStyle q' = boxStyle q.
Proof.
  revert q. induction l as [|x l IH]; intros q; cbn [foldl]; [done|].
  cbv zeta in IH.
  destruct (IH (timeout_step q)) as (-> & -> & -> & -> & -> & ->).
  apply timeout_step_others.
Qed.

Lemma settle_modal_others (p : Page) (c : Completion Page) :
  c = openModal p \/ c = closeModal p ->
  box (doc (settle p c)) = box (doc p)
  /\ jsFlipCard (doc (settle p c)) = jsFlipCard (doc p)
  /\ loader (doc (settle p c)) = loader (doc p)
  /\ durationInput (doc (settle p c)) = durationInput (doc p)
  /\ flipBtnText (doc (settle p c)) = flipBtnText (doc p)
  /\ boxStyle (settle p c) = boxStyle p.
Proof.
  intros [ -> | -> ].
  - by destruct (settle_openModal p) as [->|(m & Hm & ->)].
  - by destruct (settle_closeModal p) as [->|(m & Hm & ->)].
Qed.

(** Closes the cases of an event that does not touch a part. *)
Ltac solve_parts :=
  split_and!; try done;
  try (let H := fresh in intros H; by destruct H);
  try (intros; cbn; congruence).

Lemma handle_others (ev : Event) (p : Page) :
  (part_of ev <> Box ->
   box (doc (handle ev p)) = box (doc p)
   /\ boxStyle (handle ev p) = boxStyle p)
  /\ (part_of ev <> JsFlipCard ->
      jsFlipCard (doc (handle ev p)) = jsFlipCard (doc p)
      /\ flipBtnText (doc (handle ev p)) = flipBtnText (doc p))
  /\ (part_of ev <> Loader -> loader (doc (handle ev p)) = loader (doc p))
  /\ (part_of ev <> DurationInput ->
      durationInput (doc (handle ev p)) = durationInput (doc p))
  /\ (part_of ev <> Modal ->
      modal (doc (handle ev p)) = modal (doc p)
      /\ timers (handle ev p) = timers p)
  /\ (part_of ev <> Script ->
      AppState (handle ev p) = AppState p /\ counters (handle ev p) = counters p).
Proof.
  destruct ev as [[]|key|value|ms]; cbn [handle part_of].
  - destruct (calcBtn (doc p)); [|solve_parts]. unfold on_calc.
    destruct (durationInput (doc p)) eqn:Hd; solve_parts.
  - destruct (scopeBtn (doc p)); [|solve_parts]. unfold on_scope.
    repeat case_match; solve_parts.
  - destruct (animateBtn (doc p)); [|solve_parts]. unfold on_animate.
    destruct (box (doc p)) as [b|]; [|solve_parts]. cbv zeta.
    destruct (classList_remove [str "run"] b) as [b1|];
      cbn [mbind Completion_bind settle]; [|solve_parts].
    destruct (classList_add [str "run"] b1) as [b2|]; solve_parts.
  - destruct (flipBtn (doc p)); [|solve_parts]. unfold on_flip.
    destruct (toggleClass _ _ _) as [[b c]|]; solve_parts.
  - destruct (startLoader (doc p)); [|solve_parts]. unfold on_loader.
    destruct (toggleClass _ _ _) as [[b c]|]; solve_parts.
  - destruct (stopLoader (doc p)); [|solve_parts]. unfold on_loader.
    destruct (toggleClass _ _ _) as [[b c]|]; solve_parts.
  - destruct (openModalBtn (doc p)); [|solve_parts].
    destruct (settle_modal_others p (openModal p)) as (-> & -> & -> & -> & -> & ->);
      [by left|].
    solve_parts. intros _.
    by destruct (settle_openModal p) as [->|(m & Hm & ->)].
  - destruct (closeModalBtn (doc p)); [|solve_parts].
    destruct (settle_modal_others p (closeModal p)) as (-> & -> & -> & -> & -> & ->);
      [by right|].
    solve_parts. intros _.
    by destruct (settle_closeModal p) as [->|(m & Hm & ->)].
  - destruct (backdrop (doc p)); [|solve_parts].
    destruct (settle_modal_others p (closeModal p)) as (-> & -> & -> & -> & -> & ->);
      [by right|].
    solve_parts. intros _.
    by destruct (settle_closeModal p) as [->|(m & Hm & ->)].
  - unfold on_keydown. destruct (jsstring_eqb key (str "Escape")); [|solve_parts].
    destruct (modal (doc p)) as [m|] eqn:Hm; [|solve_parts].
    destruct (classList_contains (str "open") m); [|solve_parts].
    destruct (settle_modal_others p (closeModal p)) as (-> & -> & -> & -> & -> & ->);
      [by right|].
    solve_parts. intros _.
    by destruct (settle_closeModal p) as [->|(m' & Hm' & ->)].
  - destruct (durationInput (doc p)) eqn:Hd; solve_parts.
  - rewrite elapse_eq. cbn [doc with_now AppState counters boxStyle].
    destruct (timeout_steps_others
      (filter (fun x => (x <= now p + ms)%N) (timers p))
      (with_timers p (filter (fun x => ¬ (x <= now p + ms)%N) (timers p))))
      as (-> & -> & -> & -> & -> & ->).
    solve_parts. intros _.
    by destruct (frame_timeout_steps
      (filter (fun x => (x <= now p + ms)%N) (timers p))
      (with_timers p (filter (fun x => ¬ (x <= now p + ms)%N) (timers p))))
      as [[] _].
Qed.

(** X22.  Events that do not belong to a part of the page (the field, the
    box with the assignments to its style, the card with the text of its
    button, the loader, the modal with its callbacks, or the state of the
    script) leave that part exactly as it was. *)
Theorem listeners_separate (part : Part) (evs : list Event) (p : Page) :
  Forall (fun ev => part_of ev <> part) evs ->
  part_unchanged part p (run evs p).
Proof.
  revert p. induction evs as [|ev evs IH]; intros p Hevs.
  - by destruct part.
  - apply Forall_cons in Hevs as [Hev Hevs]. rewrite run_cons.
    specialize (IH (handle ev p) Hevs).
    destruct (handle_others ev p) as (G1 & G2 & G3 & G4 & G5 & G6).
    destruct part; cbn [part_unchanged] in *.
    + rewrite IH. by apply G4.
    + destruct IH as [-> ->]. by apply G1.
    + destruct IH as [-> ->]. by apply G2.
    + rewrite IH. by apply G3.
    + destruct IH as [-> ->]. by apply G5.
    + destruct IH as [-> ->]. by apply G6.
Qed.

Lemma listeners_separate_witness :
  Forall (fun ev => part_of ev <> Modal)
    [Click FlipBtn; Input (str "2"); Click CalcBtn; Click StartLoader;
     Click ScopeBtn; Click AnimateBtn]
  /\ part_unchanged Modal (run [Click OpenModalBtn; Click Backdrop] (load full_document))
       (run [Click FlipBtn; Input (str "2"); Click CalcBtn; Click StartLoader;
             Click ScopeBtn; Click AnimateBtn]
          (run [Click OpenModalBtn; Click Backdrop] (load full_document))).
Proof.
  assert (Forall (fun ev => part_of ev <> Modal)
            [Click FlipBtn; Input (str "2"); Click CalcBtn; Click StartLoader;
             Click ScopeBtn; Click AnimateBtn]) as H
    by (repeat constructor; discriminate).
  split; [exact H|].
  apply (listeners_separate Modal _
           (run [Click OpenModalBtn; Click Backdrop] (load full_document)) H).
Defined.

(** ** The loader *)

Lemma loader_click (force : bool) (p : Page) (l : Element) :
  loader (doc p) = Some l ->
  exists l', loader (doc (on_loader force p)) = Some l'
    /\ classList_contains (str "on") l' = force.
Proof.
  intros Hl. unfold on_loader, toggleClass. rewrite Hl.
  destruct (classList_toggle_spec (str "on") (Some force) l eq_refl)
    as (l' & -> & Hc & _).
  cbn. eauto.
Qed.

(** X23.  With both loader buttons present, after any events the loader
    has the class [on] exactly when the last click on one of the two
    buttons was on the start button (and as before when there was none). *)
Theorem loader_follows_last_click (evs : list Event) (p : Page) (l : Element) :
  startLoader (doc p) = true -> stopLoader (doc p) = true ->
  loader (doc p) = Some l ->
  exists l', loader (doc (run evs p)) = Some l'
    /\ classList_contains (str "on") l'
       = loader_clicks (classList_contains (str "on") l) evs.
Proof.
  revert p l. induction evs as [|ev evs IH]; intros p l Hstart Hstop Hl.
  - exists l. done.
  - rewrite run_cons. unfold loader_clicks. cbn [foldl].
    fold (loader_clicks
            match ev with
            | Click StartLoader => true
            | Click StopLoader => false
            | _ => classList_contains (str "on") l
            end evs).
    pose proof (handle_elements ev p) as (_ & _ & _ & _ & Hs1 & Hs2 & _).
    assert (exists l', loader (doc (handle ev p)) = Some l'
              /\ classList_contains (str "on") l'
                 = match ev with
                   | Click StartLoader => true
                   | Click StopLoader => false
                   | _ => classList_contains (str "on") l
                   end) as (l' & Hl' & Hon).
    { destruct (handle_others ev p) as (_ & _ & Heq & _).
      destruct ev as [[]| | |];
        try (exists l; rewrite Heq by done; done); cbn [handle].
      - rewrite Hstart. by apply (loader_click true p l).
      - rewrite Hstop. by apply (loader_click false p l). }
    destruct (IH (handle ev p) l') as (l'' & Hl'' & Hon'');
      [congruence | congruence | done |].
    exists l''. rewrite <- Hon. done.
Qed.

Lemma loader_follows_last_click_witness :
  startLoader (doc (load full_document)) = true
  /\ stopLoader (doc (load full_document)) = true
  /\ loader (doc (load full_document)) = Some {| classList := []; attributes := ∅ |}
  /\ exists l',
       loader (doc (run [Click StartLoader; Click FlipBtn; Click StopLoader;
                         Click StartLoader; Elapse 10] (load full_document)))
       = Some l'
       /\ classList_contains (str "on") l'
          = loader_clicks
              (classList_contains (str "on") {| classList := []; attributes := ∅ |})
              [Click StartLoader; Click FlipBtn; Click StopLoader;
               Click StartLoader; Elapse 10].
Proof.
  split_and!; [reflexivity..|].
  apply (loader_follows_last_click
           [Click StartLoader; Click FlipBtn; Click StopLoader;
            Click StartLoader; Elapse 10]
           (load full_document) {| classList := []; attributes := ∅ |});
    reflexivity.
Defined.

(** ** The calc listener *)

Lemma on_scope_AppState (p : Page) :
  AppState (on_scope p) = AppState p /\ doc (on_scope p) = doc p.
Proof. unfold on_scope. by repeat case_match. Qed.

(** X16.  With the calc button and the field present, after any events the
    stored duration is the one computed from the text the field had at the
    last click on the calc button (and the initial one when there was
    none), and the field holds the text of the last edit. *)
Theorem calc_follows_field (evs : list Event) (p : Page) (value : jsstring) :
  calcBtn (doc p) = true -> durationInput (doc p) = Some value ->
  let st := calc_clicks (value, lastDurationMs (AppState p)) evs in
  durationInput (doc (run evs p)) = Some st.1
  /\ lastDurationMs (AppState (run evs p)) = st.2.
Proof.
  revert p value. induction evs as [|ev evs IH]; intros p value Hbtn Hin; [done|].
  rewrite run_cons. unfold calc_clicks. cbn [foldl].
  set (st1 := match ev with
              | Click CalcBtn => (value, computeDurationMs (JStr value))
              | Input v => (v, lastDurationMs (AppState p))
              | _ => (value, lastDurationMs (AppState p))
              end).
  assert (calcBtn (doc (handle ev p)) = true
          /\ durationInput (doc (handle ev p)) = Some st1.1
          /\ lastDurationMs (AppState (handle ev p)) = st1.2) as (Hbtn' & Hin' & Hd).
  { pose proof (handle_elements ev p) as (Hcb & _).
    split; [congruence|].
    destruct (handle_others ev p) as (_ & _ & _ & Hfield & _ & Hscript).
    destruct ev as [[]|key|v|ms]; unfold st1; cbn [fst snd];
      try (rewrite Hfield by done; destruct Hscript as [-> _]; done).
    - cbn [handle]. rewrite Hbtn. unfold on_calc. rewrite Hin. done.
    - rewrite Hfield by done. cbn [handle].
      destruct (scopeBtn (doc p)); [|done].
      by destruct (on_scope_AppState p) as [-> _].
    - destruct Hscript as [-> _]; [done|]. cbn [handle]. by rewrite Hin. }
  replace (match ev with
           | Click CalcBtn => ((value, lastDurationMs (AppState p)).1,
                               computeDurationMs (JStr (value, lastDurationMs (AppState p)).1))
           | Input v => (v, (value, lastDurationMs (AppState p)).2)
           | _ => (value, lastDurationMs (AppState p))
           end) with st1 by (by destruct ev as [[]| | |]).
  destruct st1 as [value1 dur1]. cbn [fst snd] in Hin', Hd.
  rewrite <- Hd. apply (IH (handle ev p) value1 Hbtn' Hin').
Qed.

Lemma calc_follows_field_witness :
  calcBtn (doc (load full_document)) = true
  /\ durationInput (doc (load full_document)) = Some (str "1")
  /\ let st := calc_clicks
                 (str "1", lastDurationMs (AppState (load full_document)))
                 [Input (str "2"); Click CalcBtn; Input (str "0.5");
                  Click AnimateBtn] in
     durationInput
       (doc (run [Input (str "2"); Click CalcBtn; Input (str "0.5");
                  Click AnimateBtn] (load full_document))) = Some st.1
     /\ lastDurationMs
          (AppState (run [Input (str "2"); Click CalcBtn; Input (str "0.5");
                          Click AnimateBtn] (load full_document))) = st.2.
Proof.
  split; [reflexivity|]. split; [reflexivity|].
  apply (calc_follows_field
           [Input (str "2"); Click CalcBtn; Input (str "0.5"); Click AnimateBtn]
           (load full_document) (str "1")); reflexivity.
Defined.

(** ** The card *)

Lemma token_remove_append (l : list jsstring) (t : jsstring) :
  t ∉ l -> token_remove (token_append l t) t = l.
Proof.
  intros Hn. unfold token_append. rewrite bool_decide_eq_false_2 by done.
  unfold token_remove. rewrite filter_app.
  fold (token_remove l t). rewrite token_remove_absent by done.
  rewrite filter_cons_False by (intros H; by apply H).
  rewrite filter_nil. by rewrite app_nil_r.
Qed.

Lemma on_flip_eq (p : Page) (card : Element) :
  jsFlipCard (doc p) = Some card ->
  on_flip p
  = with_doc p
      (with_flipBtnText
         (with_jsFlipCard (doc p) (Some (with_classList card
            (if classList_contains (str "is-flipped") card
             then token_remove (classList card) (str "is-flipped")
             else token_append (classList card) (str "is-flipped")))))
         (if classList_contains (str "is-flipped") card
          then str "Flip Card" else str "Unflip Card")).
Proof.
  intros Hcard. unfold on_flip, toggleClass. rewrite Hcard.
  unfold classList_toggle.
  change (validate_token (str "is-flipped")) with (Normal ()).
  cbn [mbind Completion_bind].
  destruct (classList_contains (str "is-flipped") card) eqn:Hc;
    cbn [mbind Completion_bind settle]; rewrite contains_with_classList.
  - rewrite bool_decide_eq_false_2; [done|].
    rewrite elem_of_token_remove. intros [_ H]. by apply H.
  - rewrite bool_decide_eq_true_2; [done|].
    rewrite elem_of_token_append. by right.
Qed.

(** X24.  Two clicks on the flip button give back the same classes and
    attributes of the card, and leave on the button the text that fits the
    card: [Unflip Card] when it is flipped, [Flip Card] when it is not.  When
    the card was not flipped at first the page is as before but for that
    text, which is [Flip Card] whatever it was. *)
Theorem flip_twice (p : Page) (card : Element) :
  flipBtn (doc p) = true -> jsFlipCard (doc p) = Some card ->
  let q := run [Click FlipBtn; Click FlipBtn] p in
  exists card',
    jsFlipCard (doc q) = Some card'
    /\ (forall c, c ∈ classList card' <-> c ∈ classList card)
    /\ attributes card' = attributes card
    /\ flipBtnText (doc q)
       = (if classList_contains (str "is-flipped") card'
          then str "Unflip Card" else str "Flip Card")
    /\ (str "is-flipped" ∉ classList card ->
        q = with_doc p (with_flipBtnText (doc p) (str "Flip Card"))).
Proof.
  intros Hbtn Hcard. cbv zeta. unfold run. cbn [foldl handle].
  rewrite Hbtn. rewrite (on_flip_eq p card Hcard).
  cbn [doc with_doc flipBtn with_jsFlipCard with_flipBtnText]. rewrite Hbtn.
  erewrite on_flip_eq by reflexivity.
  cbn [doc with_doc jsFlipCard with_jsFlipCard with_flipBtnText flipBtnText].
  eexists. split; [reflexivity|].
  rewrite !contains_with_classList. cbn [with_classList classList attributes].
  destruct (classList_contains (str "is-flipped") card) eqn:Hc.
  - apply contains_iff in Hc.
    rewrite bool_decide_eq_false_2
      by (rewrite elem_of_token_remove; intros [_ H]; by apply H).
    rewrite bool_decide_eq_true_2 by (rewrite elem_of_token_append; by right).
    split_and!; [|done|done|done].
    intros c. rewrite elem_of_token_append, elem_of_token_remove.
    destruct (decide (c = str "is-flipped")) as [->|Hne]; tauto.
  - assert (str "is-flipped" ∉ classList card) as Hn.
    { intros H. apply contains_iff in H. congruence. }
    rewrite bool_decide_eq_true_2 by (rewrite elem_of_token_append; by right).
    rewrite token_remove_append by done.
    rewrite bool_decide_eq_false_2 by done.
    split_and!; [done..|]. intros _.
    destruct p as [st cs ir d bs nw ts]. destruct d. destruct card.
    cbn in *. by subst.
Qed.

Lemma flip_twice_witness :
  flipBtn (doc (load full_document)) = true
  /\ jsFlipCard (doc (load full_document))
     = Some {| classList := []; attributes := ∅ |}
  /\ let q := run [Click FlipBtn; Click FlipBtn] (load full_document) in
     exists card',
       jsFlipCard (doc q) = Some card'
       /\ (forall c, c ∈ classList card' <-> c ∈ [])
       /\ attributes card' = ∅
       /\ flipBtnText (doc q)
          = (if classList_contains (str "is-flipped") card'
             then str "Unflip Card" else str "Flip Card")
       /\ (str "is-flipped" ∉ [] ->
           q = with_doc (load full_document)
                 (with_flipBtnText (doc (load full_document)) (str "Flip Card"))).
Proof.
  split_and!; [reflexivity..|].
  apply (flip_twice (load full_document) {| classList := []; attributes := ∅ |});
    reflexivity.
Defined.

(** ** The modal and assistive technology *)

Lemma aria_consistent_open (m : Element) :
  aria_consistent
    {| classList := token_append (token_remove (classList m) (str "closing"))
                      (str "open");
       attributes := <[str "aria-hidden" := str "false"]> (attributes m) |}.
Proof.
  unfold aria_consistent. rewrite contains_iff. cbn [classList attributes].
  rewrite lookup_insert_eq. rewrite elem_of_token_append. split; [done|by right].
Qed.

Lemma aria_consistent_closing (m : Element) :
  aria_consistent m ->
  aria_consistent
    {| classList := token_append (classList m) (str "closing");
       attributes := attributes m |}.
Proof.
  unfold aria_consistent. rewrite !contains_iff. cbn [classList attributes].
  rewrite elem_of_token_append. intros <-. split; [|by left].
  by intros [H|H].
Qed.

Lemma aria_consistent_closed (m : Element) :
  aria_consistent
    {| classList := token_remove (token_remove (classList m) (str "open"))
                      (str "closing");
       attributes := <[str "aria-hidden" := str "true"]> (attributes m) |}.
Proof.
  unfold aria_consistent. rewrite contains_iff. cbn [classList attributes].
  rewrite lookup_insert_eq. rewrite !elem_of_token_remove. split; [|done].
  intros [[_ H] _]. by destruct H.
Qed.

Lemma aria_consistent_timeout_steps {A} (l : list A) (q : Page) :
  (forall m, modal (doc q) = Some m -> aria_consistent m) ->
  forall m, modal (doc (foldl (fun q _ => timeout_step q) q l)) = Some m ->
    aria_consistent m.
Proof.
  revert q. induction l as [|x l IH]; intros q Hq; cbn [foldl]; [done|].
  apply IH. intros m.
  destruct (timeout_step_cases q) as [[_ ->]|(m0 & Hm0 & ->)]; [by apply Hq|].
  cbn. intros [= <-]. apply aria_consistent_closed.
Qed.

Lemma aria_consistent_handle (ev : Event) (p : Page) :
  (forall m, modal (doc p) = Some m -> aria_consistent m) ->
  forall m, modal (doc (handle ev p)) = Some m -> aria_consistent m.
Proof.
  intros Hp.
  destruct (handle_modal_cases ev p)
    as [[ms ->]|[(-> & _)|[[_ ->]|[_ ->]]]]; [|done| |].
  - cbn [handle]. rewrite elapse_eq. cbn [doc with_now].
    by apply aria_consistent_timeout_steps.
  - destruct (settle_openModal p) as [->|(m0 & Hm0 & ->)]; [done|].
    cbn. intros m [= <-]. apply aria_consistent_open.
  - destruct (settle_closeModal p) as [->|(m0 & Hm0 & ->)]; [done|].
    cbn. intros m [= <-]. apply aria_consistent_closing. by apply Hp.
Qed.

(** X25.  If at first the modal has [aria-hidden="false"] exactly when it
    has the class [open], the same holds after any events. *)
Theorem aria_hidden_tracks_open (evs : list Event) (p : Page) (m : Element) :
  (forall m0, modal (doc p) = Some m0 -> aria_consistent m0) ->
  modal (doc (run evs p)) = Some m ->
  aria_consistent m.
Proof.
  revert p. induction evs as [|ev evs IH]; intros p Hp; [by apply Hp|].
  rewrite run_cons. apply IH. by apply aria_consistent_handle.
Qed.

Lemma aria_hidden_tracks_open_witness :
  (forall m0, modal (doc (load full_document)) = Some m0 -> aria_consistent m0)
  /\ modal (doc (run [Click OpenModalBtn] (load full_document))) = Some open_modal
  /\ aria_consistent open_modal.
Proof.
  assert (forall m0, modal (doc (load full_document)) = Some m0 ->
            aria_consistent m0) as H0.
  { intros m0 H. injection H as <-. split; intros H; vm_compute in H; discriminate. }
  split; [exact H0|]. split; [vm_compute; reflexivity|].
  apply (aria_hidden_tracks_open [Click OpenModalBtn] (load full_document)
           open_modal H0).
  vm_compute. reflexivity.
Defined.

(** ** The text of the flip button *)

Lemma text_fits_handle (ev : Event) (p : Page) :
  (text_fits (doc p) -> text_fits (doc (handle ev p)))
  /\ (ev = Click FlipBtn -> flipBtn (doc p) = true ->
      text_fits (doc (handle ev p)))
  /\ flipBtn (doc (handle ev p)) = flipBtn (doc p).
Proof.
  split_and!.
  - intros Hfit. destruct (handle_others ev p) as (_ & Hcard & _).
    destruct ev as [[]| | |];
      try (unfold text_fits; destruct Hcard as [-> ->]; done).
    cbn [handle]. destruct (flipBtn (doc p)); [|done].
    destruct (jsFlipCard (doc p)) as [card|] eqn:Hc.
    + rewrite (on_flip_eq p card Hc). unfold text_fits.
      cbn [doc with_doc jsFlipCard flipBtnText with_flipBtnText with_jsFlipCard].
      rewrite contains_with_classList.
      destruct (classList_contains (str "is-flipped") card) eqn:Hin.
      * rewrite bool_decide_eq_false_2; [done|].
        rewrite elem_of_token_remove. intros [_ H]. by apply H.
      * rewrite bool_decide_eq_true_2; [done|].
        rewrite elem_of_token_append. by right.
    + unfold on_flip, toggleClass. rewrite Hc. unfold text_fits. by cbn.
  - intros -> Hbtn. cbn [handle]. rewrite Hbtn.
    destruct (jsFlipCard (doc p)) as [card|] eqn:Hc.
    + rewrite (on_flip_eq p card Hc). unfold text_fits.
      cbn [doc with_doc jsFlipCard flipBtnText with_flipBtnText with_jsFlipCard].
      rewrite contains_with_classList.
      destruct (classList_contains (str "is-flipped") card) eqn:Hin.
      * rewrite bool_decide_eq_false_2; [done|].
        rewrite elem_of_token_remove. intros [_ H]. by apply H.
      * rewrite bool_decide_eq_true_2; [done|].
        rewrite elem_of_token_append. by right.
    + unfold on_flip, toggleClass. rewrite Hc. unfold text_fits. by cbn.
  - by pose proof (handle_elements ev p) as (_ & _ & _ & -> & _).
Qed.

Lemma text_fits_run (evs : list Event) (p : Page) :
  text_fits (doc p) -> text_fits (doc (run evs p)).
Proof.
  revert p. induction evs as [|ev evs IH]; intros p Hfit; [done|].
  rewrite run_cons. apply IH.
  destruct (text_fits_handle ev p) as (H & _). by apply H.
Qed.

(** X27.  Once the flip button has been clicked its text fits the card,
    after any further events: it reads [Unflip Card] when the card has the
    class [is-flipped] and [Flip Card] when it has not or there is no
    card. *)
Theorem flip_text_tracks_card (evs : list Event) (p : Page) :
  flipBtn (doc p) = true ->
  text_fits (doc (run (Click FlipBtn :: evs) p)).
Proof.
  intros Hbtn. rewrite run_cons. apply text_fits_run.
  destruct (text_fits_handle (Click FlipBtn) p) as (_ & H & _). by apply H.
Qed.

Lemma flip_text_tracks_card_witness :
  flipBtn (doc (load (with_flipBtnText full_document (str "Turn")))) = true
  /\ text_fits
       (doc (run [Click FlipBtn; Click AnimateBtn; Click FlipBtn; Click FlipBtn]
               (load (with_flipBtnText full_document (str "Turn"))))).
Proof.
  split; [reflexivity|].
  apply (flip_text_tracks_card [Click AnimateBtn; Click FlipBtn; Click FlipBtn]
           (load (with_flipBtnText full_document (str "Turn")))).
  reflexivity.
Defined.

(** ** The inline style of the box *)

Lemma style_assignments_handle (ev : Event) (p : Page) :
  (exists n, 225 <= n <= 3600 /\ lastDurationMs (AppState p) = Z2F n) ->
  Forall style_assignment_ok (boxStyle p) ->
  Forall style_assignment_ok (boxStyle (handle ev p)).
Proof.
  intros (n & Hn & Hd) Hok.
  destruct (handle_others ev p) as (Hbox & _).
  destruct ev as [[]| | |]; try (by destruct Hbox as [_ ->]).
  cbn [handle]. destruct (animateBtn (doc p)); [|done].
  destruct (box (doc p)) as [b|] eqn:Hb; [|unfold on_animate; by rewrite Hb].
  rewrite (on_animate_eq p b Hb). cbn [boxStyle with_doc with_boxStyle].
  apply Forall_app. split; [done|]. rewrite Hd.
  destruct (msToSecondsString_hundredths n Hn) as (cs & -> & Hcs).
  apply Forall_cons. split; [|apply Forall_cons; split; [by right|constructor]].
  left. split; [done|]. exists cs. split; [lia|done].
Qed.

(** X28.  After any events on a freshly loaded page, every assignment the
    script has made to the style of the box is either a duration, written as
    seconds with two decimals between [0.22s] and [3.60s], or the easing. *)
Theorem box_style_assignments (d : Document) (evs : list Event) :
  Forall style_assignment_ok (boxStyle (run evs (load d))).
Proof.
  assert (forall evs p,
    (exists n, 225 <= n <= 3600 /\ lastDurationMs (AppState p) = Z2F n) ->
    Forall style_assignment_ok (boxStyle p) ->
    Forall style_assignment_ok (boxStyle (run evs p))) as Hrun.
  { clear evs. induction evs as [|ev evs IH]; intros p Hp Hok; [done|].
    rewrite run_cons. apply IH; [|by apply style_assignments_handle].
    destruct (handle_AppState ev p) as [->|[s ->]]; [done|].
    cbn [lastDurationMs]. by apply computeDurationMs_range. }
  apply Hrun; [|by constructor].
  exists 900. split; [lia | reflexivity].
Qed.
